(** * Real-time price tracking client: decoder, connection manager, throttle

    A shallow embedding of the JavaScript sources

    - [src/utils/PriceDataParser.jsx]: the class [PriceDataParser], the
      binary payload decoder;
    - the class [WebSocketManager], which [App] imports from
      [utils/WebSocketManager] and whose text follows the chart component in
      [src/components/PriceChart.jsx]: the connection manager and the
      subscription registry;
    - [src/App.jsx]: [handlePriceUpdate] and [updatePrice], the update
      throttle;

    together with the properties stated about them.  JavaScript numbers that
    are counters, identifiers, times or byte values are integers and are
    modelled in [Z]; the floating point products of the decoder are kept
    abstract. *)

From Stdlib Require Import ZArith List String Ascii Bool Lia.
From Stdlib Require Import Strings.Byte.
Import ListNotations.
Open Scope Z_scope.
Set Warnings "-register-all".

(* ================================================================== *)
(** * JavaScript values *)
(* ================================================================== *)

(** What [JSON.parse] can return, what a caller can pass for [data] or
    [params], and what the manager stores in the fields of a registry entry.
    The numbers that matter here (request ids, subscription ids) are
    integers. *)
Inductive jsval : Type :=
| JUndefined
| JNull
| JBool (b : bool)
| JNum (n : Z)
| JStr (s : string)
| JArr (items : list jsval)
| JObj (fields : list (string * jsval)).

(** [ToBoolean]: [undefined], [null], [false], [0] and the empty string are
    falsy; every object and array is truthy. *)
Definition truthy (v : jsval) : bool :=
  match v with
  | JUndefined | JNull => false
  | JBool b => b
  | JNum n => negb (n =? 0)
  | JStr s => negb (String.eqb s "")
  | JArr _ | JObj _ => true
  end.

(** The operator [===].  Two primitives are compared by value; an object or an
    array is compared by reference, and a freshly parsed or freshly built one
    is never the reference held by the other operand. *)
Definition strict_eq (a b : jsval) : bool :=
  match a, b with
  | JUndefined, JUndefined => true
  | JNull, JNull => true
  | JBool x, JBool y => Bool.eqb x y
  | JNum x, JNum y => x =? y
  | JStr x, JStr y => String.eqb x y
  | _, _ => false
  end.

Fixpoint lookup_field (fs : list (string * jsval)) (k : string) : jsval :=
  match fs with
  | [] => JUndefined
  | (k', v) :: rest => if String.eqb k' k then v else lookup_field rest k
  end.

(** Property read [v.k] / [v[k]].  [None] is the [TypeError] raised when the
    base is [null] or [undefined].  The code modelled below reads the keys
    [0], [id] and [result] only; on an array or a string, [0] is its first
    element (first character) and the other two are [undefined]. *)
Definition get_prop (v : jsval) (k : string) : option jsval :=
  match v with
  | JUndefined | JNull => None
  | JObj fs => Some (lookup_field fs k)
  | JArr items =>
      Some (if String.eqb k "0" then hd JUndefined items else JUndefined)
  | JStr s =>
      Some (if String.eqb k "0"
            then match s with
                 | EmptyString => JUndefined
                 | String c _ => JStr (String c EmptyString)
                 end
            else JUndefined)
  | JBool _ | JNum _ => Some JUndefined
  end.

(** Number of constructors of a value; an object strictly contains each of its
    field values. *)
Fixpoint jsize (v : jsval) : nat :=
  match v with
  | JArr items => S (list_sum (map jsize items))
  | JObj fs => S (list_sum (map (fun kv => jsize (snd kv)) fs))
  | _ => 1%nat
  end.

(* ================================================================== *)
(** * Completions: a value or a thrown exception *)
(* ================================================================== *)

Inductive completion (A : Type) : Type :=
| Normal (a : A)
| Throw (err : string).
Arguments Normal {A} a.
Arguments Throw {A} err.

Definition bind {A B : Type} (c : completion A) (k : A -> completion B)
  : completion B :=
  match c with
  | Normal a => k a
  | Throw e => Throw e
  end.

Notation "x <- c ;; k" := (bind c (fun x => k))
  (at level 61, c at next level, right associativity).

(* ================================================================== *)
(** * PriceDataParser *)
(* ================================================================== *)

Module PriceDataParser.

(** ** The [Buffer] reads used by the parser *)

Definition buffer := list byte.

Definition byte_at (buf : buffer) (i : nat) : Z :=
  Z.of_N (Byte.to_N (nth i buf x00)).

(** Modelled from the spec: [buffer.readUInt32LE(offset)] and
    [buffer.readInt32LE(offset)] are methods of [Buffer], from the npm
    package [buffer], whose source is not in the repository.  The spec has
    the layout little-endian, the low half of a 64-bit field read unsigned
    and the high half signed, and a short buffer raise an exception during
    decode: a read of four bytes at [offset] raises unless
    [offset + 4 <= length], and combines the bytes least significant
    first. *)
Definition readUInt32LE (buf : buffer) (offset : nat) : completion Z :=
  if (offset + 4 <=? List.length buf)%nat
  then Normal (byte_at buf offset
               + 2 ^ 8 * byte_at buf (offset + 1)
               + 2 ^ 16 * byte_at buf (offset + 2)
               + 2 ^ 24 * byte_at buf (offset + 3))
  else Throw "RangeError".

(** Two's complement reading of an unsigned 32-bit value. *)
Definition to_int32 (u : Z) : Z := if u <? 2 ^ 31 then u else u - 2 ^ 32.

(** The method [readInt32LE] of [Buffer]. *)
Definition buf_readInt32LE (buf : buffer) (offset : nat) : completion Z :=
  u <- readUInt32LE buf offset ;; Normal (to_int32 u).

(** ** [readBigInt64LE] and [readInt32LE] (static methods of the class) *)

Definition readBigInt64LE (buf : buffer) (offset : nat) : completion Z :=
  low <- readUInt32LE buf offset ;;
  high <- buf_readInt32LE buf (offset + 4) ;;
  Normal (high * 4294967296 + low).

Definition readInt32LE (buf : buffer) (offset : nat) : completion Z :=
  buf_readInt32LE buf offset.

(** ** [Number(bigint)]

    The double nearest to an integer, ties to even.  For a magnitude below
    [2^1024] the result is itself an integer, which is what is returned
    here; the values the parser converts are below [2^63] in magnitude. *)
Definition round_to_53 (m : Z) : Z :=
  let bits := Z.log2 m + 1 in
  if bits <=? 53 then m
  else
    let sh := bits - 53 in
    let q := m / 2 ^ sh in
    let r := m mod 2 ^ sh in
    let half := 2 ^ (sh - 1) in
    let q' := if (half <? r) || ((r =? half) && Z.odd q) then q + 1 else q in
    q' * 2 ^ sh.

Definition Number_of_BigInt (z : Z) : Z := Z.sgn z * round_to_53 (Z.abs z).

Section Parser.

(** [Buffer.from(x, 'base64')] of the [buffer] package: the decoded bytes,
    or an exception ([Throw]) when the library rejects its argument. *)
Variable Buffer_from_base64 : jsval -> completion buffer.

(** Doubles: the embedding of an integer valued double, [Math.pow(10, e)]
    and the product of two doubles. *)
Variable float : Type.
Variable float_of_Z : Z -> float.
Variable Math_pow10 : Z -> float.
Variable float_mul : float -> float -> float.

Record reading : Type := {
  price : float;
  confidence : float;
  exponent : Z;
  rawPrice : Z;
  rawConfidence : Z;
  timestamp : Z;
  raw : jsval
}.

(** The body of the [try] block of [parseData].  [now] is the value of
    [Date.now()]; [Normal None] is the early [return null]. *)
Definition parseData_try (data : jsval) (now : Z)
  : completion (option reading) :=
  if negb (truthy data) then Normal None
  else
    d0 <- match get_prop data "0" with
          | Some v => Normal v
          | None => Throw "TypeError"
          end ;;
    if negb (truthy d0) then Normal None
    else
      binaryData <- Buffer_from_base64 d0 ;;
      price_ <- readBigInt64LE binaryData 8 ;;
      confidence_ <- readBigInt64LE binaryData 16 ;;
      exponent_ <- readInt32LE binaryData 24 ;;
      let priceValue :=
        float_mul (float_of_Z (Number_of_BigInt price_))
                  (Math_pow10 exponent_) in
      let confidenceValue :=
        float_mul (float_of_Z (Number_of_BigInt confidence_))
                  (Math_pow10 exponent_) in
      Normal (Some {| price := priceValue;
                      confidence := confidenceValue;
                      exponent := exponent_;
                      rawPrice := Number_of_BigInt price_;
                      rawConfidence := Number_of_BigInt confidence_;
                      timestamp := now;
                      raw := d0 |}).

(** [parseData]: the [try] block, and the [catch] that logs and returns
    [null]. *)
Definition parseData (data : jsval) (now : Z) : option reading :=
  match parseData_try data now with
  | Normal r => r
  | Throw _ => None
  end.

End Parser.

Arguments price {float} _.
Arguments confidence {float} _.
Arguments exponent {float} _.
Arguments rawPrice {float} _.
Arguments rawConfidence {float} _.
Arguments timestamp {float} _.
Arguments raw {float} _.

(** ** Little-endian layout of a payload (the encoder of the round trip) *)

Definition byte_of_Z (z : Z) : byte :=
  match Byte.of_N (Z.to_N (z mod 256)) with
  | Some b => b
  | None => x00
  end.

Fixpoint le_bytes (n : nat) (z : Z) : list byte :=
  match n with
  | O => []
  | S n' => byte_of_Z z :: le_bytes n' (z / 256)
  end.

(** Eight header bytes, the price and the confidence as 64-bit two's
    complement, the exponent as 32-bit two's complement, then any trailer. *)
Definition encode_payload (header : list byte) (rawPrice_ rawConfidence_ exponent_ : Z)
           (trailer : list byte) : buffer :=
  header ++ le_bytes 8 rawPrice_ ++ le_bytes 8 rawConfidence_
         ++ le_bytes 4 exponent_ ++ trailer.

(** ** Instances used to run the parser on concrete payloads *)

Definition sextet (c : ascii) : option Z :=
  let n := Z.of_nat (nat_of_ascii c) in
  if (65 <=? n) && (n <=? 90) then Some (n - 65)
  else if (97 <=? n) && (n <=? 122) then Some (n - 71)
  else if (48 <=? n) && (n <=? 57) then Some (n + 4)
  else if n =? 43 then Some 62
  else if n =? 47 then Some 63
  else None.

Fixpoint only_padding (s : string) : bool :=
  match s with
  | EmptyString => true
  | String c rest => Ascii.eqb c "="%char && only_padding rest
  end.

(** The six-bit values of a string over the alphabet, up to its padding;
    [None] for a character that is neither. *)
Fixpoint sextets (s : string) : option (list Z) :=
  match s with
  | EmptyString => Some []
  | String c rest =>
      if Ascii.eqb c "="%char
      then if only_padding rest then Some [] else None
      else match sextet c, sextets rest with
           | Some v, Some l => Some (v :: l)
           | _, _ => None
           end
  end.

Fixpoint octets (l : list Z) : list byte :=
  match l with
  | a :: b :: c :: d :: rest =>
      byte_of_Z (a * 4 + b / 16) :: byte_of_Z (b * 16 + c / 4)
        :: byte_of_Z (c * 64 + d) :: octets rest
  | [a; b; c] => [byte_of_Z (a * 4 + b / 16); byte_of_Z (b * 16 + c / 4)]
  | [a; b] => [byte_of_Z (a * 4 + b / 16)]
  | _ => []
  end.

(** Modelled from the spec: [Buffer.from(x, 'base64')] is a function of the
    npm package [buffer], whose source is not in the repository.  The spec
    takes the input to be a base64-encoded byte string and has bad base64
    raise an exception during decode.  Here a string over the standard
    alphabet, padded with [=] to a multiple of four characters, decodes to
    its bytes, and every other argument raises. *)
Definition sample_Buffer_from (v : jsval) : completion buffer :=
  match v with
  | JStr s =>
      if (Nat.eqb (String.length s mod 4) 0)%nat
      then match sextets s with
           | Some l => Normal (octets l)
           | None => Throw "TypeError"
           end
      else Throw "TypeError"
  | _ => Throw "TypeError"
  end.

Definition zero_header : list byte := [x00; x00; x00; x00; x00; x00; x00; x00].

(** Exact decimal numbers [m * 10^e] in place of doubles. *)
Definition decimal : Type := (Z * Z)%type.
Definition decimal_of_Z (z : Z) : decimal := (z, 0).
Definition decimal_pow10 (e : Z) : decimal := (1, e).
Definition decimal_mul (a b : decimal) : decimal :=
  (fst a * fst b, snd a + snd b).

Definition sample_parseData : jsval -> Z -> option (reading decimal) :=
  parseData sample_Buffer_from decimal decimal_of_Z decimal_pow10 decimal_mul.

(** The decoding of a string as the npm package [buffer] does it (the
    package is not in the repository; this is its [base64clean] followed by
    the decoding loop): the text ends at the first [=]; the characters
    outside the alphabet are left out, where [-] and [_] count as [+] and
    [/]; four characters give three bytes, a rest of three gives two, a rest
    of two gives one, and a rest of one gives none.  No string makes it
    raise.  An argument that is not a string is not decoded by this
    instance: it raises. *)
Definition package_sextet (c : ascii) : option Z :=
  let n := Z.of_nat (nat_of_ascii c) in
  if n =? 45 then Some 62
  else if n =? 95 then Some 63
  else sextet c.

Fixpoint base64clean (s : string) : list Z :=
  match s with
  | EmptyString => []
  | String c rest =>
      if Ascii.eqb c "="%char then []
      else match package_sextet c with
           | Some v => v :: base64clean rest
           | None => base64clean rest
           end
  end.

Definition lenient_Buffer_from (v : jsval) : completion buffer :=
  match v with
  | JStr s => Normal (octets (base64clean s))
  | _ => Throw "TypeError"
  end.

Definition lenient_parseData : jsval -> Z -> option (reading decimal) :=
  parseData lenient_Buffer_from decimal decimal_of_Z decimal_pow10
            decimal_mul.

End PriceDataParser.

(* ================================================================== *)
(** * WebSocketManager *)
(* ================================================================== *)

Module WebSocketManager.

(** ** Options *)

Record options : Type := {
  reconnectInterval : Z;
  maxReconnectAttempts : Z
}.

(** [{ reconnectInterval: 2000, maxReconnectAttempts: 5, ...options }]:
    a key given by the caller overrides the default. *)
Definition make_options (given_interval given_max : option Z) : options :=
  {| reconnectInterval :=
       match given_interval with Some v => v | None => 2000 end;
     maxReconnectAttempts :=
       match given_max with Some v => v | None => 5 end |}.

(** ** The subscription registry: a [Map] from address to entry

    A [Map] iterates in insertion order, [set] on a present key keeps its
    position, and a key occurs once.  The entries are the objects
    [{ params, pendingId, id }]. *)

Record sub : Type := {
  params : jsval;
  pendingId : jsval;
  sub_id : jsval
}.

(** A registry entry seen as a JavaScript value (what [forEach] hands to its
    callback as first argument). *)
Definition sub_object (e : sub) : jsval :=
  JObj [("params"%string, params e);
        ("pendingId"%string, pendingId e);
        ("id"%string, sub_id e)].

Definition registry := list (string * sub).

Fixpoint map_has (m : registry) (k : string) : bool :=
  match m with
  | [] => false
  | (k', _) :: rest => if String.eqb k' k then true else map_has rest k
  end.

Fixpoint map_get (m : registry) (k : string) : option sub :=
  match m with
  | [] => None
  | (k', v) :: rest => if String.eqb k' k then Some v else map_get rest k
  end.

Fixpoint map_set (m : registry) (k : string) (v : sub) : registry :=
  match m with
  | [] => [(k, v)]
  | (k', v') :: rest =>
      if String.eqb k' k then (k', v) :: rest else (k', v') :: map_set rest k v
  end.

Fixpoint map_delete (m : registry) (k : string) : registry :=
  match m with
  | [] => []
  | (k', v') :: rest =>
      if String.eqb k' k then rest else (k', v') :: map_delete rest k
  end.

(** ** State

    The first nine fields are the fields of the object ([url] is kept as
    whether [new WebSocket(url)] constructs).  The others are the run time
    around it: sockets and connection promises are numbered by [next_id]
    (the socket and the promise made by one call of [connect] share their
    number), [settled] records the promises resolved ([true]) or rejected
    ([false]), [awaiting] the [subscribe] calls suspended at
    [await this.connect()], [timers] the delay of every
    [setTimeout(() => this.connect(), delay)] so far of which the first
    [fired] have run, [closing] the sockets on which [close()] was called,
    [sent] the frames handed to [send] with their socket, [console] the log,
    and [delivered] the handler invocations. *)
Record state : Type := {
  url_accepted : bool;
  options_ : options;
  ws : option nat;
  reconnectAttempts : Z;
  subscriptions : registry;
  isConnected : bool;
  connectionPromise : option nat;
  messageHandlers : list nat;
  lastMessageId : Z;
  next_id : nat;
  settled : list (nat * bool);
  awaiting : list (nat * (string * jsval));
  timers : list Z;
  fired : nat;
  closing : list nat;
  sent : list (nat * jsval);
  console : list string;
  delivered : list (nat * jsval)
}.

(** The constructor. *)
Definition new_manager (url_ok : bool) (given_interval given_max : option Z)
  : state :=
  {| url_accepted := url_ok;
     options_ := make_options given_interval given_max;
     ws := None;
     reconnectAttempts := 0;
     subscriptions := [];
     isConnected := false;
     connectionPromise := None;
     messageHandlers := [];
     lastMessageId := 0;
     next_id := 0;
     settled := [];
     awaiting := [];
     timers := [];
     fired := 0;
     closing := [];
     sent := [];
     console := [];
     delivered := [] |}.

Definition set_ws (v : option nat) (s : state) : state :=
  {| url_accepted := url_accepted s; options_ := options_ s; ws := v;
     reconnectAttempts := reconnectAttempts s;
     subscriptions := subscriptions s; isConnected := isConnected s;
     connectionPromise := connectionPromise s;
     messageHandlers := messageHandlers s; lastMessageId := lastMessageId s;
     next_id := next_id s; settled := settled s; awaiting := awaiting s;
     timers := timers s; fired := fired s; closing := closing s;
     sent := sent s; console := console s; delivered := delivered s |}.

Definition set_reconnectAttempts (v : Z) (s : state) : state :=
  {| url_accepted := url_accepted s; options_ := options_ s; ws := ws s;
     reconnectAttempts := v; subscriptions := subscriptions s;
     isConnected := isConnected s; connectionPromise := connectionPromise s;
     messageHandlers := messageHandlers s; lastMessageId := lastMessageId s;
     next_id := next_id s; settled := settled s; awaiting := awaiting s;
     timers := timers s; fired := fired s; closing := closing s;
     sent := sent s; console := console s; delivered := delivered s |}.

Definition set_subscriptions (v : registry) (s : state) : state :=
  {| url_accepted := url_accepted s; options_ := options_ s; ws := ws s;
     reconnectAttempts := reconnectAttempts s; subscriptions := v;
     isConnected := isConnected s; connectionPromise := connectionPromise s;
     messageHandlers := messageHandlers s; lastMessageId := lastMessageId s;
     next_id := next_id s; settled := settled s; awaiting := awaiting s;
     timers := timers s; fired := fired s; closing := closing s;
     sent := sent s; console := console s; delivered := delivered s |}.

Definition set_isConnected (v : bool) (s : state) : state :=
  {| url_accepted := url_accepted s; options_ := options_ s; ws := ws s;
     reconnectAttempts := reconnectAttempts s;
     subscriptions := subscriptions s; isConnected := v;
     connectionPromise := connectionPromise s;
     messageHandlers := messageHandlers s; lastMessageId := lastMessageId s;
     next_id := next_id s; settled := settled s; awaiting := awaiting s;
     timers := timers s; fired := fired s; closing := closing s;
     sent := sent s; console := console s; delivered := delivered s |}.

Definition set_connectionPromise (v : option nat) (s : state) : state :=
  {| url_accepted := url_accepted s; options_ := options_ s; ws := ws s;
     reconnectAttempts := reconnectAttempts s;
     subscriptions := subscriptions s; isConnected := isConnected s;
     connectionPromise := v; messageHandlers := messageHandlers s;
     lastMessageId := lastMessageId s; next_id := next_id s;
     settled := settled s; awaiting := awaiting s; timers := timers s;
     fired := fired s; closing := closing s; sent := sent s;
     console := console s; delivered := delivered s |}.

Definition set_messageHandlers (v : list nat) (s : state) : state :=
  {| url_accepted := url_accepted s; options_ := options_ s; ws := ws s;
     reconnectAttempts := reconnectAttempts s;
     subscriptions := subscriptions s; isConnected := isConnected s;
     connectionPromise := connectionPromise s; messageHandlers := v;
     lastMessageId := lastMessageId s; next_id := next_id s;
     settled := settled s; awaiting := awaiting s; timers := timers s;
     fired := fired s; closing := closing s; sent := sent s;
     console := console s; delivered := delivered s |}.

Definition set_lastMessageId (v : Z) (s : state) : state :=
  {| url_accepted := url_accepted s; options_ := options_ s; ws := ws s;
     reconnectAttempts := reconnectAttempts s;
     subscriptions := subscriptions s; isConnected := isConnected s;
     connectionPromise := connectionPromise s;
     messageHandlers := messageHandlers s; lastMessageId := v;
     next_id := next_id s; settled := settled s; awaiting := awaiting s;
     timers := timers s; fired := fired s; closing := closing s;
     sent := sent s; console := console s; delivered := delivered s |}.

Definition set_next_id (v : nat) (s : state) : state :=
  {| url_accepted := url_accepted s; options_ := options_ s; ws := ws s;
     reconnectAttempts := reconnectAttempts s;
     subscriptions := subscriptions s; isConnected := isConnected s;
     connectionPromise := connectionPromise s;
     messageHandlers := messageHandlers s; lastMessageId := lastMessageId s;
     next_id := v; settled := settled s; awaiting := awaiting s;
     timers := timers s; fired := fired s; closing := closing s;
     sent := sent s; console := console s; delivered := delivered s |}.

Definition set_settled (v : list (nat * bool)) (s : state) : state :=
  {| url_accepted := url_accepted s; options_ := options_ s; ws := ws s;
     reconnectAttempts := reconnectAttempts s;
     subscriptions := subscriptions s; isConnected := isConnected s;
     connectionPromise := connectionPromise s;
     messageHandlers := messageHandlers s; lastMessageId := lastMessageId s;
     next_id := next_id s; settled := v; awaiting := awaiting s;
     timers := timers s; fired := fired s; closing := closing s;
     sent := sent s; console := console s; delivered := delivered s |}.

Definition set_awaiting (v : list (nat * (string * jsval))) (s : state) : state :=
  {| url_accepted := url_accepted s; options_ := options_ s; ws := ws s;
     reconnectAttempts := reconnectAttempts s;
     subscriptions := subscriptions s; isConnected := isConnected s;
     connectionPromise := connectionPromise s;
     messageHandlers := messageHandlers s; lastMessageId := lastMessageId s;
     next_id := next_id s; settled := settled s; awaiting := v;
     timers := timers s; fired := fired s; closing := closing s;
     sent := sent s; console := console s; delivered := delivered s |}.

Definition set_timers (v : list Z) (s : state) : state :=
  {| url_accepted := url_accepted s; options_ := options_ s; ws := ws s;
     reconnectAttempts := reconnectAttempts s;
     subscriptions := subscriptions s; isConnected := isConnected s;
     connectionPromise := connectionPromise s;
     messageHandlers := messageHandlers s; lastMessageId := lastMessageId s;
     next_id := next_id s; settled := settled s; awaiting := awaiting s;
     timers := v; fired := fired s; closing := closing s; sent := sent s;
     console := console s; delivered := delivered s |}.

Definition set_fired (v : nat) (s : state) : state :=
  {| url_accepted := url_accepted s; options_ := options_ s; ws := ws s;
     reconnectAttempts := reconnectAttempts s;
     subscriptions := subscriptions s; isConnected := isConnected s;
     connectionPromise := connectionPromise s;
     messageHandlers := messageHandlers s; lastMessageId := lastMessageId s;
     next_id := next_id s; settled := settled s; awaiting := awaiting s;
     timers := timers s; fired := v; closing := closing s; sent := sent s;
     console := console s; delivered := delivered s |}.

Definition set_closing (v : list nat) (s : state) : state :=
  {| url_accepted := url_accepted s; options_ := options_ s; ws := ws s;
     reconnectAttempts := reconnectAttempts s;
     subscriptions := subscriptions s; isConnected := isConnected s;
     connectionPromise := connectionPromise s;
     messageHandlers := messageHandlers s; lastMessageId := lastMessageId s;
     next_id := next_id s; settled := settled s; awaiting := awaiting s;
     timers := timers s; fired := fired s; closing := v; sent := sent s;
     console := console s; delivered := delivered s |}.

Definition set_sent (v : list (nat * jsval)) (s : state) : state :=
  {| url_accepted := url_accepted s; options_ := options_ s; ws := ws s;
     reconnectAttempts := reconnectAttempts s;
     subscriptions := subscriptions s; isConnected := isConnected s;
     connectionPromise := connectionPromise s;
     messageHandlers := messageHandlers s; lastMessageId := lastMessageId s;
     next_id := next_id s; settled := settled s; awaiting := awaiting s;
     timers := timers s; fired := fired s; closing := closing s; sent := v;
     console := console s; delivered := delivered s |}.

Definition set_console (v : list string) (s : state) : state :=
  {| url_accepted := url_accepted s; options_ := options_ s; ws := ws s;
     reconnectAttempts := reconnectAttempts s;
     subscriptions := subscriptions s; isConnected := isConnected s;
     connectionPromise := connectionPromise s;
     messageHandlers := messageHandlers s; lastMessageId := lastMessageId s;
     next_id := next_id s; settled := settled s; awaiting := awaiting s;
     timers := timers s; fired := fired s; closing := closing s;
     sent := sent s; console := v; delivered := delivered s |}.

Definition set_delivered (v : list (nat * jsval)) (s : state) : state :=
  {| url_accepted := url_accepted s; options_ := options_ s; ws := ws s;
     reconnectAttempts := reconnectAttempts s;
     subscriptions := subscriptions s; isConnected := isConnected s;
     connectionPromise := connectionPromise s;
     messageHandlers := messageHandlers s; lastMessageId := lastMessageId s;
     next_id := next_id s; settled := settled s; awaiting := awaiting s;
     timers := timers s; fired := fired s; closing := closing s;
     sent := sent s; console := console s; delivered := v |}.

Definition log (line : string) (s : state) : state :=
  set_console (console s ++ [line]) s.

(** ** Promises made by [connect] *)

Fixpoint promise_state (l : list (nat * bool)) (k : nat) : option bool :=
  match l with
  | [] => None
  | (k', b) :: rest => if Nat.eqb k' k then Some b else promise_state rest k
  end.

Definition waiting_on (k : nat) (w : nat * (string * jsval)) : bool :=
  Nat.eqb (fst w) k.

(** Settling promise [k]: a promise settles once; the calls suspended on it
    leave [awaiting] and are returned in the order in which they suspended. *)
Definition settle (k : nat) (ok : bool) (s : state)
  : list (string * jsval) * state :=
  match promise_state (settled s) k with
  | Some _ => ([], s)
  | None =>
      (map snd (filter (waiting_on k) (awaiting s)),
       set_awaiting (filter (fun w => negb (waiting_on k w)) (awaiting s))
         (set_settled ((k, ok) :: settled s) s))
  end.

(** What [connect()] returns: [Promise.resolve()], or the promise of the
    connection attempt numbered [k]. *)
Inductive awaited : Type :=
| Ready
| Promised (k : nat).

(** ** [connect] *)
Definition connect (s : state) : state * awaited :=
  if isConnected s then (s, Ready)
  else
    match connectionPromise s with
    | Some k => (s, Promised k)
    | None =>
        let k := next_id s in
        let s1 := set_next_id (S k) s in
        if url_accepted s1
        then
          (* this.ws = new WebSocket(this.url); the four handlers are set *)
          (set_connectionPromise (Some k) (set_ws (Some k) s1), Promised k)
        else
          (* the constructor throws: the catch logs, clears the field and
             rejects; the assignment of the new promise then overwrites the
             field *)
          let s2 := log "Error setting up WebSocket" s1 in
          let s3 := set_connectionPromise None s2 in
          let s4 := snd (settle k false s3) in
          (set_connectionPromise (Some k) s4, Promised k)
    end.

(** [this.ws.send(JSON.stringify(msg))]; the frame is recorded as the object
    that is serialised.  Without a socket the read of [send] throws. *)
Definition ws_send (msg : jsval) (s : state) : completion state :=
  match ws s with
  | Some k => Normal (set_sent (sent s ++ [(k, msg)]) s)
  | None => Throw "TypeError"
  end.

Definition default_params : jsval :=
  JObj [("encoding"%string, JStr "jsonParsed");
        ("commitment"%string, JStr "confirmed")].

Definition request (id : Z) (method : string) (args : list jsval) : jsval :=
  JObj [("jsonrpc"%string, JStr "2.0");
        ("id"%string, JNum id);
        ("method"%string, JStr method);
        ("params"%string, JArr args)].

(** ** [subscribe]

    [subscribe_resume] is the part of [subscribe] after
    [await this.connect()]; it runs as one microtask.  When [send] throws,
    the call rejects with the registry already written. *)
Definition subscribe_resume (address : string) (p : jsval) (s : state)
  : state :=
  let id := lastMessageId s + 1 in
  let s1 := set_lastMessageId id s in
  let subscribeMsg :=
    request id "accountSubscribe" [JStr address; p] in
  let s2 :=
    set_subscriptions
      (map_set (subscriptions s1) address
               {| params := p; pendingId := JNum id; sub_id := JNull |}) s1 in
  match ws_send subscribeMsg s2 with
  | Normal s3 => s3
  | Throw _ => s2
  end.

Definition subscribe (address : string) (p : jsval) (s : state) : state :=
  let p := match p with JUndefined => default_params | _ => p end in
  let (s1, aw) := connect s in
  match aw with
  | Ready => subscribe_resume address p s1
  | Promised k =>
      match promise_state (settled s1) k with
      | Some true => subscribe_resume address p s1
      | Some false => s1
      | None => set_awaiting (awaiting s1 ++ [(k, (address, p))]) s1
      end
  end.

(** The test made every 100 ms by the promise [subscribe] returns: [Some id]
    when it resolves with [id]. *)
Definition checkSubscription (address : string) (s : state) : option jsval :=
  match map_get (subscriptions s) address with
  | Some e => if truthy (sub_id e) then Some (sub_id e) else None
  | None => None
  end.

(** ** [unsubscribe] *)
Definition unsubscribe (address : string) (s : state) : state :=
  if negb (isConnected s) || negb (map_has (subscriptions s) address)
  then s
  else
    match map_get (subscriptions s) address with
    | None => s
    | Some e =>
        if negb (truthy (sub_id e)) then s
        else
          let id := lastMessageId s + 1 in
          let s1 := set_lastMessageId id s in
          let unsubscribeMsg :=
            request id "accountUnsubscribe" [sub_id e] in
          match ws_send unsubscribeMsg s1 with
          | Normal s2 =>
              set_subscriptions (map_delete (subscriptions s2) address) s2
          | Throw _ => s1
          end
    end.

(** ** [onMessage] and the function it returns *)
Definition onMessage (h : nat) (s : state) : state :=
  set_messageHandlers (messageHandlers s ++ [h]) s.

(** [indexOf] then [splice(index, 1)]: the first occurrence goes. *)
Fixpoint remove_first (h : nat) (l : list nat) : list nat :=
  match l with
  | [] => []
  | x :: rest => if Nat.eqb x h then rest else x :: remove_first h rest
  end.

Definition remove_handler (h : nat) (s : state) : state :=
  set_messageHandlers (remove_first h (messageHandlers s)) s.

(** ** [disconnect] *)
Definition disconnect (s : state) : state :=
  match ws s with
  | Some k =>
      set_subscriptions []
        (set_connectionPromise None
           (set_isConnected false (set_closing (closing s ++ [k]) s)))
  | None => s
  end.

Definition getStatus (s : state) : bool := isConnected s.

(** ** The socket handlers installed by [connect] *)

(** [ws.onopen] of connection attempt [k].  [resolve()] queues the suspended
    [subscribe] calls; the [forEach] then calls [subscribe(address, params)]
    for every entry, where the first argument of the callback is the entry
    itself; each of these calls finds [isConnected] set and suspends on
    [Promise.resolve()].  The queued continuations then run in that order. *)
Definition onopen (k : nat) (s : state) : state :=
  let s1 := log "WebSocket connection established" s in
  let s2 := set_reconnectAttempts 0 (set_isConnected true s1) in
  let (woken, s3) := settle k true s2 in
  let resubscribed :=
    map (fun ae => (fst ae, sub_object (snd ae))) (subscriptions s3) in
  fold_left (fun st ap => subscribe_resume (fst ap) (snd ap) st)
            (woken ++ resubscribed) s3.

(** [ws.onerror]. *)
Definition onerror (k : nat) (s : state) : state :=
  let s1 := log "WebSocket error" s in
  if negb (isConnected s1) then snd (settle k false s1) else s1.

(** [ws.onclose]. *)
Definition onclose (s : state) : state :=
  let s1 := log "WebSocket connection closed" s in
  let s2 := set_connectionPromise None (set_isConnected false s1) in
  if reconnectAttempts s2 <? maxReconnectAttempts (options_ s2)
  then
    let s3 := set_reconnectAttempts (reconnectAttempts s2 + 1) s2 in
    let s4 := log "Reconnecting..." s3 in
    set_timers (timers s4 ++ [reconnectInterval (options_ s4)]) s4
  else log "Max reconnection attempts reached" s2.

(** A reconnection timer runs: [this.connect()]. *)
Definition timer_fires (s : state) : state :=
  if (fired s <? List.length (timers s))%nat
  then fst (connect (set_fired (S (fired s)) s))
  else s.

(** The confirmation step of [ws.onmessage]: the first entry, in registry
    order, whose [pendingId] is [message.id] gets [id = message.result] and
    [pendingId = null]. *)
Fixpoint confirm_first (mid res : jsval) (m : registry) : registry :=
  match m with
  | [] => []
  | (a, e) :: rest =>
      if strict_eq (pendingId e) mid
      then (a, {| params := params e; pendingId := JNull; sub_id := res |})
             :: rest
      else (a, e) :: confirm_first mid res rest
  end.

Definition prop (v : jsval) (k : string) : completion jsval :=
  match get_prop v k with
  | Some x => Normal x
  | None => Throw "TypeError"
  end.

(** [if (message.id && message.result) { ... }] *)
Definition correlate (message : jsval) (s : state) : completion state :=
  mid <- prop message "id" ;;
  if truthy mid
  then
    res <- prop message "result" ;;
    if truthy res
    then Normal (set_subscriptions
                   (confirm_first mid res (subscriptions s)) s)
    else Normal s
  else Normal s.

(** What a handler does to the manager while it runs: it may register
    handlers and call removers. *)
Inductive hcall : Type :=
| HRegister (h : nat)
| HRemove (h : nat).

Definition apply_hcall (s : state) (c : hcall) : state :=
  match c with
  | HRegister h => onMessage h s
  | HRemove h => remove_handler h s
  end.

Section Handlers.

(** The registered functions, by number.  [handler_body h n message] is
    what handler [h] does when it is called with [message] after [n]
    earlier handler invocations: the calls it makes on the handler list, and
    whether it ends by throwing. *)
Variable handler_body : nat -> nat -> jsval -> list hcall * bool.

(** One turn of the [forEach] callback: [try { handler(message) }
    catch (handlerError) { console.error(...) }]. *)
Definition call_handler (h : nat) (message : jsval) (s : state) : state :=
  let (calls, throws) :=
    handler_body h (List.length (delivered s)) message in
  let s1 := set_delivered (delivered s ++ [(h, message)]) s in
  let s2 := fold_left apply_hcall calls s1 in
  if throws then log "Error in message handler" s2 else s2.

(** [Array.prototype.forEach]: the length is read once; index [k] is
    visited when the array, as it then is, still has it. *)
Fixpoint forEach_from (n k : nat) (message : jsval) (s : state) : state :=
  match n with
  | O => s
  | S n' =>
      let s' :=
        match nth_error (messageHandlers s) k with
        | Some h => call_handler h message s
        | None => s
        end in
      forEach_from n' (S k) message s'
  end.

Definition dispatch (message : jsval) (s : state) : state :=
  forEach_from (List.length (messageHandlers s)) 0 message s.

(** [ws.onmessage].  [data] is [None] when [JSON.parse(event.data)]
    throws.  The only read that can throw after the parse is [message.id],
    before anything is changed. *)
Definition onmessage_try (message : jsval) (s : state) : completion state :=
  s1 <- correlate message s ;;
  Normal (dispatch message s1).

Definition onmessage (data : option jsval) (s : state) : state :=
  match data with
  | None => log "Error parsing WebSocket message" s
  | Some message =>
      match onmessage_try message s with
      | Normal s' => s'
      | Throw _ => log "Error parsing WebSocket message" s
      end
  end.

(** ** Events *)
Inductive event : Type :=
| CallConnect
| CallSubscribe (address : string) (p : jsval)
| CallUnsubscribe (address : string)
| CallOnMessage (h : nat)
| CallRemove (h : nat)
| CallDisconnect
| SockOpen (k : nat)
| SockMessage (data : option jsval)
| SockError (k : nat)
| SockClose
| TimerFires.

Definition step (s : state) (e : event) : state :=
  match e with
  | CallConnect => fst (connect s)
  | CallSubscribe a p => subscribe a p s
  | CallUnsubscribe a => unsubscribe a s
  | CallOnMessage h => onMessage h s
  | CallRemove h => remove_handler h s
  | CallDisconnect => disconnect s
  | SockOpen k => onopen k s
  | SockMessage data => onmessage data s
  | SockError k => onerror k s
  | SockClose => onclose s
  | TimerFires => timer_fires s
  end.

Definition run (s : state) (es : list event) : state := fold_left step es s.

End Handlers.

(** ** Predicates used in the statements *)

(** A message on which the confirmation step is skipped: [message.id] or
    [message.result] is falsy. *)
Definition falsy_ack (message : jsval) : bool :=
  match get_prop message "id", get_prop message "result" with
  | Some mid, Some res => negb (truthy mid) || negb (truthy res)
  | _, _ => false
  end.

(** The registry with request ids up to [last] issued ([last] counts up from
    0): an address occurs once; a pending id is an issued request id and is
    held by one entry; a confirmed id is [null] or truthy. *)
Record registry_ok (last : Z) (m : registry) : Prop := {
  ok_last : 0 <= last;
  ok_keys : NoDup (map fst m);
  ok_issued : forall a e n,
    In (a, e) m -> pendingId e = JNum n -> n <= last;
  ok_pending : forall a1 e1 a2 e2 n,
    In (a1, e1) m -> In (a2, e2) m ->
    pendingId e1 = JNum n -> pendingId e2 = JNum n -> a1 = a2;
  ok_confirmed : forall a e,
    In (a, e) m -> sub_id e = JNull \/ truthy (sub_id e) = true
}.

Definition wf (s : state) : Prop :=
  registry_ok (lastMessageId s) (subscriptions s)
  /\ (isConnected s = true -> exists k, ws s = Some k).

(** Events that can occur in a state: a socket event needs a socket, a timer
    can run once it has been set. *)
Definition possible (s : state) (e : event) : bool :=
  match e with
  | SockOpen _ | SockMessage _ | SockError _ | SockClose =>
      match ws s with Some _ => true | None => false end
  | TimerFires => (fired s <? List.length (timers s))%nat
  | _ => true
  end.

Fixpoint all_possible (hb : nat -> nat -> jsval -> list hcall * bool)
         (s : state) (es : list event) : bool :=
  match es with
  | [] => true
  | e :: rest => possible s e && all_possible hb (step hb s e) rest
  end.

(** The states of a manager from its construction on. *)
Definition reachable (hb : nat -> nat -> jsval -> list hcall * bool)
           (s : state) : Prop :=
  exists url_ok given_interval given_max es,
    all_possible hb (new_manager url_ok given_interval given_max) es = true
    /\ s = run hb (new_manager url_ok given_interval given_max) es.

(** What the handlers of a dispatch cannot touch: every field but the handler
    list, the console and the record of handler invocations. *)
Definition core (s : state) :=
  (url_accepted s, options_ s, ws s, reconnectAttempts s, subscriptions s,
   isConnected s, connectionPromise s, lastMessageId s,
   (next_id s, settled s, awaiting s, timers s, fired s, closing s, sent s)).

(** The frames handed to socket [k]. *)
Definition sent_on (k : nat) (s : state) : list jsval :=
  map snd (filter (fun f => Nat.eqb (fst f) k) (sent s)).


(** Handlers that neither register nor remove, the first of which throws. *)
Definition quiet_handlers (h n : nat) (message : jsval) : list hcall * bool :=
  ([], Nat.eqb h 0).


(** What the reconnection policy reads and writes. *)
Definition policy (s : state) : options * Z * list Z :=
  (options_ s, reconnectAttempts s, timers s).

(** Whether an event is the opening of a socket. *)
Definition is_open (e : event) : bool :=
  match e with
  | SockOpen _ => true
  | _ => false
  end.

(** The requests [subscribe] sends on socket [j] for the calls in [l], the
    first with request id [id]. *)
Fixpoint requests_from (j : nat) (id : Z) (l : list (string * jsval))
  : list (nat * jsval) :=
  match l with
  | [] => []
  | (a, p) :: rest =>
      (j, request id "accountSubscribe" [JStr a; p])
        :: requests_from j (id + 1) rest
  end.

(** ** Sample runs *)

Definition ack (id result : Z) : event :=
  SockMessage (Some (JObj [("id"%string, JNum id);
                           ("result"%string, JNum result)])).


(** A manager with default options: [subscribe("A")] and
    [subscribe("B", "pb")], both acknowledged (777 and 888), then
    [unsubscribe("B")]. *)
Definition subscribed : state :=
  run quiet_handlers (new_manager true None None)
      [CallSubscribe "A" JUndefined; SockOpen 0; ack 1 777;
       CallSubscribe "B" (JStr "pb"); ack 2 888; CallUnsubscribe "B"].

(** ... then the connection closes, the timer runs and the new socket
    opens. *)
Definition reconnected : state :=
  run quiet_handlers subscribed [SockClose; TimerFires; SockOpen 1].


End WebSocketManager.

(* ================================================================== *)
(** * App: the update throttle *)
(* ================================================================== *)

Module App.

Definition MAX_HISTORY_POINTS : nat := 100.
Definition UPDATE_LIMIT_MS : Z := 50.

Section Throttle.

(** The parsed reading handed over by [PriceDataParser.parseData]. *)
Variable reading : Type.

(** The refs and state of the component that the throttle touches.
    [pendingUpdate] is the live timeout held in [pendingUpdateRef], with the
    time at which it is due and the reading its callback captured; a timer
    id is a positive number, so the test [if (pendingUpdateRef.current)]
    succeeds whenever a timeout was set, and clearing one that has run does
    nothing.  [deliveries] lists the calls of [updatePrice] with their
    time. *)
Record throttle : Type := {
  lastUpdateTime : Z;
  pendingUpdate : option (Z * reading);
  priceData : option reading;
  priceHistory : list reading;
  updateCounter : Z;
  updateCount : Z;
  deliveries : list (Z * reading)
}.

(** State at mount; [now] is the [Date.now()] of [useRef(Date.now())]. *)
Definition mount (now : Z) : throttle :=
  {| lastUpdateTime := now;
     pendingUpdate := None;
     priceData := None;
     priceHistory := [];
     updateCounter := 0;
     updateCount := 0;
     deliveries := [] |}.

(** [newHistory.slice(-MAX_HISTORY_POINTS)] *)
Definition slice_last (n : nat) (l : list reading) : list reading :=
  skipn (List.length l - n) l.

(** [updatePrice(parsedData)], run at time [now]. *)
Definition updatePrice (now : Z) (parsedData : reading) (s : throttle)
  : throttle :=
  let newHistory := priceHistory s ++ [parsedData] in
  {| lastUpdateTime := now;
     pendingUpdate := pendingUpdate s;
     priceData := Some parsedData;
     priceHistory :=
       if (MAX_HISTORY_POINTS <? List.length newHistory)%nat
       then slice_last MAX_HISTORY_POINTS newHistory
       else newHistory;
     updateCounter := updateCounter s + 1;
     updateCount := updateCount s + 1;
     deliveries := deliveries s ++ [(now, parsedData)] |}.

Definition set_pendingUpdate (p : option (Z * reading)) (s : throttle)
  : throttle :=
  {| lastUpdateTime := lastUpdateTime s;
     pendingUpdate := p;
     priceData := priceData s;
     priceHistory := priceHistory s;
     updateCounter := updateCounter s;
     updateCount := updateCount s;
     deliveries := deliveries s |}.

(** [handlePriceUpdate], from the point where [parsedData] is known to be
    a reading; [now] is its [Date.now()]. *)
Definition handlePriceUpdate (now : Z) (parsedData : reading) (s : throttle)
  : throttle :=
  let timeSinceLastUpdate := now - lastUpdateTime s in
  (* clearTimeout(pendingUpdateRef.current) *)
  let s1 := set_pendingUpdate None s in
  if timeSinceLastUpdate <? UPDATE_LIMIT_MS
  then set_pendingUpdate
         (Some (now + (UPDATE_LIMIT_MS - timeSinceLastUpdate), parsedData))
         s1
  else updatePrice now parsedData s1.

(** The timeout runs, at the time it is due. *)
Definition timeout_runs (s : throttle) : throttle :=
  match pendingUpdate s with
  | Some (due, parsedData) =>
      updatePrice due parsedData (set_pendingUpdate None s)
  | None => s
  end.

(** The timeline: before a reading that arrives at [t] is handled, a
    timeout due by [t] has run. *)
Definition advance (t : Z) (s : throttle) : throttle :=
  match pendingUpdate s with
  | Some (due, _) => if due <=? t then timeout_runs s else s
  | None => s
  end.

Fixpoint arrive (arrivals : list (Z * reading)) (s : throttle) : throttle :=
  match arrivals with
  | [] => s
  | (t, r) :: rest => arrive rest (handlePriceUpdate t r (advance t s))
  end.

(** All the deliveries a sequence of arrivals leads to, the last timeout
    included. *)
Definition deliveries_of (start : Z) (arrivals : list (Z * reading))
  : list (Z * reading) :=
  deliveries (timeout_runs (arrive arrivals (mount start))).

(** Deliveries from [start] on, each at least the limit after the one
    before (after [start] for the first); [last] is the time of the last
    one. *)
Inductive spaced (start : Z) : Z -> list (Z * reading) -> Prop :=
| spaced_none : spaced start start []
| spaced_more (last t : Z) (r : reading) (l : list (Z * reading)) :
    spaced start last l ->
    last + UPDATE_LIMIT_MS <= t ->
    spaced start t (l ++ [(t, r)]).

End Throttle.

End App.

(* ================================================================== *)
(** * The rest of the application code, and views used in statements *)
(* ================================================================== *)

Module ManagerViews.
Import WebSocketManager.

(** The [id] field of a frame. *)
Definition frame_id (f : jsval) : Z :=
  match get_prop f "id" with
  | Some (JNum n) => n
  | _ => 0
  end.

(** The request ids of the frames handed to [send], oldest first. *)
Definition sent_ids (s : state) : list Z :=
  map (fun f => frame_id (snd f)) (sent s).

(** Each number above the one before, the first above [lo]. *)
Fixpoint increasing (lo : Z) (l : list Z) : Prop :=
  match l with
  | [] => True
  | x :: rest => lo < x /\ increasing x rest
  end.

(** An entry that awaits its acknowledgment, and an acknowledged one. *)
Definition is_pending (last : Z) (e : sub) : Prop :=
  exists n, 1 <= n <= last /\ pendingId e = JNum n /\ sub_id e = JNull.

Definition is_confirmed (e : sub) : Prop :=
  pendingId e = JNull /\ truthy (sub_id e) = true.

(** The retries left before the close handler gives up. *)
Definition retry_budget (s : state) : Z :=
  Z.max 0 (maxReconnectAttempts (options_ s) - reconnectAttempts s).

(** The number of closures in a sequence of events. *)
Fixpoint closures (es : list event) : Z :=
  match es with
  | [] => 0
  | SockClose :: rest => 1 + closures rest
  | _ :: rest => closures rest
  end.

(** Request ids on the wire go up and stay within the counter; every entry
    is pending or confirmed. *)
Definition sound (s : state) : Prop :=
  0 <= lastMessageId s
  /\ increasing 0 (sent_ids s)
  /\ Forall (fun y => y <= lastMessageId s) (sent_ids s)
  /\ (forall a e, In (a, e) (subscriptions s) ->
                  is_pending (lastMessageId s) e \/ is_confirmed e).

(** A manager none of whose connection attempts got a socket. *)
Definition socketless (s : state) : Prop :=
  url_accepted s = false
  /\ ws s = None /\ isConnected s = false
  /\ subscriptions s = [] /\ sent s = [] /\ awaiting s = []
  /\ timers s = [] /\ lastMessageId s = 0
  /\ (forall k b, promise_state (settled s) k = Some b -> b = false)
  /\ (forall k, connectionPromise s = Some k ->
                promise_state (settled s) k = Some false).

(** The registry after every entry was subscribed again in turn, the first
    with request id [id]: the old entry sits in the [params] field. *)
Fixpoint renumbered (id : Z) (m : registry) : registry :=
  match m with
  | [] => []
  | (a, e) :: rest =>
      (a, {| params := sub_object e; pendingId := JNum id; sub_id := JNull |})
        :: renumbered (id + 1) rest
  end.

(** The numbers of sockets and promises are handed out in order: a
    suspended [subscribe] waits on a promise that was made, the connection
    promise is one that was made, and a socket exists only if the URL was
    accepted. *)
Definition fresh (s : state) : Prop :=
  (forall w, In w (awaiting s) -> (fst w < next_id s)%nat)
  /\ (forall k, connectionPromise s = Some k -> (k < next_id s)%nat)
  /\ (forall k, ws s = Some k -> url_accepted s = true).

End ManagerViews.

Module AppFeeds.
Import WebSocketManager.

Record feed : Type := {
  name : string;
  address : string;
  category : string
}.

Definition PRICE_FEEDS : list feed :=
  [ {| name := "SOL/USD";
       address := "ENYwebBThHzmzwPLAQvCucUTsjyfBSZdD9ViXksS4jPu";
       category := "Pyth Lazer" |};
    {| name := "BTC/USD";
       address := "71wtTRDY8Gxgw56bXFt2oc6qeAbTxzStdNiC425Z51sr";
       category := "Pyth Lazer" |};
    {| name := "ETH/USD";
       address := "5vaYr1hpv8yrSpu8w3K95x22byYxUJCCNCSYJtqVWPvG";
       category := "Pyth Lazer" |};
    {| name := "USDC/USD";
       address := "Ekug3x6hs37Mf4XKCDptvRVCSCjJCAD7LKmKQXBAa541";
       category := "Pyth Lazer" |};
    {| name := "Custom Feed";
       address := "7AxV2515SwLFVxWSpCngQ3TNqY17JERwcCfULc464u7D";
       category := "Custom" |} ].

(** [PRICE_FEEDS.forEach(feed => { if (feed.address !==
    selectedFeed.address) unsubscribe(feed.address) })]; [unsubscribe] has no
    [await] and runs to its end inside the call. *)
Definition unsubscribe_others (selected : string) (feeds : list feed)
           (s : state) : state :=
  fold_left
    (fun st f =>
       if negb (String.eqb (address f) selected)
       then unsubscribe (address f) st
       else st)
    feeds s.

(** [connectAndSubscribe] of [App], from the point where
    [await connect()] has returned on a connected manager up to the call of
    [subscribe]: the other feeds are unsubscribed, the selected one is
    subscribed with the default parameters. *)
Definition connectAndSubscribe (selectedFeed : feed) (s : state) : state :=
  subscribe (address selectedFeed) JUndefined
            (unsubscribe_others (address selectedFeed) PRICE_FEEDS s).

(** [handleReconnect] of [App], from the click to the end of the [then]
    callback, on the timeline where the close event of the old socket comes
    before the 500 ms timer and the socket made by the timer's [connect()]
    opens: [disconnect()], the close handler, [connect()], the open handler
    of the new socket (its number is the [next_id] at the call of
    [connect]), and the [subscribe] of the callback. *)
Definition handleReconnect (selectedFeed : option feed) (s : state) : state :=
  let s1 := disconnect s in
  let s2 := onclose s1 in
  let k := next_id s2 in
  let s3 := fst (connect s2) in
  let s4 := onopen k s3 in
  match selectedFeed with
  | Some f => subscribe (address f) JUndefined s4
  | None => s4
  end.

End AppFeeds.

Module AppHandler.
Import WebSocketManager PriceDataParser App.

Section Handler.

Variable Buffer_from_base64 : jsval -> completion buffer.
Variable float : Type.
Variable float_of_Z : Z -> float.
Variable Math_pow10 : Z -> float.
Variable float_mul : float -> float -> float.

(** [message.params.result.value.data]; a read on [null] or [undefined]
    throws, and a read of one of these keys on a value that is not an object
    (a number, a string, an array) gives [undefined]. *)
Definition notification_data (message : jsval) : completion jsval :=
  params_ <- prop message "params" ;;
  result <- prop params_ "result" ;;
  value <- prop result "value" ;;
  prop value "data".

(** [handlePriceUpdate(message)], whole.  [parsed_at] is the [Date.now()]
    read inside [parseData], [now] the one read by the handler. *)
Definition handlePriceUpdate_message (parsed_at now : Z) (message : jsval)
           (s : throttle (reading float))
  : completion (throttle (reading float)) :=
  method <- prop message "method" ;;
  if strict_eq method (JStr "accountNotification")
  then
    data <- notification_data message ;;
    match parseData Buffer_from_base64 float float_of_Z Math_pow10 float_mul
                    data parsed_at with
    | Some parsedData =>
        Normal (handlePriceUpdate (reading float) now parsedData s)
    | None => Normal s
    end
  else Normal s.

End Handler.

(** One list inside another, order kept. *)
Inductive subseq {A : Type} : list A -> list A -> Prop :=
| subseq_nil : subseq [] []
| subseq_skip (x : A) (l1 l2 : list A) :
    subseq l1 l2 -> subseq l1 (x :: l2)
| subseq_take (x : A) (l1 l2 : list A) :
    subseq l1 l2 -> subseq (x :: l1) (x :: l2).

End AppHandler.

Module AppViews.
Import WebSocketManager App AppFeeds.

Section Throttle.

Variable reading : Type.

(** The reading held by the live timeout, if there is one. *)
Definition pending_list (s : throttle reading) : list reading :=
  match pendingUpdate reading s with
  | Some (_, r) => [r]
  | None => []
  end.

(** [s'] is [s] after the deliveries [new]: the history is the last
    [MAX_HISTORY_POINTS] readings of the old history followed by the
    delivered ones, the counter went up by one for each, and the displayed
    reading is the one delivered last. *)
Definition grown (s s' : throttle reading) (new : list (Z * reading)) : Prop :=
  deliveries reading s' = deliveries reading s ++ new
  /\ priceHistory reading s'
     = slice_last reading MAX_HISTORY_POINTS
         (priceHistory reading s ++ map snd new)
  /\ updateCount reading s' = updateCount reading s + Z.of_nat (List.length new)
  /\ priceData reading s'
     = match rev new with
       | [] => priceData reading s
       | x :: _ => Some (snd x)
       end.

(** Whether a delivery falls into the window of length [w] that starts at
    [a]. *)
Definition in_window (a w : Z) (d : Z * reading) : bool :=
  (a <=? fst d) && (fst d <? a + w).

End Throttle.

(** The confirmed id the registry holds for an address, if it holds one. *)
Definition confirmed_id (m : registry) (a : string) : list jsval :=
  match map_get m a with
  | Some e => if truthy (sub_id e) then [sub_id e] else []
  | None => []
  end.

(** The addresses a feed switch unsubscribes: those of the feeds other than
    the selected one for which the registry holds a confirmed id. *)
Definition dropped (selected : string) (feeds : list feed) (m : registry)
           (b : string) : bool :=
  existsb (fun f => String.eqb (address f) b) feeds
  && negb (String.eqb b selected)
  && match confirmed_id m b with [] => false | _ => true end.

(** The confirmed ids of the feeds other than the selected one, in the order
    of the feeds. *)
Definition ids_to_drop (selected : string) (feeds : list feed) (m : registry)
  : list jsval :=
  flat_map (fun f => if String.eqb (address f) selected then []
                     else confirmed_id m (address f))
           feeds.

(** One [accountUnsubscribe] request on socket [j] for each id, the first
    with request id [id]. *)
Fixpoint unsubscribe_requests (j : nat) (id : Z) (l : list jsval)
  : list (nat * jsval) :=
  match l with
  | [] => []
  | x :: rest =>
      (j, request id "accountUnsubscribe" [x])
        :: unsubscribe_requests j (id + 1) rest
  end.

End AppViews.

Module ParserViews.
Import PriceDataParser.

(** The unsigned number the eight bytes at [offset] spell, least significant
    first, and the reading of such a number in two's complement. *)
Definition le_uint64 (buf : buffer) (offset : nat) : Z :=
  fold_right (fun i acc => byte_at buf (offset + i) + 256 * acc) 0 (seq 0 8).

Definition to_int64 (u : Z) : Z := if u <? 2 ^ 63 then u else u - 2 ^ 64.

End ParserViews.

(* ================================================================== *)
(** * Properties of the decoder *)
(* ================================================================== *)

Module ParserFacts.
Import PriceDataParser.

Lemma byte_of_Z_value (z : Z) :
  Z.of_N (Byte.to_N (byte_of_Z z)) = z mod 256.
Proof.
  unfold byte_of_Z.
  assert (Hr : 0 <= z mod 256 < 256) by (apply Z.mod_pos_bound; lia).
  destruct (Byte.of_N (Z.to_N (z mod 256))) as [b|] eqn:E.
  - apply Byte.to_of_N in E. rewrite E. lia.
  - apply Byte.of_N_None_iff in E. lia.
Qed.

Lemma le_bytes_length (n : nat) (z : Z) : List.length (le_bytes n z) = n.
Proof.
  revert z; induction n as [|n IH]; intros z; simpl; [reflexivity|].
  now rewrite IH.
Qed.

Lemma le_bytes_split (n m : nat) (z : Z) :
  le_bytes (n + m) z = le_bytes n z ++ le_bytes m (z / 256 ^ Z.of_nat n).
Proof.
  revert z; induction n as [|n IH]; intros z.
  - simpl. now rewrite Z.div_1_r.
  - cbn [Nat.add le_bytes app]. rewrite IH. do 2 f_equal.
    rewrite Nat2Z.inj_succ, Z.pow_succ_r by lia.
    rewrite Z.div_div by lia. reflexivity.
Qed.

Lemma byte_at_app (pre l : buffer) (i : nat) :
  byte_at (pre ++ l) (List.length pre + i) = byte_at l i.
Proof.
  unfold byte_at. rewrite app_nth2 by lia.
  replace (List.length pre + i - List.length pre)%nat with i by lia.
  reflexivity.
Qed.

(** A four byte little-endian field is read back modulo [2^32]. *)
Lemma readUInt32LE_field (pre post : buffer) (z : Z) (offset : nat) :
  List.length pre = offset ->
  readUInt32LE (pre ++ le_bytes 4 z ++ post) offset = Normal (z mod 2 ^ 32).
Proof.
  intros <-. unfold readUInt32LE.
  assert (Hlen : (List.length pre + 4
                  <=? List.length (pre ++ le_bytes 4 z ++ post))%nat = true).
  { apply Nat.leb_le. rewrite !length_app, le_bytes_length. lia. }
  rewrite Hlen. f_equal.
  replace (byte_at (pre ++ le_bytes 4 z ++ post) (List.length pre))
    with (byte_at (pre ++ le_bytes 4 z ++ post) (List.length pre + 0))
    by (f_equal; lia).
  rewrite !byte_at_app. unfold byte_at. cbn [le_bytes app nth].
  rewrite !byte_of_Z_value.
  pose proof (Z.div_mod z 256 ltac:(lia)) as E0.
  pose proof (Z.div_mod (z / 256) 256 ltac:(lia)) as E1.
  pose proof (Z.div_mod (z / 256 / 256) 256 ltac:(lia)) as E2.
  pose proof (Z.div_mod (z / 256 / 256 / 256) 256 ltac:(lia)) as E3.
  pose proof (Z.mod_pos_bound z 256 ltac:(lia)) as B0.
  pose proof (Z.mod_pos_bound (z / 256) 256 ltac:(lia)) as B1.
  pose proof (Z.mod_pos_bound (z / 256 / 256) 256 ltac:(lia)) as B2.
  pose proof (Z.mod_pos_bound (z / 256 / 256 / 256) 256 ltac:(lia)) as B3.
  change (2 ^ 8) with 256. change (2 ^ 16) with 65536.
  change (2 ^ 24) with 16777216. change (2 ^ 32) with 4294967296.
  apply Z.mod_unique_pos with (q := z / 256 / 256 / 256 / 256); lia.
Qed.

Lemma to_int32_wrap (x : Z) :
  - 2 ^ 31 <= x < 2 ^ 31 -> to_int32 (x mod 2 ^ 32) = x.
Proof.
  intros Hx. unfold to_int32.
  change (2 ^ 31) with 2147483648 in *.
  change (2 ^ 32) with 4294967296 in *.
  destruct (Z_lt_le_dec x 0) as [Hneg|Hpos].
  - assert (E : x mod 4294967296 = x + 4294967296).
    { symmetry. apply Z.mod_unique_pos with (q := -1); lia. }
    rewrite E. destruct (x + 4294967296 <? 2147483648) eqn:C.
    + apply Z.ltb_lt in C. lia.
    + lia.
  - rewrite Z.mod_small by lia.
    destruct (x <? 2147483648) eqn:C; [reflexivity|].
    apply Z.ltb_ge in C. lia.
Qed.

(** An eight byte two's complement field is rebuilt exactly by
    [high * 2^32 + low]. *)
Lemma readBigInt64LE_field (pre post : buffer) (z : Z) (offset : nat) :
  List.length pre = offset ->
  - 2 ^ 63 <= z < 2 ^ 63 ->
  readBigInt64LE (pre ++ le_bytes 8 z ++ post) offset = Normal z.
Proof.
  intros Hlen Hz. unfold readBigInt64LE, buf_readInt32LE.
  change 8%nat with (4 + 4)%nat. rewrite le_bytes_split.
  change (256 ^ Z.of_nat 4) with (2 ^ 32).
  rewrite <- app_assoc.
  rewrite readUInt32LE_field by exact Hlen. cbn [bind].
  replace (pre ++ le_bytes 4 z ++ le_bytes 4 (z / 2 ^ 32) ++ post)
    with ((pre ++ le_bytes 4 z) ++ le_bytes 4 (z / 2 ^ 32) ++ post)
    by (now rewrite <- app_assoc).
  rewrite readUInt32LE_field
    by (rewrite length_app, le_bytes_length; lia).
  cbn [bind]. f_equal.
  rewrite to_int32_wrap.
  - change 4294967296 with (2 ^ 32).
    pose proof (Z.div_mod z (2 ^ 32) ltac:(lia)). lia.
  - change (2 ^ 63) with (2 ^ 31 * 2 ^ 32) in Hz.
    split.
    + apply Z.div_le_lower_bound; lia.
    + apply Z.div_lt_upper_bound; lia.
Qed.

Lemma readInt32LE_field (pre post : buffer) (z : Z) (offset : nat) :
  List.length pre = offset ->
  - 2 ^ 31 <= z < 2 ^ 31 ->
  readInt32LE (pre ++ le_bytes 4 z ++ post) offset = Normal z.
Proof.
  intros Hlen Hz. unfold readInt32LE, buf_readInt32LE.
  rewrite readUInt32LE_field by exact Hlen. cbn [bind].
  now rewrite to_int32_wrap.
Qed.

(** [Number] is exact up to [2^53] in magnitude. *)
Lemma round_to_53_exact (m : Z) : 0 <= m <= 2 ^ 53 -> round_to_53 m = m.
Proof.
  intros Hm. unfold round_to_53.
  destruct (Z.eq_dec m (2 ^ 53)) as [->|Hne]; [reflexivity|].
  destruct (Z.eq_dec m 0) as [->|Hnz]; [reflexivity|].
  assert (Hlog : Z.log2 m < 53) by (apply Z.log2_lt_pow2; lia).
  destruct (Z.log2 m + 1 <=? 53) eqn:C; [reflexivity|].
  apply Z.leb_gt in C. lia.
Qed.

Lemma Number_of_BigInt_exact (z : Z) :
  Z.abs z <= 2 ^ 53 -> Number_of_BigInt z = z.
Proof.
  intros Hz. unfold Number_of_BigInt.
  rewrite round_to_53_exact by lia.
  destruct z; simpl; lia.
Qed.

End ParserFacts.

Module ParserTheorems.
Import PriceDataParser ParserFacts.

Section Decoder.

Variable Buffer_from_base64 : jsval -> completion buffer.
Variable float : Type.
Variable float_of_Z : Z -> float.
Variable Math_pow10 : Z -> float.
Variable float_mul : float -> float -> float.

Local Abbreviation parse :=
  (parseData Buffer_from_base64 float float_of_Z Math_pow10 float_mul).
Local Abbreviation parse_try :=
  (parseData_try Buffer_from_base64 float float_of_Z Math_pow10 float_mul).

Lemma parse_of_bytes (data payload : jsval) (buf : buffer) (now : Z) :
  truthy data = true ->
  get_prop data "0" = Some payload ->
  truthy payload = true ->
  Buffer_from_base64 payload = Normal buf ->
  parse_try data now =
    (price_ <- readBigInt64LE buf 8 ;;
     confidence_ <- readBigInt64LE buf 16 ;;
     exponent_ <- readInt32LE buf 24 ;;
     Normal (Some {| price := float_mul (float_of_Z (Number_of_BigInt price_))
                                        (Math_pow10 exponent_);
                     confidence :=
                       float_mul (float_of_Z (Number_of_BigInt confidence_))
                                 (Math_pow10 exponent_);
                     exponent := exponent_;
                     rawPrice := Number_of_BigInt price_;
                     rawConfidence := Number_of_BigInt confidence_;
                     timestamp := now;
                     raw := payload |})).
Proof.
  intros Hd H0 Hp Hb. unfold parseData_try.
  rewrite Hd, H0. cbn [negb bind]. rewrite Hp. cbn [negb].
  rewrite Hb. reflexivity.
Qed.

Lemma short_buffer_throws (buf : buffer) :
  (List.length buf < 28)%nat ->
  (price_ <- readBigInt64LE buf 8 ;;
   confidence_ <- readBigInt64LE buf 16 ;;
   exponent_ <- readInt32LE buf 24 ;;
   Normal (price_, confidence_, exponent_)) = Throw "RangeError".
Proof.
  intros Hlen.
  unfold readBigInt64LE, readInt32LE, buf_readInt32LE, readUInt32LE.
  repeat match goal with
         | |- context [(?a <=? ?b)%nat] =>
             destruct (Nat.leb_spec a b); cbn [bind]
         end; try reflexivity; lia.
Qed.

Lemma long_buffer_reads (buf : buffer) :
  (28 <= List.length buf)%nat ->
  exists a b c,
    readBigInt64LE buf 8 = Normal a
    /\ readBigInt64LE buf 16 = Normal b
    /\ readInt32LE buf 24 = Normal c.
Proof.
  intros Hlen.
  unfold readBigInt64LE, readInt32LE, buf_readInt32LE, readUInt32LE.
  repeat match goal with
         | |- context [(?a <=? ?b)%nat] =>
             destruct (Nat.leb_spec a b); [cbn [bind]|lia]
         end.
  eexists. eexists. eexists. repeat split.
Qed.

(** [parseData] returns a reading exactly when the input and its first
    element are truthy and the decoding gives at least 28 bytes. *)
Lemma parseData_reading_iff (data : jsval) (now : Z) :
  (exists r, parse data now = Some r)
  <-> (truthy data = true
       /\ exists d0 buf,
            get_prop data "0" = Some d0
            /\ truthy d0 = true
            /\ Buffer_from_base64 d0 = Normal buf
            /\ (28 <= List.length buf)%nat).
Proof.
  split.
  - intros [r Hr]. unfold parseData, parseData_try in Hr.
    destruct (truthy data) eqn:Hd; [|discriminate]. split; [reflexivity|].
    cbn [negb] in Hr.
    destruct (get_prop data "0") as [d0|] eqn:H0; [|discriminate].
    cbn [bind] in Hr.
    destruct (truthy d0) eqn:Hp; [|discriminate]. cbn [negb] in Hr.
    destruct (Buffer_from_base64 d0) as [buf|] eqn:Hb; [|discriminate].
    exists d0, buf. repeat split; try assumption.
    destruct (Nat.le_gt_cases 28 (List.length buf)) as [Hl|Hl];
      [exact Hl|].
    exfalso. cbn [bind] in Hr.
    pose proof (short_buffer_throws buf Hl) as Hs.
    destruct (readBigInt64LE buf 8) as [a|]; cbn [bind] in *;
      [|discriminate].
    destruct (readBigInt64LE buf 16) as [b|]; cbn [bind] in *;
      [|discriminate].
    destruct (readInt32LE buf 24) as [c|]; cbn [bind] in *; discriminate.
  - intros (Hd & d0 & buf & H0 & Hp & Hb & Hl).
    unfold parseData.
    rewrite (parse_of_bytes data d0 buf now Hd H0 Hp Hb).
    destruct (long_buffer_reads buf Hl) as (a & b & c & Ra & Rb & Rc).
    rewrite Ra, Rb, Rc. cbn [bind]. eexists. reflexivity.
Qed.

(** C5 (amended).  For every signed 64-bit [rp] and [rc] and every signed
    32-bit [e], on a payload that decodes to eight header bytes followed by
    [rp], [rc] and [e] in little-endian two's complement, the 64-bit reads
    rebuild [rp] and [rc] exactly as [high * 2^32 + low], the exponent read is
    [e], and [parseData] returns the reading whose [rawPrice] and
    [rawConfidence] are [Number(rp)] and [Number(rc)] (equal to [rp] and [rc]
    whenever their magnitude is at most [2^53]), whose [exponent] is [e], and
    whose [price] and [confidence] are the floating point products
    [Number(rp) * Math.pow(10, e)] and [Number(rc) * Math.pow(10, e)]. *)
Theorem parseData_round_trip
  (payload : jsval) (others : list jsval) (header trailer : list byte)
  (rp rc e now : Z) :
  truthy payload = true ->
  List.length header = 8%nat ->
  - 2 ^ 63 <= rp < 2 ^ 63 ->
  - 2 ^ 63 <= rc < 2 ^ 63 ->
  - 2 ^ 31 <= e < 2 ^ 31 ->
  Buffer_from_base64 payload = Normal (encode_payload header rp rc e trailer) ->
  readBigInt64LE (encode_payload header rp rc e trailer) 8 = Normal rp
  /\ readBigInt64LE (encode_payload header rp rc e trailer) 16 = Normal rc
  /\ readInt32LE (encode_payload header rp rc e trailer) 24 = Normal e
  /\ parse (JArr (payload :: others)) now =
       Some {| price := float_mul (float_of_Z (Number_of_BigInt rp))
                                  (Math_pow10 e);
               confidence := float_mul (float_of_Z (Number_of_BigInt rc))
                                       (Math_pow10 e);
               exponent := e;
               rawPrice := Number_of_BigInt rp;
               rawConfidence := Number_of_BigInt rc;
               timestamp := now;
               raw := payload |}
  /\ (Z.abs rp <= 2 ^ 53 -> Number_of_BigInt rp = rp)
  /\ (Z.abs rc <= 2 ^ 53 -> Number_of_BigInt rc = rc).
Proof.
  intros Hp Hh Hrp Hrc He Hb.
  assert (R1 : readBigInt64LE (encode_payload header rp rc e trailer) 8
               = Normal rp).
  { unfold encode_payload. now apply readBigInt64LE_field. }
  assert (R2 : readBigInt64LE (encode_payload header rp rc e trailer) 16
               = Normal rc).
  { unfold encode_payload. rewrite app_assoc.
    apply readBigInt64LE_field; [|exact Hrc].
    rewrite length_app, le_bytes_length. lia. }
  assert (R3 : readInt32LE (encode_payload header rp rc e trailer) 24
               = Normal e).
  { unfold encode_payload.
    rewrite app_assoc, (app_assoc (header ++ le_bytes 8 rp)).
    apply readInt32LE_field; [|exact He].
    rewrite !length_app, !le_bytes_length. lia. }
  repeat split; try assumption.
  - unfold parseData.
    rewrite (parse_of_bytes (JArr (payload :: others)) payload
               (encode_payload header rp rc e trailer) now);
      try reflexivity; try assumption.
    rewrite R1, R2, R3. reflexivity.
  - apply Number_of_BigInt_exact.
  - apply Number_of_BigInt_exact.
Qed.

(** C6 (amended).  [parseData] never lets an exception out: whatever the
    [try] block throws, the result is [null].  It is [null] for an absent
    input ([undefined], [null], or any other falsy value), when the first
    element is absent or empty, when the decoder raises, and when the decoded
    buffer is shorter than 28 bytes; and in no other case: whenever the
    decoder returns at least 28 bytes for a truthy first element, however it
    came by them, the result is a reading. *)
Theorem parseData_no_reading (data : jsval) (now : Z) :
  (forall err, parse_try data now = Throw err -> parse data now = None)
  /\ (forall r, parse_try data now = Normal r -> parse data now = r)
  /\ parse JUndefined now = None
  /\ parse JNull now = None
  /\ (truthy data = false -> parse data now = None)
  /\ (forall d0, get_prop data "0" = Some d0 -> truthy d0 = false ->
        parse data now = None)
  /\ (forall d0 err, get_prop data "0" = Some d0 ->
        Buffer_from_base64 d0 = Throw err -> parse data now = None)
  /\ (forall d0 buf, get_prop data "0" = Some d0 ->
        Buffer_from_base64 d0 = Normal buf ->
        (List.length buf < 28)%nat -> parse data now = None)
  /\ (parse data now = None
      <-> truthy data = false
          \/ exists d0,
               get_prop data "0" = Some d0
               /\ (truthy d0 = false
                   \/ (exists err, Buffer_from_base64 d0 = Throw err)
                   \/ exists buf,
                        Buffer_from_base64 d0 = Normal buf
                        /\ (List.length buf < 28)%nat))
  /\ (forall d0 buf,
        truthy data = true ->
        get_prop data "0" = Some d0 ->
        truthy d0 = true ->
        Buffer_from_base64 d0 = Normal buf ->
        (28 <= List.length buf)%nat ->
        exists r, parse data now = Some r /\ raw r = d0).
Proof.
  assert (H5 : truthy data = false -> parse data now = None).
  { intros Hd. unfold parseData, parseData_try. rewrite Hd. reflexivity. }
  assert (H6 : forall d0, get_prop data "0" = Some d0 -> truthy d0 = false ->
                          parse data now = None).
  { intros d0 H0 Hf. unfold parseData, parseData_try.
    destruct (truthy data); [|reflexivity].
    rewrite H0. cbn [negb bind]. rewrite Hf. reflexivity. }
  assert (H7 : forall d0 err, get_prop data "0" = Some d0 ->
                 Buffer_from_base64 d0 = Throw err -> parse data now = None).
  { intros d0 err H0 Hb. unfold parseData, parseData_try.
    destruct (truthy data); [|reflexivity].
    rewrite H0. cbn [negb bind].
    destruct (truthy d0); [|reflexivity].
    cbn [negb]. rewrite Hb. reflexivity. }
  assert (H8 : forall d0 buf, get_prop data "0" = Some d0 ->
                 Buffer_from_base64 d0 = Normal buf ->
                 (List.length buf < 28)%nat -> parse data now = None).
  { intros d0 buf H0 Hb Hlen. unfold parseData.
    destruct (truthy data) eqn:Hd;
      [|unfold parseData_try; rewrite Hd; reflexivity].
    destruct (truthy d0) eqn:Hp.
    + rewrite (parse_of_bytes data d0 buf now Hd H0 Hp Hb).
      pose proof (short_buffer_throws buf Hlen) as Hs.
      destruct (readBigInt64LE buf 8) as [a|]; cbn [bind] in *;
        [|reflexivity].
      destruct (readBigInt64LE buf 16) as [b|]; cbn [bind] in *;
        [|reflexivity].
      destruct (readInt32LE buf 24) as [c|]; cbn [bind] in *;
        [discriminate|reflexivity].
    + unfold parseData_try. rewrite Hd, H0. cbn [negb bind].
      rewrite Hp. reflexivity. }
  assert (H10 : forall d0 buf,
                  truthy data = true ->
                  get_prop data "0" = Some d0 ->
                  truthy d0 = true ->
                  Buffer_from_base64 d0 = Normal buf ->
                  (28 <= List.length buf)%nat ->
                  exists r, parse data now = Some r /\ raw r = d0).
  { intros d0 buf Hd H0 Hp Hb Hl. unfold parseData.
    rewrite (parse_of_bytes data d0 buf now Hd H0 Hp Hb).
    destruct (long_buffer_reads buf Hl) as (a & b & c & Ra & Rb & Rc).
    rewrite Ra, Rb, Rc. cbn [bind]. eexists. split; reflexivity. }
  split; [intros err E; unfold parseData; now rewrite E|].
  split; [intros r E; unfold parseData; now rewrite E|].
  split; [reflexivity|]. split; [reflexivity|].
  split; [exact H5|]. split; [exact H6|]. split; [exact H7|].
  split; [exact H8|]. split; [|exact H10].
  split.
  - intros Hn. destruct (truthy data) eqn:Hd; [right | now left].
    assert (G : exists d0, get_prop data "0" = Some d0)
      by (destruct data; try discriminate; eexists; reflexivity).
    destruct G as [d0 H0]. exists d0. split; [exact H0|].
    destruct (truthy d0) eqn:Hp; [right | now left].
    destruct (Buffer_from_base64 d0) as [buf|err] eqn:Hb;
      [right | left; now exists err].
    exists buf. split; [reflexivity|].
    destruct (Nat.le_gt_cases 28 (List.length buf)) as [Hl|Hl];
      [|exact Hl].
    destruct (H10 d0 buf eq_refl H0 Hp Hb Hl) as (r & Hr & _).
    rewrite Hr in Hn. discriminate Hn.
  - intros [Hd|(d0 & H0 & [Hf|[[err Hb]|(buf & Hb & Hl)]])].
    + now apply H5.
    + now apply H6 with d0.
    + now apply H7 with d0 err.
    + now apply H8 with d0 buf.
Qed.

End Decoder.

(** C6 as stated fails: text that is not base64 (a blank and an asterisk in
    it, no padding) is not rejected by the decoder of the package, which
    skips what it does not know; 28 bytes come out and [parseData] returns a
    reading, not [null]. *)
Lemma parseData_reads_malformed_base64 :
  sample_Buffer_from (JStr "AAAAAAAA AABOYbwAAAAA*AOEQAAAAAAAA+////w")
  = Throw "TypeError"
  /\ lenient_Buffer_from (JStr "AAAAAAAA AABOYbwAAAAA*AOEQAAAAAAAA+////w")
     = Normal (encode_payload zero_header 12345678 4321 (-5) [])
  /\ lenient_parseData
       (JArr [JStr "AAAAAAAA AABOYbwAAAAA*AOEQAAAAAAAA+////w"]) 1700
     = Some {| price := (12345678, -5);
               confidence := (4321, -5);
               exponent := -5;
               rawPrice := 12345678;
               rawConfidence := 4321;
               timestamp := 1700;
               raw := JStr "AAAAAAAA AABOYbwAAAAA*AOEQAAAAAAAA+////w" |}
  /\ lenient_parseData
       (JArr [JStr "AAAAAAAA AABOYbwAAAAA*AOEQAAAAAAAA+////w"]) 1700
     <> None.
Proof.
  split; [vm_compute; reflexivity|]. split; [vm_compute; reflexivity|].
  split; [vm_compute; reflexivity|]. vm_compute. discriminate.
Qed.

(** The round trip on a concrete payload: price 12345678, confidence 4321,
    exponent -5. *)
Lemma parseData_round_trip_witness :
  sample_parseData (JArr [JStr "AAAAAAAAAABOYbwAAAAAAOEQAAAAAAAA+////w=="]) 1700
  = Some {| price := (12345678, -5);
            confidence := (4321, -5);
            exponent := -5;
            rawPrice := 12345678;
            rawConfidence := 4321;
            timestamp := 1700;
            raw := JStr "AAAAAAAAAABOYbwAAAAAAOEQAAAAAAAA+////w==" |}.
Proof.
  assert (Hb : sample_Buffer_from (JStr "AAAAAAAAAABOYbwAAAAAAOEQAAAAAAAA+////w==")
               = Normal (encode_payload zero_header 12345678 4321 (-5) []))
    by (vm_compute; reflexivity).
  refine (proj1 (proj2 (proj2 (proj2
    (parseData_round_trip sample_Buffer_from decimal decimal_of_Z
       decimal_pow10 decimal_mul
       (JStr "AAAAAAAAAABOYbwAAAAAAOEQAAAAAAAA+////w==") [] zero_header []
       12345678 4321 (-5) 1700 eq_refl eq_refl _ _ _ Hb)))));
    (split; [apply Z.leb_le | apply Z.ltb_lt]; reflexivity).
Defined.

(** C5 as stated fails above 53 bits: the payload below encodes the raw price
    [2^53 + 1 = 9007199254740993]; the reading returned carries
    [9007199254740992]. *)
Lemma parseData_rounds_raw_price :
  sample_Buffer_from (JStr "AAAAAAAAAAABAAAAAAAgAAcAAAAAAAAA+P///w==")
  = Normal (encode_payload zero_header 9007199254740993 7 (-8) [])
  /\ readBigInt64LE (encode_payload zero_header 9007199254740993 7 (-8) []) 8
     = Normal 9007199254740993
  /\ option_map rawPrice
       (sample_parseData
          (JArr [JStr "AAAAAAAAAAABAAAAAAAgAAcAAAAAAAAA+P///w=="]) 0)
     = Some 9007199254740992
  /\ option_map price
       (sample_parseData
          (JArr [JStr "AAAAAAAAAAABAAAAAAAgAAcAAAAAAAAA+P///w=="]) 0)
     = Some (9007199254740992, -8).
Proof. vm_compute. repeat split. Qed.

(** A payload of 27 bytes, a string that is not base64, a first element
    that is not a string, an empty array and an empty string. *)
Example parseData_short_payload :
  sample_parseData (JArr [JStr "AAAAAAAAAAAAAAAAAAAAAAAAAAAAAAAAAAAA"]) 0 = None
  /\ sample_parseData (JArr [JStr "not base64!"]) 0 = None
  /\ sample_parseData (JArr [JNum 5]) 0 = None
  /\ sample_parseData (JArr []) 0 = None
  /\ sample_parseData (JStr "") 0 = None.
Proof. vm_compute. repeat split. Qed.

End ParserTheorems.


(* ================================================================== *)
(** * Properties of the throttle *)
(* ================================================================== *)

Module ThrottleTheorems.
Import App.

(** A reading that arrives less than the limit after the last delivery is
    not delivered on arrival: it is scheduled for the end of the window. *)
Lemma handlePriceUpdate_defers (reading : Type) (t : Z) (r : reading)
      (s : throttle reading) :
  t - lastUpdateTime reading s < UPDATE_LIMIT_MS ->
  pendingUpdate reading (handlePriceUpdate reading t r s)
  = Some (lastUpdateTime reading s + UPDATE_LIMIT_MS, r)
  /\ deliveries reading (handlePriceUpdate reading t r s)
     = deliveries reading s.
Proof.
  intros Hlt. unfold handlePriceUpdate.
  apply Z.ltb_lt in Hlt. rewrite Hlt. cbn [pendingUpdate deliveries
    set_pendingUpdate]. split; [|reflexivity].
  f_equal. f_equal. lia.
Qed.

(** What the throttle is for: whatever the arrivals, two deliveries are never
    less than the limit apart.  A deferred reading is delivered exactly one
    limit after the delivery before it. *)
Ltac tsimpl :=
  cbn [lastUpdateTime pendingUpdate deliveries updatePrice set_pendingUpdate].

Lemma throttle_invariant (reading : Type) (start : Z)
      (arrivals : list (Z * reading)) (s : throttle reading) :
  spaced reading start (lastUpdateTime reading s) (deliveries reading s) ->
  (forall due r, pendingUpdate reading s = Some (due, r) ->
                 due = lastUpdateTime reading s + UPDATE_LIMIT_MS) ->
  spaced reading start
         (lastUpdateTime reading (arrive reading arrivals s))
         (deliveries reading (arrive reading arrivals s))
  /\ (forall due r,
        pendingUpdate reading (arrive reading arrivals s) = Some (due, r) ->
        due = lastUpdateTime reading (arrive reading arrivals s)
              + UPDATE_LIMIT_MS).
Proof.
  revert s. induction arrivals as [|[t r] rest IH]; intros s Hs Hp;
    [now split|].
  cbn [arrive]. apply IH.
  - unfold handlePriceUpdate, advance, timeout_runs.
    destruct (pendingUpdate reading s) as [[due r0]|] eqn:P.
    + specialize (Hp due r0 eq_refl).
      destruct (due <=? t) eqn:D; tsimpl.
      * destruct (t - due <? UPDATE_LIMIT_MS) eqn:L; tsimpl.
        -- apply spaced_more with (lastUpdateTime reading s); [exact Hs|lia].
        -- apply Z.ltb_ge in L.
           apply spaced_more with due; [|lia].
           apply spaced_more with (lastUpdateTime reading s); [exact Hs|lia].
      * tsimpl.
        destruct (t - lastUpdateTime reading s <? UPDATE_LIMIT_MS) eqn:L;
          tsimpl; [exact Hs|].
        apply Z.ltb_ge in L.
        apply spaced_more with (lastUpdateTime reading s); [exact Hs|lia].
    + tsimpl.
      destruct (t - lastUpdateTime reading s <? UPDATE_LIMIT_MS) eqn:L;
        tsimpl; [exact Hs|].
      apply Z.ltb_ge in L.
      apply spaced_more with (lastUpdateTime reading s); [exact Hs|lia].
  - intros due' r'. unfold handlePriceUpdate, advance, timeout_runs.
    destruct (pendingUpdate reading s) as [[due r0]|] eqn:P.
    + destruct (due <=? t) eqn:D; tsimpl.
      * destruct (t - due <? UPDATE_LIMIT_MS) eqn:L; tsimpl.
        -- intros E.
           assert (E1 : t + (UPDATE_LIMIT_MS - (t - due)) = due')
             by congruence.
           lia.
        -- discriminate.
      * tsimpl.
        destruct (t - lastUpdateTime reading s <? UPDATE_LIMIT_MS) eqn:L;
          tsimpl.
        -- intros E.
           assert (E1 : t + (UPDATE_LIMIT_MS
                             - (t - lastUpdateTime reading s)) = due')
             by congruence.
           lia.
        -- discriminate.
    + tsimpl.
      destruct (t - lastUpdateTime reading s <? UPDATE_LIMIT_MS) eqn:L; tsimpl.
      * intros E.
        assert (E1 : t + (UPDATE_LIMIT_MS
                          - (t - lastUpdateTime reading s)) = due')
          by congruence.
        lia.
      * discriminate.
Qed.

(** X1.  Whatever the arrival times of the readings, two successive
    deliveries are at least [UPDATE_LIMIT_MS] apart, and the first is at
    least that long after the initial last-update time. *)
Lemma deliveries_are_spaced (reading : Type) (start : Z)
      (arrivals : list (Z * reading)) :
  exists last, spaced reading start last (deliveries_of reading start arrivals).
Proof.
  unfold deliveries_of.
  destruct (throttle_invariant reading start arrivals (mount reading start))
    as [Hs Hp].
  - apply spaced_none.
  - discriminate.
  - unfold timeout_runs.
    destruct (pendingUpdate reading (arrive reading arrivals (mount reading start)))
      as [[due r]|] eqn:P.
    + exists due. cbn. specialize (Hp due r eq_refl).
      eapply spaced_more; [exact Hs | lia].
    + eexists. exact Hs.
Qed.

(** C3 (amended).  With limit 50 and last delivery time 0, readings arriving
    at 0, 10, 20 and 60 lead to exactly two deliveries: at 50 the reading of
    20, and at 100 the reading of 60.  When the reading of 60 has been
    handled it is pending, not delivered: the delivery at 50 moved the last
    delivery time to 50, and 60 - 50 is below the limit. *)
Theorem throttle_scenario (reading : Type) (r0 r10 r20 r60 : reading) :
  deliveries_of reading 0 [(0, r0); (10, r10); (20, r20); (60, r60)]
  = [(50, r20); (100, r60)]
  /\ deliveries reading
       (arrive reading [(0, r0); (10, r10); (20, r20); (60, r60)]
               (mount reading 0))
     = [(50, r20)]
  /\ pendingUpdate reading
       (arrive reading [(0, r0); (10, r10); (20, r20); (60, r60)]
               (mount reading 0))
     = Some (100, r60).
Proof. repeat split. Qed.

(** C3 as stated fails: the second delivery is at 100, not at 60. *)
Lemma throttle_second_delivery_is_deferred :
  deliveries_of string 0
    [(0, "r0"%string); (10, "r10"%string); (20, "r20"%string);
     (60, "r60"%string)]
  = [(50, "r20"%string); (100, "r60"%string)]
  /\ [(50, "r20"%string); (100, "r60"%string)]
     <> [(50, "r20"%string); (60, "r60"%string)].
Proof. split; [reflexivity | discriminate]. Qed.

End ThrottleTheorems.

(* ================================================================== *)
(** * Properties of the registry operations *)
(* ================================================================== *)

Module RegistryFacts.
Import WebSocketManager.

Lemma strict_eq_num (v : jsval) (n : Z) :
  strict_eq v (JNum n) = true <-> v = JNum n.
Proof.
  destruct v; simpl; split; intros H; try discriminate; try congruence.
  - apply Z.eqb_eq in H. now subst.
  - injection H as ->. apply Z.eqb_refl.
Qed.

Lemma map_has_get (m : registry) (a : string) :
  map_has m a = match map_get m a with Some _ => true | None => false end.
Proof.
  induction m as [|[k v] m IH]; simpl; [reflexivity|].
  destruct (String.eqb k a); [reflexivity | exact IH].
Qed.

Lemma map_get_in (m : registry) (a : string) (e : sub) :
  map_get m a = Some e -> In (a, e) m.
Proof.
  induction m as [|[k v] m IH]; simpl; [discriminate|].
  destruct (String.eqb k a) eqn:E.
  - apply String.eqb_eq in E. intros [= ->]. left. now subst.
  - intros H. right. now apply IH.
Qed.

Lemma map_get_none_notin (m : registry) (a : string) :
  map_get m a = None -> ~ In a (map fst m).
Proof.
  induction m as [|[k v] m IH]; simpl; [tauto|].
  destruct (String.eqb k a) eqn:E; [discriminate|].
  apply String.eqb_neq in E. intros H [Hk|Hin]; [contradiction|].
  now apply IH.
Qed.

Lemma in_map_get (m : registry) (a : string) (e : sub) :
  NoDup (map fst m) -> In (a, e) m -> map_get m a = Some e.
Proof.
  induction m as [|[k v] m IH]; simpl; [tauto|].
  intros Hnd [Heq|Hin].
  - injection Heq as -> ->. now rewrite String.eqb_refl.
  - inversion Hnd as [|? ? Hk Hnd']; subst.
    destruct (String.eqb k a) eqn:E.
    + apply String.eqb_eq in E. subst k. exfalso. apply Hk.
      change a with (fst (a, e)). now apply in_map.
    + now apply IH.
Qed.

Lemma in_map_set (m : registry) (a x : string) (e e' : sub) :
  In (x, e') (map_set m a e) -> (x = a /\ e' = e) \/ In (x, e') m.
Proof.
  induction m as [|[k v] m IH]; simpl.
  - intros [[= <- <-]|[]]. now left.
  - destruct (String.eqb k a) eqn:E; simpl.
    + apply String.eqb_eq in E. subst k.
      intros [[= <- <-]|Hin]; [now left | right; now right].
    + intros [Heq|Hin]; [right; now left|].
      destruct (IH Hin) as [H|H]; [now left | right; now right].
Qed.

Lemma map_set_keys (m : registry) (a : string) (e : sub) :
  map fst (map_set m a e)
  = if map_has m a then map fst m else map fst m ++ [a].
Proof.
  induction m as [|[k v] m IH]; simpl; [reflexivity|].
  destruct (String.eqb k a) eqn:E; simpl; [reflexivity|].
  rewrite IH. now destruct (map_has m a).
Qed.

Lemma map_set_nodup (m : registry) (a : string) (e : sub) :
  NoDup (map fst m) -> NoDup (map fst (map_set m a e)).
Proof.
  intros Hnd. rewrite map_set_keys, map_has_get.
  destruct (map_get m a) eqn:G; [exact Hnd|].
  apply map_get_none_notin in G.
  apply NoDup_app; [exact Hnd | repeat constructor; simpl; tauto |].
  intros x Hx [<-|[]]. contradiction.
Qed.

Lemma map_get_set_same (m : registry) (a : string) (e : sub) :
  map_get (map_set m a e) a = Some e.
Proof.
  induction m as [|[k v] m IH]; simpl.
  - now rewrite String.eqb_refl.
  - destruct (String.eqb k a) eqn:E; simpl; rewrite E; [reflexivity|exact IH].
Qed.

Lemma map_get_set_other (m : registry) (a a' : string) (e : sub) :
  a' <> a -> map_get (map_set m a e) a' = map_get m a'.
Proof.
  intros Hne.
  assert (Hb : String.eqb a a' = false)
    by (apply String.eqb_neq; congruence).
  induction m as [|[k v] m IH]; simpl.
  - now rewrite Hb.
  - destruct (String.eqb k a) eqn:E; simpl.
    + apply String.eqb_eq in E. subst k. now rewrite Hb.
    + now rewrite IH.
Qed.

Lemma in_map_delete (m : registry) (a : string) (x : string * sub) :
  In x (map_delete m a) -> In x m.
Proof.
  induction m as [|[k v] m IH]; simpl; [tauto|].
  destruct (String.eqb k a); simpl; [now right|].
  intros [H|H]; [now left | right; now apply IH].
Qed.

Lemma map_delete_nodup (m : registry) (a : string) :
  NoDup (map fst m) ->
  NoDup (map fst (map_delete m a)) /\ map_get (map_delete m a) a = None.
Proof.
  induction m as [|[k v] m IH]; simpl; [intros _; split; [constructor|reflexivity]|].
  intros Hnd. inversion Hnd as [|? ? Hk Hnd']; subst.
  destruct (String.eqb k a) eqn:E; simpl.
  - apply String.eqb_eq in E. subst k. split; [exact Hnd'|].
    destruct (map_get m a) eqn:G; [|reflexivity].
    exfalso. apply Hk. apply map_get_in in G.
    change a with (fst (a, s)). now apply in_map.
  - destruct (IH Hnd') as [IH1 IH2]. rewrite E. split; [|exact IH2].
    constructor; [|exact IH1].
    intros Hin. apply Hk. apply in_map_iff in Hin.
    destruct Hin as [[x y] [Hx Hin]]. simpl in Hx. subst x.
    apply in_map_delete in Hin.
    change k with (fst (k, y)). now apply in_map.
Qed.

Lemma confirm_first_keys (mid res : jsval) (m : registry) :
  map fst (confirm_first mid res m) = map fst m.
Proof.
  induction m as [|[k v] m IH]; simpl; [reflexivity|].
  destruct (strict_eq (pendingId v) mid); simpl; [reflexivity|].
  now rewrite IH.
Qed.

Lemma in_confirm_first (mid res : jsval) (m : registry) (x : string)
      (e' : sub) :
  In (x, e') (confirm_first mid res m) ->
  In (x, e') m
  \/ exists e0, In (x, e0) m
       /\ e' = {| params := params e0; pendingId := JNull; sub_id := res |}.
Proof.
  induction m as [|[k v] m IH]; simpl; [tauto|].
  destruct (strict_eq (pendingId v) mid); simpl.
  - intros [[= <- <-]|Hin]; [right; exists v; split; [now left|reflexivity]|].
    left. now right.
  - intros [Heq|Hin]; [left; now left|].
    destruct (IH Hin) as [H|[e0 [H1 H2]]]; [left; now right|].
    right. exists e0. split; [now right | exact H2].
Qed.

(** An entry that does not hold the acknowledged request id is left as it
    is. *)
Lemma map_get_confirm_other (mid res : jsval) (m : registry) (a : string)
      (e : sub) :
  map_get m a = Some e ->
  strict_eq (pendingId e) mid = false ->
  map_get (confirm_first mid res m) a = Some e.
Proof.
  induction m as [|[k v] m IH]; simpl; [discriminate|].
  destruct (String.eqb k a) eqn:E.
  - intros [= ->] Hne. rewrite Hne. simpl. now rewrite E.
  - intros G Hne. destruct (strict_eq (pendingId v) mid); simpl; rewrite E.
    + exact G.
    + now apply IH.
Qed.

Lemma map_get_confirm_absent (mid res : jsval) (m : registry) (a : string) :
  map_get m a = None -> map_get (confirm_first mid res m) a = None.
Proof.
  induction m as [|[k v] m IH]; simpl; [reflexivity|].
  destruct (String.eqb k a) eqn:E; [discriminate|].
  intros G. destruct (strict_eq (pendingId v) mid); simpl; rewrite E.
  - exact G.
  - now apply IH.
Qed.

(** The entry that alone holds the acknowledged request id is confirmed. *)
Lemma map_get_confirm_hit (mid res : jsval) (m : registry) (a : string)
      (e : sub) :
  map_get m a = Some e ->
  strict_eq (pendingId e) mid = true ->
  (forall a' e', In (a', e') m -> strict_eq (pendingId e') mid = true ->
                 a' = a) ->
  map_get (confirm_first mid res m) a
  = Some {| params := params e; pendingId := JNull; sub_id := res |}.
Proof.
  induction m as [|[k v] m IH]; simpl; [discriminate|].
  destruct (String.eqb k a) eqn:E.
  - intros [= ->] Hhit _. rewrite Hhit. simpl. now rewrite E.
  - intros G Hhit Huniq.
    destruct (strict_eq (pendingId v) mid) eqn:Hv.
    + apply String.eqb_neq in E. exfalso. apply E.
      apply (Huniq k v); [now left | exact Hv].
    + simpl. rewrite E. apply IH; try assumption.
      intros a' e' Hin. apply Huniq. now right.
Qed.

(** ** The registry invariant under the four operations on it *)

Lemma registry_ok_nil (last : Z) : 0 <= last -> registry_ok last [].
Proof.
  intros Hl. split; simpl; try tauto. constructor.
Qed.

Lemma registry_ok_set (last : Z) (m : registry) (a : string) (p : jsval) :
  registry_ok last m ->
  registry_ok (last + 1)
    (map_set m a {| params := p; pendingId := JNum (last + 1);
                    sub_id := JNull |}).
Proof.
  intros [Hl Hk Hi Hp Hc]. split.
  - lia.
  - now apply map_set_nodup.
  - intros x e n Hin He. apply in_map_set in Hin.
    destruct Hin as [[-> ->]|Hin].
    + simpl in He. injection He as <-. lia.
    + specialize (Hi _ _ _ Hin He). lia.
  - intros a1 e1 a2 e2 n H1 H2 P1 P2.
    apply in_map_set in H1. apply in_map_set in H2.
    destruct H1 as [[-> ->]|H1], H2 as [[-> ->]|H2].
    + reflexivity.
    + simpl in P1. injection P1 as <-.
      specialize (Hi _ _ _ H2 P2). lia.
    + simpl in P2. injection P2 as <-.
      specialize (Hi _ _ _ H1 P1). lia.
    + eapply Hp; eassumption.
  - intros x e Hin. apply in_map_set in Hin.
    destruct Hin as [[-> ->]|Hin]; [now left|]. eapply Hc; eassumption.
Qed.

Lemma registry_ok_confirm (last : Z) (m : registry) (mid res : jsval) :
  truthy res = true ->
  registry_ok last m -> registry_ok last (confirm_first mid res m).
Proof.
  intros Hres [Hl Hk Hi Hp Hc]. split.
  - exact Hl.
  - now rewrite confirm_first_keys.
  - intros x e n Hin He. apply in_confirm_first in Hin.
    destruct Hin as [Hin|[e0 [_ ->]]]; [|discriminate].
    eapply Hi; eassumption.
  - intros a1 e1 a2 e2 n H1 H2 P1 P2.
    apply in_confirm_first in H1. apply in_confirm_first in H2.
    destruct H1 as [H1|[? [_ ->]]]; [|discriminate].
    destruct H2 as [H2|[? [_ ->]]]; [|discriminate].
    eapply Hp; eassumption.
  - intros x e Hin. apply in_confirm_first in Hin.
    destruct Hin as [Hin|[e0 [_ ->]]]; [eapply Hc; eassumption|].
    now right.
Qed.

Lemma registry_ok_delete (last : Z) (m : registry) (a : string) :
  registry_ok last m -> registry_ok last (map_delete m a).
Proof.
  intros [Hl Hk Hi Hp Hc]. split.
  - exact Hl.
  - now apply map_delete_nodup.
  - intros x e n Hin. apply in_map_delete in Hin. now apply Hi with x.
  - intros a1 e1 a2 e2 n H1 H2.
    apply in_map_delete in H1. apply in_map_delete in H2. now apply Hp.
  - intros x e Hin. apply in_map_delete in Hin. now apply Hc with x.
Qed.

Lemma registry_ok_later (last last' : Z) (m : registry) :
  last <= last' -> registry_ok last m -> registry_ok last' m.
Proof.
  intros Hle [Hl Hk Hi Hp Hc]. split; try assumption; [lia|].
  intros x e n Hin He. specialize (Hi _ _ _ Hin He). lia.
Qed.

End RegistryFacts.

(* ================================================================== *)
(** * Properties of the connection manager *)
(* ================================================================== *)

Module ManagerFacts.
Import WebSocketManager RegistryFacts.

(** Case analysis on every test an operation makes. *)
Ltac cases :=
  repeat match goal with
         | |- context [if ?c then _ else _] => destruct c eqn:?
         | |- context [match ?c with _ => _ end] =>
             lazymatch c with
             | context [match _ with _ => _ end] => fail
             | _ => destruct c eqn:?
             end
         end.

(** ** What [settle], [connect] and [subscribe_resume] leave alone *)

Lemma settle_frame (k : nat) (ok : bool) (s : state) :
  subscriptions (snd (settle k ok s)) = subscriptions s
  /\ lastMessageId (snd (settle k ok s)) = lastMessageId s
  /\ isConnected (snd (settle k ok s)) = isConnected s
  /\ ws (snd (settle k ok s)) = ws s
  /\ reconnectAttempts (snd (settle k ok s)) = reconnectAttempts s
  /\ options_ (snd (settle k ok s)) = options_ s
  /\ timers (snd (settle k ok s)) = timers s
  /\ sent (snd (settle k ok s)) = sent s
  /\ messageHandlers (snd (settle k ok s)) = messageHandlers s.
Proof.
  unfold settle. destruct (promise_state (settled s) k); cbn; repeat split.
Qed.

Lemma connect_frame (s : state) :
  subscriptions (fst (connect s)) = subscriptions s
  /\ lastMessageId (fst (connect s)) = lastMessageId s
  /\ isConnected (fst (connect s)) = isConnected s
  /\ reconnectAttempts (fst (connect s)) = reconnectAttempts s
  /\ options_ (fst (connect s)) = options_ s
  /\ timers (fst (connect s)) = timers s
  /\ sent (fst (connect s)) = sent s
  /\ messageHandlers (fst (connect s)) = messageHandlers s.
Proof.
  unfold connect.
  destruct (isConnected s) eqn:C; [cbn; rewrite C; repeat split|].
  destruct (connectionPromise s); [cbn; rewrite C; repeat split|].
  cbn [url_accepted set_next_id].
  destruct (url_accepted s); [cbn; rewrite C; repeat split|].
  unfold settle. cbn. cases; cbn; rewrite C; repeat split.
Qed.

Lemma connect_connected (s : state) :
  isConnected s = true -> connect s = (s, Ready).
Proof. intros C. unfold connect. now rewrite C. Qed.

Lemma subscribe_resume_frame (a : string) (p : jsval) (s : state) :
  lastMessageId (subscribe_resume a p s) = lastMessageId s + 1
  /\ subscriptions (subscribe_resume a p s)
     = map_set (subscriptions s) a
         {| params := p; pendingId := JNum (lastMessageId s + 1);
            sub_id := JNull |}
  /\ isConnected (subscribe_resume a p s) = isConnected s
  /\ ws (subscribe_resume a p s) = ws s
  /\ reconnectAttempts (subscribe_resume a p s) = reconnectAttempts s
  /\ options_ (subscribe_resume a p s) = options_ s
  /\ timers (subscribe_resume a p s) = timers s
  /\ messageHandlers (subscribe_resume a p s) = messageHandlers s.
Proof.
  unfold subscribe_resume, ws_send. cbn.
  destruct (ws s) eqn:W; cbn; repeat split; exact W.
Qed.

Lemma subscribe_resume_sent (a : string) (p : jsval) (s : state) (k : nat) :
  ws s = Some k ->
  sent (subscribe_resume a p s)
  = sent s ++ [(k, request (lastMessageId s + 1) "accountSubscribe"
                     [JStr a; p])].
Proof.
  intros Hws. unfold subscribe_resume, ws_send. cbn. rewrite Hws. reflexivity.
Qed.

(** ** The invariant is kept by every operation *)

Lemma wf_subscribe_resume (a : string) (p : jsval) (s : state) :
  wf s -> wf (subscribe_resume a p s).
Proof.
  intros [Hr Hs].
  destruct (subscribe_resume_frame a p s)
    as (E1 & E2 & E3 & E4 & _).
  split.
  - rewrite E1, E2. now apply registry_ok_set.
  - rewrite E3, E4. exact Hs.
Qed.

Lemma wf_resume_all (l : list (string * jsval)) (s : state) :
  wf s ->
  wf (fold_left (fun st ap => subscribe_resume (fst ap) (snd ap) st) l s).
Proof.
  revert s. induction l as [|[a p] l IH]; intros s Hwf; simpl; [exact Hwf|].
  apply IH. now apply wf_subscribe_resume.
Qed.

Lemma wf_connect (s : state) : wf s -> wf (fst (connect s)).
Proof.
  intros [Hr Hs].
  destruct (connect_frame s) as (E1 & E2 & E3 & _).
  split.
  - now rewrite E1, E2.
  - rewrite E3. intros C. rewrite (connect_connected s C). now apply Hs.
Qed.

Lemma wf_subscribe (a : string) (p : jsval) (s : state) :
  wf s -> wf (subscribe a p s).
Proof.
  intros Hwf. unfold subscribe.
  pose proof (wf_connect s Hwf) as Hc.
  destruct (connect s) as [s1 aw]. simpl in Hc.
  destruct aw as [|k]; [now apply wf_subscribe_resume|].
  destruct (promise_state (settled s1) k) as [[|]|].
  - now apply wf_subscribe_resume.
  - exact Hc.
  - exact Hc.
Qed.

Lemma wf_unsubscribe (a : string) (s : state) : wf s -> wf (unsubscribe a s).
Proof.
  intros [Hr Hs]. unfold unsubscribe.
  destruct (negb (isConnected s) || negb (map_has (subscriptions s) a));
    [exact (conj Hr Hs)|].
  destruct (map_get (subscriptions s) a) as [e|]; [|exact (conj Hr Hs)].
  destruct (negb (truthy (sub_id e))); [exact (conj Hr Hs)|].
  assert (Hd : registry_ok (lastMessageId s + 1)
                 (map_delete (subscriptions s) a)).
  { apply registry_ok_delete.
    apply registry_ok_later with (lastMessageId s); [lia|exact Hr]. }
  unfold ws_send. cbn. destruct (ws s) eqn:W; split; cbn;
    try exact Hd; rewrite ?W; try exact Hs.
  apply registry_ok_later with (lastMessageId s); [lia|exact Hr].
Qed.

Lemma wf_disconnect (s : state) : wf s -> wf (disconnect s).
Proof.
  intros Hwf. unfold disconnect. destruct (ws s); [|exact Hwf].
  split; cbn; [apply registry_ok_nil; apply Hwf | discriminate].
Qed.

Lemma wf_onopen (k : nat) (s : state) :
  (exists j, ws s = Some j) -> wf s -> wf (onopen k s).
Proof.
  intros Hws [Hr Hs]. unfold onopen.
  destruct (settle k true
              (set_reconnectAttempts 0
                 (set_isConnected true
                    (log "WebSocket connection established" s))))
    as [woken s3] eqn:E.
  apply wf_resume_all.
  pose proof (settle_frame k true
                (set_reconnectAttempts 0
                   (set_isConnected true
                      (log "WebSocket connection established" s)))) as F.
  rewrite E in F. simpl in F. destruct F as (F1 & F2 & F3 & F4 & _).
  split.
  - now rewrite F1, F2.
  - rewrite F4. intros _. exact Hws.
Qed.

Lemma wf_onerror (k : nat) (s : state) : wf s -> wf (onerror k s).
Proof.
  intros [Hr Hs]. unfold onerror.
  destruct (negb (isConnected (log "WebSocket error" s))); [|exact (conj Hr Hs)].
  destruct (settle_frame k false (log "WebSocket error" s))
    as (F1 & F2 & F3 & F4 & _).
  split.
  - now rewrite F1, F2.
  - rewrite F3, F4. exact Hs.
Qed.

Lemma wf_onclose (s : state) : wf s -> wf (onclose s).
Proof.
  intros [Hr Hs]. unfold onclose. cbn.
  destruct (reconnectAttempts s <? maxReconnectAttempts (options_ s));
    split; cbn; try exact Hr; discriminate.
Qed.

Lemma wf_timer_fires (s : state) : wf s -> wf (timer_fires s).
Proof.
  intros Hwf. unfold timer_fires.
  destruct (fired s <? List.length (timers s))%nat; [|exact Hwf].
  apply wf_connect. destruct Hwf as [Hr Hs]. now split.
Qed.

Lemma correlate_cases (message : jsval) (s : state) :
  correlate message s = Throw "TypeError" /\ get_prop message "id" = None
  \/ correlate message s = Normal s /\ falsy_ack message = true
  \/ exists mid res,
       get_prop message "id" = Some mid /\ truthy mid = true
       /\ get_prop message "result" = Some res /\ truthy res = true
       /\ correlate message s
          = Normal (set_subscriptions
                      (confirm_first mid res (subscriptions s)) s).
Proof.
  unfold correlate, prop, falsy_ack.
  destruct (get_prop message "id") as [mid|] eqn:Hid;
    [|left; split; reflexivity].
  assert (Hres : exists res, get_prop message "result" = Some res)
    by (destruct message; simpl in *; try discriminate; eauto).
  destruct Hres as [res Hres]. rewrite Hres. cbn [bind].
  destruct (truthy mid) eqn:T1; [|right; left; split; reflexivity].
  destruct (truthy res) eqn:T2.
  - right. right. exists mid, res. repeat split; assumption.
  - right. left. split; reflexivity.
Qed.

(** ** Dispatch *)

Lemma wf_core (s s' : state) : core s = core s' -> wf s -> wf s'.
Proof.
  unfold core, wf. intros E [Hr Hs].
  injection E as _ _ Ews _ Esub Econ _ Elast _.
  rewrite <- Elast, <- Esub, <- Econ, <- Ews. now split.
Qed.

Lemma hcalls_core (calls : list hcall) (s : state) :
  core (fold_left apply_hcall calls s) = core s.
Proof.
  revert s. induction calls as [|c calls IH]; intros s; simpl; [reflexivity|].
  rewrite IH. now destruct c.
Qed.

Section Dispatch.

Variable handler_body : nat -> nat -> jsval -> list hcall * bool.

Lemma call_handler_core (h : nat) (message : jsval) (s : state) :
  core (call_handler handler_body h message s) = core s.
Proof.
  unfold call_handler.
  destruct (handler_body h (List.length (delivered s)) message)
    as [calls throws].
  destruct throws.
  - unfold log.
    change (core (set_console _ ?x)) with (core x).
    now rewrite hcalls_core.
  - now rewrite hcalls_core.
Qed.

Lemma forEach_core (n k : nat) (message : jsval) (s : state) :
  core (forEach_from handler_body n k message s) = core s.
Proof.
  revert k s. induction n as [|n IH]; intros k s; simpl; [reflexivity|].
  rewrite IH. destruct (nth_error (messageHandlers s) k); [|reflexivity].
  apply call_handler_core.
Qed.

Lemma dispatch_core (message : jsval) (s : state) :
  core (dispatch handler_body message s) = core s.
Proof. apply forEach_core. Qed.

Lemma onmessage_core_falsy (message : jsval) (s : state) :
  falsy_ack message = true ->
  core (onmessage handler_body (Some message) s) = core s.
Proof.
  intros Hf. unfold onmessage, onmessage_try.
  destruct (correlate_cases message s)
    as [[E _]|[[E _]|(mid & res & H1 & H2 & H3 & H4 & E)]];
    rewrite E; cbn [bind].
  - reflexivity.
  - apply dispatch_core.
  - unfold falsy_ack in Hf. rewrite H1, H3, H2, H4 in Hf. discriminate.
Qed.

Lemma wf_onmessage (data : option jsval) (s : state) :
  wf s -> wf (onmessage handler_body data s).
Proof.
  intros Hwf. unfold onmessage, onmessage_try.
  destruct data as [message|]; [|exact Hwf].
  destruct (correlate_cases message s)
    as [[E _]|[[E _]|(mid & res & H1 & H2 & H3 & H4 & E)]];
    rewrite E; cbn [bind].
  - exact Hwf.
  - apply (wf_core s); [symmetry; apply dispatch_core | exact Hwf].
  - eapply wf_core; [symmetry; apply dispatch_core|].
    destruct Hwf as [Hr Hs]. split; cbn; [|exact Hs].
    now apply registry_ok_confirm.
Qed.

Lemma wf_step (s : state) (e : event) :
  possible s e = true -> wf s -> wf (step handler_body s e).
Proof.
  intros Hp Hwf. destruct e; simpl in *.
  - now apply wf_connect.
  - now apply wf_subscribe.
  - now apply wf_unsubscribe.
  - exact Hwf.
  - exact Hwf.
  - now apply wf_disconnect.
  - apply wf_onopen; [|exact Hwf]. destruct (ws s); [eauto|discriminate].
  - now apply wf_onmessage.
  - now apply wf_onerror.
  - now apply wf_onclose.
  - now apply wf_timer_fires.
Qed.

Lemma wf_run (es : list event) (s : state) :
  all_possible handler_body s es = true -> wf s ->
  wf (run handler_body s es).
Proof.
  revert s. induction es as [|e es IH]; intros s Hp Hwf; simpl in *;
    [exact Hwf|].
  apply andb_true_iff in Hp. destruct Hp as [Hp1 Hp2].
  apply IH; [exact Hp2 | now apply wf_step].
Qed.




End Dispatch.

Lemma wf_new_manager (url_ok : bool) (gi gm : option Z) :
  wf (new_manager url_ok gi gm).
Proof.
  split; [apply registry_ok_nil; reflexivity | discriminate].
Qed.

Lemma reachable_wf (hb : nat -> nat -> jsval -> list hcall * bool)
      (s : state) :
  reachable hb s -> wf s.
Proof.
  intros (url_ok & gi & gm & es & Hp & ->).
  apply wf_run; [exact Hp | apply wf_new_manager].
Qed.

(** ** The reconnection policy is touched by [onopen] and [onclose] only *)

Lemma policy_core (s s' : state) : core s = core s' -> policy s = policy s'.
Proof. unfold core, policy. now intros [= _ -> _ -> _ _ _ _ _ _ _ -> _ _ _]. Qed.

Lemma policy_fields (s s' : state) :
  policy s = policy s' ->
  options_ s = options_ s'
  /\ reconnectAttempts s = reconnectAttempts s'
  /\ timers s = timers s'.
Proof. unfold policy. intros [= -> -> ->]. repeat split. Qed.

Lemma policy_connect (s : state) : policy (fst (connect s)) = policy s.
Proof.
  destruct (connect_frame s) as (_ & _ & _ & E1 & E2 & E3 & _).
  unfold policy. now rewrite E1, E2, E3.
Qed.

Lemma policy_subscribe_resume (a : string) (p : jsval) (s : state) :
  policy (subscribe_resume a p s) = policy s.
Proof.
  destruct (subscribe_resume_frame a p s) as (_ & _ & _ & _ & E1 & E2 & E3 & _).
  unfold policy. now rewrite E1, E2, E3.
Qed.

Lemma policy_resume_all (l : list (string * jsval)) (s : state) :
  policy (fold_left (fun st ap => subscribe_resume (fst ap) (snd ap) st) l s)
  = policy s.
Proof.
  revert s. induction l as [|[a p] l IH]; intros s; simpl; [reflexivity|].
  rewrite IH. apply policy_subscribe_resume.
Qed.

Lemma policy_settle (k : nat) (ok : bool) (s : state) :
  policy (snd (settle k ok s)) = policy s.
Proof.
  destruct (settle_frame k ok s) as (_ & _ & _ & _ & E1 & E2 & E3 & _).
  unfold policy. now rewrite E1, E2, E3.
Qed.

Lemma policy_subscribe (a : string) (p : jsval) (s : state) :
  policy (subscribe a p s) = policy s.
Proof.
  unfold subscribe. pose proof (policy_connect s) as Hc.
  destruct (connect s) as [s1 aw]. simpl in Hc.
  destruct aw as [|k]; [now rewrite policy_subscribe_resume|].
  destruct (promise_state (settled s1) k) as [[|]|];
    [now rewrite policy_subscribe_resume | exact Hc | exact Hc].
Qed.

Lemma policy_unsubscribe (a : string) (s : state) :
  policy (unsubscribe a s) = policy s.
Proof.
  unfold unsubscribe, ws_send.
  destruct (negb (isConnected s) || negb (map_has (subscriptions s) a));
    [reflexivity|].
  destruct (map_get (subscriptions s) a) as [e|]; [|reflexivity].
  destruct (negb (truthy (sub_id e))); [reflexivity|].
  cbn. now destruct (ws s).
Qed.

Lemma policy_disconnect (s : state) : policy (disconnect s) = policy s.
Proof. unfold disconnect. now destruct (ws s). Qed.

Lemma policy_onerror (k : nat) (s : state) : policy (onerror k s) = policy s.
Proof.
  unfold onerror.
  destruct (negb (isConnected (log "WebSocket error" s))); [|reflexivity].
  now rewrite policy_settle.
Qed.

Lemma policy_timer_fires (s : state) : policy (timer_fires s) = policy s.
Proof.
  unfold timer_fires.
  destruct (fired s <? List.length (timers s))%nat; [|reflexivity].
  now rewrite policy_connect.
Qed.

Lemma policy_onmessage (hb : nat -> nat -> jsval -> list hcall * bool)
      (data : option jsval) (s : state) :
  policy (onmessage hb data s) = policy s.
Proof.
  unfold onmessage, onmessage_try. destruct data as [message|];
    [|reflexivity].
  destruct (correlate_cases message s)
    as [[E _]|[[E _]|(mid & res & _ & _ & _ & _ & E)]];
    rewrite E; cbn [bind]; try reflexivity.
  - apply policy_core, dispatch_core.
  - rewrite (policy_core _ _ (dispatch_core hb message _)). reflexivity.
Qed.

Lemma policy_onopen (k : nat) (s : state) :
  options_ (onopen k s) = options_ s
  /\ reconnectAttempts (onopen k s) = 0
  /\ timers (onopen k s) = timers s.
Proof.
  unfold onopen.
  pose proof (policy_settle k true
                (set_reconnectAttempts 0
                   (set_isConnected true
                      (log "WebSocket connection established" s)))) as Hs.
  destruct (settle k true _) as [woken s3]. simpl in Hs.
  pose proof (policy_resume_all
                (woken ++ map (fun ae => (fst ae, sub_object (snd ae)))
                              (subscriptions s3)) s3) as Hr.
  rewrite Hs in Hr. unfold policy in Hr. cbn in Hr.
  injection Hr as -> -> ->. repeat split.
Qed.

Lemma policy_onclose (s : state) :
  options_ (onclose s) = options_ s
  /\ reconnectAttempts (onclose s)
     = (if reconnectAttempts s <? maxReconnectAttempts (options_ s)
        then reconnectAttempts s + 1 else reconnectAttempts s)
  /\ timers (onclose s)
     = (if reconnectAttempts s <? maxReconnectAttempts (options_ s)
        then timers s ++ [reconnectInterval (options_ s)] else timers s)
  /\ isConnected (onclose s) = false
  /\ connectionPromise (onclose s) = None.
Proof.
  unfold onclose. cbn.
  destruct (reconnectAttempts s <? maxReconnectAttempts (options_ s));
    repeat split.
Qed.

Lemma policy_step (hb : nat -> nat -> jsval -> list hcall * bool)
      (s : state) (e : event) :
  match e with
  | SockOpen _ | SockClose => True
  | _ => policy (step hb s e) = policy s
  end.
Proof.
  destruct e; simpl; try exact I.
  - apply policy_connect.
  - apply policy_subscribe.
  - apply policy_unsubscribe.
  - reflexivity.
  - reflexivity.
  - apply policy_disconnect.
  - apply policy_onmessage.
  - apply policy_onerror.
  - apply policy_timer_fires.
Qed.

(** ** What [onopen] sends *)

Lemma resume_all_sent (j : nat) (l : list (string * jsval)) (s : state) :
  ws s = Some j ->
  sent (fold_left (fun st ap => subscribe_resume (fst ap) (snd ap) st) l s)
  = sent s ++ requests_from j (lastMessageId s + 1) l.
Proof.
  revert s. induction l as [|[a p] l IH]; intros s Hws; simpl.
  - now rewrite app_nil_r.
  - destruct (subscribe_resume_frame a p s) as (E1 & _ & _ & E4 & _).
    rewrite IH by (now rewrite E4).
    rewrite (subscribe_resume_sent a p s j Hws), E1, <- app_assoc.
    reflexivity.
Qed.

Lemma nobody_waiting (k : nat) (l : list (nat * (string * jsval))) :
  (forall w, In w l -> fst w <> k) -> filter (waiting_on k) l = [].
Proof.
  induction l as [|w l IH]; intros H; simpl; [reflexivity|].
  unfold waiting_on at 1.
  destruct (Nat.eqb (fst w) k) eqn:E.
  - apply Nat.eqb_eq in E. exfalso. apply (H w); [now left | exact E].
  - apply IH. intros w' Hin. apply H. now right.
Qed.

End ManagerFacts.

Module ManagerTheorems.
Import WebSocketManager RegistryFacts ManagerFacts.

Lemma strict_eq_num_l (n : Z) (v : jsval) :
  strict_eq (JNum n) v = true <-> v = JNum n.
Proof.
  destruct v; simpl; split; intros H; try discriminate.
  - apply Z.eqb_eq in H. now subst.
  - injection H as ->. apply Z.eqb_refl.
Qed.

(** [unsubscribe] under the invariant. *)
Lemma unsubscribe_when_wf (s : state) (address : string) :
  wf s ->
  (isConnected s = false -> unsubscribe address s = s)
  /\ (map_get (subscriptions s) address = None -> unsubscribe address s = s)
  /\ (forall e, map_get (subscriptions s) address = Some e ->
        sub_id e = JNull -> unsubscribe address s = s)
  /\ (forall e, isConnected s = true ->
        map_get (subscriptions s) address = Some e ->
        sub_id e <> JNull ->
        exists k, ws s = Some k
          /\ sent (unsubscribe address s)
             = sent s ++ [(k, request (lastMessageId s + 1)
                                "accountUnsubscribe" [sub_id e])]
          /\ subscriptions (unsubscribe address s)
             = map_delete (subscriptions s) address
          /\ map_get (subscriptions (unsubscribe address s)) address = None).
Proof.
  intros [Hr Hs]. repeat split.
  - intros C. unfold unsubscribe. now rewrite C.
  - intros G. unfold unsubscribe. rewrite map_has_get, G. simpl.
    now rewrite orb_true_r.
  - intros e G Hid. unfold unsubscribe. rewrite G, Hid. simpl.
    now destruct (negb (isConnected s) || negb (map_has (subscriptions s) address)).
  - intros e C G Hid. destruct (Hs C) as [k Hk]. exists k.
    assert (Ht : truthy (sub_id e) = true).
    { destruct (ok_confirmed _ _ Hr address e (map_get_in _ _ _ G));
        [contradiction | assumption]. }
    unfold unsubscribe, ws_send. rewrite C, map_has_get, G, Ht. cbn.
    rewrite Hk. cbn. repeat split.
    apply map_delete_nodup. apply Hr.
Qed.

(** [subscribe] on a connected manager, under the invariant. *)
Lemma subscribe_when_wf (s : state) (address : string) (p : jsval) :
  wf s ->
  isConnected s = true ->
  let p' := match p with JUndefined => default_params | _ => p end in
  let s' := subscribe address p s in
  let id := lastMessageId s + 1 in
  let pending := {| params := p'; pendingId := JNum id; sub_id := JNull |} in
  wf s'
  /\ NoDup (map fst (subscriptions s'))
  /\ map_get (subscriptions s') address = Some pending
  /\ (forall message s'',
        correlate message s' = Normal s'' ->
        map_get (subscriptions s'') address = Some pending
        \/ (get_prop message "id" = Some (JNum id)
            /\ exists res,
                 get_prop message "result" = Some res
                 /\ truthy res = true
                 /\ map_get (subscriptions s'') address
                    = Some {| params := p'; pendingId := JNull;
                              sub_id := res |}))
  /\ (forall message res,
        get_prop message "id" = Some (JNum id) ->
        get_prop message "result" = Some res ->
        truthy res = true ->
        exists s'',
          correlate message s' = Normal s''
          /\ map_get (subscriptions s'') address
             = Some {| params := p'; pendingId := JNull; sub_id := res |}).
Proof.
  intros Hwf C p' s' id pending.
  assert (Hs' : s' = subscribe_resume address p' s).
  { unfold s', subscribe. fold p'. now rewrite (connect_connected s C). }
  assert (Hwf' : wf s') by (rewrite Hs'; now apply wf_subscribe_resume).
  destruct (subscribe_resume_frame address p' s) as (E1 & E2 & _).
  assert (G : map_get (subscriptions s') address = Some pending).
  { rewrite Hs', E2. apply map_get_set_same. }
  assert (Huniq : forall a' e',
             In (a', e') (subscriptions s') ->
             strict_eq (pendingId e') (JNum id) = true -> a' = address).
  { intros a' e' Hin Heq. apply strict_eq_num in Heq.
    destruct Hwf' as [Hr' _].
    apply (ok_pending _ _ Hr' a' e' address pending id); try assumption.
    - now apply map_get_in.
    - reflexivity. }
  assert (Hid : truthy (JNum id) = true).
  { destruct Hwf as [Hr _]. pose proof (ok_last _ _ Hr). simpl.
    destruct (id =? 0) eqn:Z0; [|reflexivity].
    apply Z.eqb_eq in Z0. unfold id in Z0. lia. }
  split; [exact Hwf'|]. split; [apply Hwf'|]. split; [exact G|]. split.
  - intros message s'' Hc.
    destruct (correlate_cases message s')
      as [[E _]|[[E _]|(mid & res & H1 & H2 & H3 & H4 & E)]];
      rewrite E in Hc; try discriminate; injection Hc as <-.
    + now left.
    + cbn [subscriptions set_subscriptions].
      destruct (strict_eq (pendingId pending) mid) eqn:Hm.
      * right. apply strict_eq_num_l in Hm. subst mid.
        split; [exact H1|]. exists res. repeat split; try assumption.
        apply (map_get_confirm_hit (JNum id) res _ address pending);
          [exact G | simpl; apply Z.eqb_refl | exact Huniq].
      * left. now apply map_get_confirm_other.
  - intros message res H1 H3 H4. unfold correlate, prop.
    rewrite H1, H3. cbn [bind]. rewrite Hid, H4.
    eexists. split; [reflexivity|].
    cbn [subscriptions set_subscriptions].
    apply (map_get_confirm_hit (JNum id) res _ address pending);
      [exact G | simpl; apply Z.eqb_refl | exact Huniq].
Qed.

Lemma core_subscriptions (s s' : state) :
  core s = core s' -> subscriptions s = subscriptions s'.
Proof. unfold core. now intros [= _ _ _ _ E _]. Qed.

Lemma falsy_ack_correlate (message : jsval) (s : state) :
  falsy_ack message = true -> correlate message s = Normal s.
Proof.
  intros Hf.
  destruct (correlate_cases message s)
    as [[_ E]|[[E _]|(mid & res & H1 & H2 & H3 & H4 & _)]].
  - unfold falsy_ack in Hf. rewrite E in Hf. discriminate.
  - exact E.
  - unfold falsy_ack in Hf. rewrite H1, H3, H2, H4 in Hf. discriminate.
Qed.

Section WithHandlers.

Variable handler_body : nat -> nat -> jsval -> list hcall * bool.

Local Abbreviation messages msgs :=
  (map (fun m => SockMessage (Some m)) msgs).

Lemma falsy_acks_core (msgs : list jsval) (s : state) :
  forallb falsy_ack msgs = true ->
  core (run handler_body s (messages msgs)) = core s.
Proof.
  revert s. induction msgs as [|m msgs IH]; intros s Hf; [reflexivity|].
  simpl in Hf. apply andb_true_iff in Hf. destruct Hf as [Hm Hrest].
  change (run handler_body s (messages (m :: msgs)))
    with (run handler_body (onmessage handler_body (Some m) s)
              (messages msgs)).
  rewrite (IH _ Hrest). now apply onmessage_core_falsy.
Qed.

(** C10.  A message whose [id] or [result] is falsy (absent, [null], [0],
    the empty string, [false]) is skipped by the confirmation step: the
    state is returned as it is.  Hence after any number of such messages the
    registry is the one before them, no pending id has been cleared, no
    confirmed id has been set, and the test on which [subscribe] resolves
    gives for every address what it gave before; an acknowledgment with
    request id 0 or with subscription id 0 is such a message. *)
Theorem falsy_ack_never_matches :
  (forall message s, falsy_ack message = true ->
                     correlate message s = Normal s)
  /\ (forall msgs s address,
        forallb falsy_ack msgs = true ->
        subscriptions (run handler_body s (messages msgs)) = subscriptions s
        /\ checkSubscription address (run handler_body s (messages msgs))
           = checkSubscription address s)
  /\ (forall result, falsy_ack (JObj [("id"%string, JNum 0);
                                      ("result"%string, result)]) = true)
  /\ (forall id, falsy_ack (JObj [("id"%string, id);
                                  ("result"%string, JNum 0)]) = true).
Proof.
  split; [exact falsy_ack_correlate|]. split; [|split].
  - intros msgs s address Hf.
    pose proof (core_subscriptions _ _ (falsy_acks_core msgs s Hf)) as E.
    split; [exact E|]. unfold checkSubscription. now rewrite E.
  - intros result. reflexivity.
  - intros id. unfold falsy_ack. simpl. now rewrite orb_true_r.
Qed.


Lemma exhausted_run (es : list event) (s : state) :
  forallb (fun e => negb (is_open e)) es = true ->
  maxReconnectAttempts (options_ s) <= reconnectAttempts s ->
  policy (run handler_body s es) = policy s.
Proof.
  revert s. induction es as [|e es IH]; intros s Hno Hmax; [reflexivity|].
  simpl in Hno. apply andb_true_iff in Hno. destruct Hno as [He Hes].
  change (run handler_body s (e :: es))
    with (run handler_body (step handler_body s e) es).
  assert (Hp : policy (step handler_body s e) = policy s).
  { pose proof (policy_step handler_body s e) as P.
    destruct e; try exact P; [discriminate|].
    simpl. destruct (policy_onclose s) as (P1 & P2 & P3 & _).
    apply Z.ltb_ge in Hmax. rewrite Hmax in P2, P3.
    unfold policy. now rewrite P1, P2, P3. }
  rewrite IH; [exact Hp | exact Hes |].
  unfold policy in Hp. injection Hp as -> -> _. exact Hmax.
Qed.

Lemma onclose_flags (s : state) :
  isConnected (onclose s) = false
  /\ connectionPromise (onclose s) = None
  /\ url_accepted (onclose s) = url_accepted s
  /\ next_id (onclose s) = next_id s
  /\ fired (onclose s) = fired s.
Proof.
  unfold onclose, log.
  cbn [reconnectAttempts options_ set_connectionPromise set_isConnected
       set_console].
  destruct (reconnectAttempts s <? maxReconnectAttempts (options_ s));
    cbn; repeat split.
Qed.

Lemma connect_makes_socket (s : state) :
  isConnected s = false ->
  connectionPromise s = None ->
  url_accepted s = true ->
  connect s
  = (set_connectionPromise (Some (next_id s))
       (set_ws (Some (next_id s)) (set_next_id (S (next_id s)) s)),
     Promised (next_id s)).
Proof.
  intros C P U. unfold connect. rewrite C, P.
  cbn [url_accepted set_next_id]. now rewrite U.
Qed.

Lemma connect_fired (s : state) : fired (fst (connect s)) = fired s.
Proof.
  unfold connect. destruct (isConnected s); [reflexivity|].
  destruct (connectionPromise s); [reflexivity|].
  cbn [url_accepted set_next_id]. destruct (url_accepted s); [reflexivity|].
  unfold settle, log. cbn.
  destruct (promise_state (settled s) (next_id s)); reflexivity.
Qed.

(** C4.  The defaults are an interval of 2000 and a maximum of 5.  A closure
    with the attempt counter below the maximum adds one to the counter and
    sets exactly one timer, with the configured interval as delay; a closure
    with the counter at the maximum sets none and leaves the counter.  The
    opening of a socket sets the counter to zero; a closure changes it as
    said; every other event (a call of [connect], a failed attempt's error,
    a timer, a message, ...) leaves counter, options and timers as they
    are.  So once the maximum is reached, as long as no socket opens no
    timer is ever set again, whatever happens.

    The timer a closure sets is the retry: a timer that runs is used up and
    calls [connect()]; run after the closure, with no call in between, it
    finds the manager neither connected nor connecting and makes a new
    socket (when the URL is one the constructor accepts), with a new pending
    promise.  A [connect()] by a caller after a closure does the same,
    whatever the counter. *)
Theorem reconnect_policy :
  make_options None None
  = {| reconnectInterval := 2000; maxReconnectAttempts := 5 |}
  /\ (forall s,
        timers (onclose s)
        = (if reconnectAttempts s <? maxReconnectAttempts (options_ s)
           then timers s ++ [reconnectInterval (options_ s)]
           else timers s)
        /\ reconnectAttempts (onclose s)
           = (if reconnectAttempts s <? maxReconnectAttempts (options_ s)
              then reconnectAttempts s + 1
              else reconnectAttempts s))
  /\ (forall s e,
        match e with
        | SockOpen _ => reconnectAttempts (step handler_body s e) = 0
        | SockClose => step handler_body s e = onclose s
        | _ => reconnectAttempts (step handler_body s e)
               = reconnectAttempts s
               /\ timers (step handler_body s e) = timers s
        end)
  /\ (forall es s,
        forallb (fun e => negb (is_open e)) es = true ->
        maxReconnectAttempts (options_ s) <= reconnectAttempts s ->
        timers (run handler_body s es) = timers s
        /\ reconnectAttempts (run handler_body s es) = reconnectAttempts s)
  /\ (forall s,
        possible s TimerFires = true ->
        fired (step handler_body s TimerFires) = S (fired s)
        /\ step handler_body s TimerFires
           = fst (connect (set_fired (S (fired s)) s)))
  /\ (forall s,
        possible s TimerFires = false ->
        step handler_body s TimerFires = s)
  /\ (forall s,
        reconnectAttempts s < maxReconnectAttempts (options_ s) ->
        (fired s <= List.length (timers s))%nat ->
        url_accepted s = true ->
        possible (onclose s) TimerFires = true
        /\ ws (step handler_body (onclose s) TimerFires) = Some (next_id s)
        /\ connectionPromise (step handler_body (onclose s) TimerFires)
           = Some (next_id s)
        /\ next_id (step handler_body (onclose s) TimerFires)
           = S (next_id s)
        /\ isConnected (step handler_body (onclose s) TimerFires) = false
        /\ promise_state
             (settled (step handler_body (onclose s) TimerFires))
             (next_id s)
           = promise_state (settled s) (next_id s))
  /\ (forall s,
        url_accepted s = true ->
        connect (onclose s)
        = (set_connectionPromise (Some (next_id s))
             (set_ws (Some (next_id s))
                (set_next_id (S (next_id s)) (onclose s))),
           Promised (next_id s))).
Proof.
  split; [reflexivity|]. split; [|split; [|split; [|split; [|split;
    [|split]]]]].
  - intros s. destruct (policy_onclose s) as (_ & P2 & P3 & _). now split.
  - intros s e. pose proof (policy_step handler_body s e) as P.
    destruct e;
      try (destruct (policy_fields _ _ P) as (_ & P2 & P3); now split).
    + apply policy_onopen.
    + reflexivity.
  - intros es s Hno Hmax.
    destruct (policy_fields _ _ (exhausted_run es s Hno Hmax))
      as (_ & P2 & P3).
    now split.
  - intros s Hp. cbn [possible] in Hp. cbn [step]. unfold timer_fires.
    rewrite Hp. split; [|reflexivity].
    now rewrite connect_fired.
  - intros s Hp. cbn [possible] in Hp. cbn [step]. unfold timer_fires.
    now rewrite Hp.
  - intros s Hlt Hf U. apply Z.ltb_lt in Hlt.
    destruct (onclose_flags s) as (F1 & F2 & F3 & F4 & F5).
    destruct (policy_onclose s) as (_ & _ & P3 & _). rewrite Hlt in P3.
    assert (Hp : (fired (onclose s) <? List.length (timers (onclose s)))%nat
                 = true).
    { apply Nat.ltb_lt. rewrite F5, P3, length_app. cbn [List.length]. lia. }
    split; [exact Hp|]. cbn [step]. unfold timer_fires. rewrite Hp.
    rewrite connect_makes_socket;
      [|exact F1 | exact F2 | now rewrite <- F3 in U].
    cbn [fst ws connectionPromise next_id isConnected settled
         set_connectionPromise set_ws set_next_id set_fired].
    rewrite F4, F1. repeat split.
    unfold onclose, log. cbn. now rewrite Hlt.
  - intros s U.
    destruct (onclose_flags s) as (F1 & F2 & F3 & F4 & _).
    rewrite connect_makes_socket; [|exact F1 | exact F2 | now rewrite F3].
    now rewrite F4.
Qed.

Lemma onopen_idle (k : nat) (s : state) :
  awaiting s = [] -> subscriptions s = [] ->
  sent (onopen k s) = sent s /\ subscriptions (onopen k s) = [].
Proof.
  intros Ha Hs. unfold onopen, settle. cbn.
  destruct (promise_state (settled s) k); cbn; rewrite ?Ha, Hs; cbn;
    now split.
Qed.

Lemma connect_idle (s : state) :
  awaiting s = [] -> awaiting (fst (connect s)) = [].
Proof.
  intros Ha. unfold connect, settle, log.
  destruct (isConnected s); [exact Ha|].
  destruct (connectionPromise s); [exact Ha|].
  cbn. destruct (url_accepted s); cbn; [exact Ha|].
  destruct (promise_state (settled s) (next_id s)); cbn; rewrite Ha;
    reflexivity.
Qed.

(** C2 (amended).  [disconnect()] on a manager that has a socket closes it,
    leaves the registry empty, the manager not connected and without
    connection promise.  It does not disarm the close handler: the closure
    that follows sets a reconnection timer exactly when the attempt counter
    is below the maximum, as for any other closure.  When a reconnection
    started by that timer opens, and no [subscribe] was called or left
    suspended meanwhile, nothing is sent: there is nothing to resubscribe. *)
Theorem disconnect_then_close (s : state) (k : nat) :
  ws s = Some k ->
  subscriptions (disconnect s) = []
  /\ isConnected (disconnect s) = false
  /\ connectionPromise (disconnect s) = None
  /\ closing (disconnect s) = closing s ++ [k]
  /\ timers (onclose (disconnect s))
     = (if reconnectAttempts s <? maxReconnectAttempts (options_ s)
        then timers s ++ [reconnectInterval (options_ s)]
        else timers s)
  /\ (forall j,
        awaiting s = [] ->
        sent (run handler_body s
                  [CallDisconnect; SockClose; TimerFires; SockOpen j])
        = sent s
        /\ subscriptions
             (run handler_body s
                  [CallDisconnect; SockClose; TimerFires; SockOpen j])
           = []).
Proof.
  intros Hws.
  assert (D : disconnect s
              = set_subscriptions []
                  (set_connectionPromise None
                     (set_isConnected false
                        (set_closing (closing s ++ [k]) s))))
    by (unfold disconnect; now rewrite Hws).
  repeat split; try (rewrite D; reflexivity).
  - destruct (policy_onclose (disconnect s)) as (_ & _ & P3 & _).
    rewrite P3, D. reflexivity.
  - cbn [run fold_left step].
    set (s2 := onclose (disconnect s)).
    assert (A2 : awaiting s2 = [] /\ subscriptions s2 = []
                 /\ sent s2 = sent s).
    { unfold s2. rewrite D. unfold onclose. cbn.
      destruct (reconnectAttempts s <? maxReconnectAttempts (options_ s));
        cbn; auto. }
    destruct A2 as (A21 & A22 & A23).
    set (s3 := timer_fires s2).
    assert (A3 : awaiting s3 = [] /\ subscriptions s3 = []
                 /\ sent s3 = sent s).
    { unfold s3, timer_fires.
      destruct (fired s2 <? List.length (timers s2))%nat; [|auto].
      destruct (connect_frame (set_fired (S (fired s2)) s2))
        as (E1 & _ & _ & _ & _ & _ & E7 & _).
      rewrite E1, E7. repeat split; try assumption.
      now apply connect_idle. }
    destruct A3 as (A31 & A32 & A33).
    destruct (onopen_idle j s3 A31 A32) as [O1 _]. now rewrite O1.
  - cbn [run fold_left step].
    set (s2 := onclose (disconnect s)).
    assert (A2 : awaiting s2 = [] /\ subscriptions s2 = []).
    { unfold s2. rewrite D. unfold onclose. cbn.
      destruct (reconnectAttempts s <? maxReconnectAttempts (options_ s));
        cbn; auto. }
    destruct A2 as (A21 & A22).
    set (s3 := timer_fires s2).
    assert (A3 : awaiting s3 = [] /\ subscriptions s3 = []).
    { unfold s3, timer_fires.
      destruct (fired s2 <? List.length (timers s2))%nat; [|auto].
      destruct (connect_frame (set_fired (S (fired s2)) s2))
        as (E1 & _).
      rewrite E1. split; [now apply connect_idle | assumption]. }
    destruct A3 as (A31 & A32).
    now destruct (onopen_idle j s3 A31 A32) as [_ O2].
Qed.

(** C9.  In every state of a manager, [unsubscribe(address)] changes nothing
    (no frame, no exception, same registry) when the manager is not
    connected, when the address is not registered, and when its entry has no
    confirmed id; otherwise it hands exactly one [accountUnsubscribe] request
    carrying the confirmed id to the socket and removes the entry at once. *)
Theorem unsubscribe_spec (s : state) (address : string) :
  reachable handler_body s ->
  (isConnected s = false -> unsubscribe address s = s)
  /\ (map_get (subscriptions s) address = None -> unsubscribe address s = s)
  /\ (forall e, map_get (subscriptions s) address = Some e ->
        sub_id e = JNull -> unsubscribe address s = s)
  /\ (forall e, isConnected s = true ->
        map_get (subscriptions s) address = Some e ->
        sub_id e <> JNull ->
        exists k, ws s = Some k
          /\ sent (unsubscribe address s)
             = sent s ++ [(k, request (lastMessageId s + 1)
                                "accountUnsubscribe" [sub_id e])]
          /\ subscriptions (unsubscribe address s)
             = map_delete (subscriptions s) address
          /\ map_get (subscriptions (unsubscribe address s)) address = None).
Proof.
  intros Hr. apply unsubscribe_when_wf. now apply reachable_wf in Hr.
Qed.

(** C7 (amended).  In every state of a manager the registry holds at most
    one entry per address, and [subscribe(address, p)] on a connected manager
    keeps it so: the entry of [address] becomes
    [{ params: p, pendingId: id, id: null }] with [id] the new request id,
    whatever it was.  After that the confirmation step changes the entry of
    [address] only for a message whose [id] is this request id (and whose
    [result] is truthy), and such a message does confirm it.  On a manager
    that is not connected and whose connection attempt is pending, the call
    waits at [await this.connect()]: it leaves the registry as it is, sends
    nothing and takes no request id. *)
Theorem subscribe_replaces_entry (s : state) (address : string) (p : jsval) :
  reachable handler_body s ->
  NoDup (map fst (subscriptions s))
  /\ (isConnected s = true ->
      let p' := match p with JUndefined => default_params | _ => p end in
      let s' := subscribe address p s in
      let id := lastMessageId s + 1 in
      let pending :=
        {| params := p'; pendingId := JNum id; sub_id := JNull |} in
      NoDup (map fst (subscriptions s'))
      /\ map_get (subscriptions s') address = Some pending
      /\ (forall message s'',
            correlate message s' = Normal s'' ->
            map_get (subscriptions s'') address = Some pending
            \/ (get_prop message "id" = Some (JNum id)
                /\ exists res,
                     get_prop message "result" = Some res
                     /\ truthy res = true
                     /\ map_get (subscriptions s'') address
                        = Some {| params := p'; pendingId := JNull;
                                  sub_id := res |}))
      /\ (forall message res,
            get_prop message "id" = Some (JNum id) ->
            get_prop message "result" = Some res ->
            truthy res = true ->
            exists s'',
              correlate message s' = Normal s''
              /\ map_get (subscriptions s'') address
                 = Some {| params := p'; pendingId := JNull;
                           sub_id := res |}))
  /\ (forall k,
        isConnected s = false ->
        connectionPromise s = Some k ->
        promise_state (settled s) k = None ->
        subscriptions (subscribe address p s) = subscriptions s
        /\ sent (subscribe address p s) = sent s
        /\ lastMessageId (subscribe address p s) = lastMessageId s
        /\ awaiting (subscribe address p s)
           = awaiting s
             ++ [(k, (address,
                      match p with JUndefined => default_params | _ => p end))]).
Proof.
  intros Hr. apply reachable_wf in Hr. split; [apply Hr|]. split.
  - intros C. destruct (subscribe_when_wf s address p Hr C)
      as (_ & H2 & H3 & H4 & H5).
    repeat split; assumption.
  - intros k C P S. unfold subscribe, connect. rewrite C, P, S.
    repeat split.
Qed.

End WithHandlers.



(** With the defaults: five closures in a row set five timers of 2000, the
    sixth sets none. *)
Example five_retries_then_stop :
  timers (run quiet_handlers (new_manager true None None)
              [CallConnect; SockOpen 0;
               SockClose; TimerFires; SockClose; TimerFires;
               SockClose; TimerFires; SockClose; TimerFires;
               SockClose; TimerFires])
  = [2000; 2000; 2000; 2000; 2000]
  /\ timers (run quiet_handlers (new_manager true None None)
                 [CallConnect; SockOpen 0;
                  SockClose; TimerFires; SockClose; TimerFires;
                  SockClose; TimerFires; SockClose; TimerFires;
                  SockClose; TimerFires; SockClose; TimerFires;
                  CallConnect; SockClose])
     = [2000; 2000; 2000; 2000; 2000].
Proof. split; reflexivity. Qed.

(** The retry after a closure of the sample manager: the timer of 2000 runs
    and makes socket 1. *)
Lemma reconnect_policy_witness :
  timers (onclose subscribed) = [2000]
  /\ ws (run quiet_handlers subscribed [SockClose; TimerFires])
     = Some 1%nat
  /\ connectionPromise (run quiet_handlers subscribed [SockClose; TimerFires])
     = Some 1%nat.
Proof.
  destruct (reconnect_policy quiet_handlers)
    as (_ & H2 & _ & _ & _ & _ & H7 & _).
  destruct (H2 subscribed) as [T _].
  assert (L : reconnectAttempts subscribed
              < maxReconnectAttempts (options_ subscribed))
    by (vm_compute; reflexivity).
  assert (F : (fired subscribed <= List.length (timers subscribed))%nat)
    by (apply Nat.leb_le; vm_compute; reflexivity).
  destruct (H7 subscribed L F eq_refl) as (_ & W & P & _).
  split; [rewrite T; vm_compute; reflexivity|].
  split; [exact W | exact P].
Defined.

Lemma disconnect_then_close_witness :
  ws subscribed = Some 0%nat
  /\ subscriptions (disconnect subscribed) = []
  /\ timers (onclose (disconnect subscribed)) = [2000]
  /\ sent (run quiet_handlers subscribed
               [CallDisconnect; SockClose; TimerFires; SockOpen 1])
     = sent subscribed.
Proof.
  split; [reflexivity|].
  destruct (disconnect_then_close quiet_handlers subscribed 0 eq_refl)
    as (H1 & _ & _ & _ & H5 & H6).
  split; [exact H1|]. split; [exact H5|].
  exact (proj1 (H6 1%nat eq_refl)).
Defined.

(** C2 as stated fails: after [connect], the opening of the socket and
    [disconnect()], the closure of the socket sets a reconnection timer, and
    when the timer runs a new socket is created. *)
Lemma disconnect_is_followed_by_reconnect :
  closing (run quiet_handlers (new_manager true None None)
               [CallConnect; SockOpen 0; CallDisconnect])
  = [0%nat]
  /\ timers (run quiet_handlers (new_manager true None None)
                 [CallConnect; SockOpen 0; CallDisconnect; SockClose])
     = [2000]
  /\ ws (run quiet_handlers (new_manager true None None)
             [CallConnect; SockOpen 0; CallDisconnect; SockClose;
              TimerFires])
     = Some 1%nat
  /\ isConnected (run quiet_handlers (new_manager true None None)
                      [CallConnect; SockOpen 0; CallDisconnect; SockClose;
                       TimerFires; SockOpen 1])
     = true.
Proof. repeat split. Qed.

(** ** Resubscription on reconnect *)

(** A registry entry is not its own [params] field. *)
Lemma sub_object_is_not_params (e : sub) : sub_object e <> params e.
Proof.
  intros H. apply (f_equal jsize) in H. unfold sub_object in H.
  simpl in H. lia.
Qed.

(** When socket [k] opens with nobody suspended on its promise, one
    [accountSubscribe] request is sent per registered address, in registry
    order, and its second parameter is the whole registry entry. *)
Lemma onopen_resubscribes (k j : nat) (s : state) :
  ws s = Some j ->
  (forall w, In w (awaiting s) -> fst w <> k) ->
  sent (onopen k s)
  = sent s
    ++ requests_from j (lastMessageId s + 1)
         (map (fun ae => (fst ae, sub_object (snd ae))) (subscriptions s)).
Proof.
  intros Hws Hidle. unfold onopen, settle.
  cbn [settled awaiting set_reconnectAttempts set_isConnected log
       set_console].
  rewrite (nobody_waiting k _ Hidle).
  destruct (promise_state (settled s) k); cbn [map app];
    rewrite (resume_all_sent j) by exact Hws; reflexivity.
Qed.

(** C1 at the failing input.  ["A"] was subscribed with the default
    parameters and confirmed with id 777, ["B"] was subscribed and then
    unsubscribed; the connection closes and reconnects on socket 1.  On
    socket 1 exactly one request is sent, for ["A"], and none for ["B"]; its
    second parameter is the registry entry
    [{ params: p, pendingId: null, id: 777 }], not [p]. *)
Theorem resubscribe_sends_registry_entry :
  map_get (subscriptions subscribed) "A"
  = Some {| params := default_params; pendingId := JNull;
            sub_id := JNum 777 |}
  /\ map_get (subscriptions subscribed) "B" = None
  /\ sent_on 1 reconnected
     = [request 4 "accountSubscribe"
          [JStr "A";
           JObj [("params"%string, default_params);
                 ("pendingId"%string, JNull);
                 ("id"%string, JNum 777)]]]
  /\ map_get (subscriptions reconnected) "A"
     = Some {| params := JObj [("params"%string, default_params);
                               ("pendingId"%string, JNull);
                               ("id"%string, JNum 777)];
               pendingId := JNum 4;
               sub_id := JNull |}.
Proof. repeat split. Qed.

Lemma subscribed_reachable : reachable quiet_handlers subscribed.
Proof.
  exists true, None, None,
    [CallSubscribe "A" JUndefined; SockOpen 0; ack 1 777;
     CallSubscribe "B" (JStr "pb"); ack 2 888; CallUnsubscribe "B"].
  split; reflexivity.
Qed.

(** On the sample state: ["B"] is no longer registered, ["A"] is confirmed
    with 777. *)
Lemma unsubscribe_spec_witness :
  reachable quiet_handlers subscribed
  /\ unsubscribe "B" subscribed = subscribed
  /\ sent_on 0 (unsubscribe "A" subscribed)
     = sent_on 0 subscribed
       ++ [request 4 "accountUnsubscribe" [JNum 777]]
  /\ subscriptions (unsubscribe "A" subscribed) = [].
Proof.
  split; [exact subscribed_reachable|].
  destruct (unsubscribe_spec quiet_handlers subscribed "B"
              subscribed_reachable) as (_ & H2 & _).
  split; [apply H2; reflexivity|].
  split; reflexivity.
Defined.

(** A second [subscribe("A", "p2")] on the sample state: the acknowledgment
    of the first request (id 1) is ignored, that of the new one (id 4) is
    honoured. *)
Lemma subscribe_replaces_entry_witness :
  reachable quiet_handlers subscribed
  /\ map_get (subscriptions (subscribe "A" (JStr "p2") subscribed)) "A"
     = Some {| params := JStr "p2"; pendingId := JNum 4; sub_id := JNull |}
  /\ map_get (subscriptions
                (run quiet_handlers (subscribe "A" (JStr "p2") subscribed)
                     [ack 1 555])) "A"
     = Some {| params := JStr "p2"; pendingId := JNum 4; sub_id := JNull |}
  /\ map_get (subscriptions
                (run quiet_handlers (subscribe "A" (JStr "p2") subscribed)
                     [ack 4 999])) "A"
     = Some {| params := JStr "p2"; pendingId := JNull; sub_id := JNum 999 |}.
Proof.
  split; [exact subscribed_reachable|].
  destruct (subscribe_replaces_entry quiet_handlers subscribed "A"
              (JStr "p2") subscribed_reachable) as (_ & H & _).
  destruct (H eq_refl) as (_ & H3 & _).
  split; [exact H3|].
  split; reflexivity.
Defined.

(** C7 as stated fails on a manager that is reconnecting.  The sample
    manager holds a confirmed entry for "A"; its connection closes and the
    retry timer makes socket 1.  [subscribe("A", "p2")] now replaces
    nothing: the entry is what it was.  When socket 1 opens, the waiting
    call runs first (request 4) and the resubscription of the old entry
    after it (request 5): the entry is pending under 5, its stored parameters
    are not "p2", and the acknowledgment of request 4, the caller's, is not
    honoured. *)
Lemma subscribe_while_reconnecting_is_overwritten :
  all_possible quiet_handlers (new_manager true None None)
    [CallSubscribe "A" JUndefined; SockOpen 0; ack 1 777;
     CallSubscribe "B" (JStr "pb"); ack 2 888; CallUnsubscribe "B";
     SockClose; TimerFires; CallSubscribe "A" (JStr "p2"); SockOpen 1;
     ack 4 999] = true
  /\ map_get (subscriptions
                (run quiet_handlers subscribed
                     [SockClose; TimerFires; CallSubscribe "A" (JStr "p2")]))
             "A"
     = Some {| params := default_params; pendingId := JNull;
               sub_id := JNum 777 |}
  /\ option_map pendingId
       (map_get (subscriptions
                   (run quiet_handlers subscribed
                        [SockClose; TimerFires;
                         CallSubscribe "A" (JStr "p2"); SockOpen 1]))
                "A")
     = Some (JNum 5)
  /\ option_map params
       (map_get (subscriptions
                   (run quiet_handlers subscribed
                        [SockClose; TimerFires;
                         CallSubscribe "A" (JStr "p2"); SockOpen 1]))
                "A")
     <> Some (JStr "p2")
  /\ map ManagerViews.frame_id
         (sent_on 1 (run quiet_handlers subscribed
                         [SockClose; TimerFires;
                          CallSubscribe "A" (JStr "p2"); SockOpen 1]))
     = [4; 5]
  /\ checkSubscription "A"
       (run quiet_handlers subscribed
            [SockClose; TimerFires; CallSubscribe "A" (JStr "p2");
             SockOpen 1; ack 4 999])
     = None
  /\ option_map pendingId
       (map_get (subscriptions
                   (run quiet_handlers subscribed
                        [SockClose; TimerFires;
                         CallSubscribe "A" (JStr "p2"); SockOpen 1;
                         ack 4 999]))
                "A")
     = Some (JNum 5).
Proof.
  split; [vm_compute; reflexivity|]. split; [vm_compute; reflexivity|].
  split; [vm_compute; reflexivity|]. split; [vm_compute; discriminate|].
  split; [vm_compute; reflexivity|]. split; vm_compute; reflexivity.
Qed.

(** An acknowledgment that assigns subscription id 0 leaves the request
    pending and [subscribe] unresolved. *)
Example zero_subscription_id_is_ignored :
  checkSubscription "A"
    (run quiet_handlers (new_manager true None None)
         [CallSubscribe "A" JUndefined; SockOpen 0; ack 1 0])
  = None
  /\ map_get (subscriptions
                (run quiet_handlers (new_manager true None None)
                     [CallSubscribe "A" JUndefined; SockOpen 0; ack 1 0]))
             "A"
     = Some {| params := default_params; pendingId := JNum 1;
               sub_id := JNull |}.
Proof. split; reflexivity. Qed.

End ManagerTheorems.

(* ================================================================== *)
(** * Further properties of the connection manager *)
(* ================================================================== *)

Module ManagerLaws.
Import WebSocketManager RegistryFacts ManagerFacts ManagerViews.

Lemma state_eta (s : state) : set_messageHandlers (messageHandlers s) s = s.
Proof. now destruct s. Qed.

Lemma remove_first_absent (h : nat) (l : list nat) :
  ~ In h l -> remove_first h l = l.
Proof.
  induction l as [|x l IH]; simpl; [reflexivity|].
  intros Hn. destruct (Nat.eqb x h) eqn:E.
  - apply Nat.eqb_eq in E. exfalso. apply Hn. now left.
  - rewrite IH; [reflexivity|]. intros Hin. apply Hn. now right.
Qed.

Lemma remove_first_snoc (h : nat) (l : list nat) :
  ~ In h l -> remove_first h (l ++ [h]) = l.
Proof.
  induction l as [|x l IH]; simpl.
  - now rewrite Nat.eqb_refl.
  - intros Hn. destruct (Nat.eqb x h) eqn:E.
    + apply Nat.eqb_eq in E. exfalso. apply Hn. now left.
    + rewrite IH; [reflexivity|]. intros Hin. apply Hn. now right.
Qed.

Lemma remove_first_count (h h' : nat) (l : list nat) :
  count_occ Nat.eq_dec (remove_first h l) h'
  = if Nat.eqb h' h
    then Nat.pred (count_occ Nat.eq_dec l h')
    else count_occ Nat.eq_dec l h'.
Proof.
  induction l as [|x l IH]; simpl.
  - now destruct (Nat.eqb h' h).
  - destruct (Nat.eqb x h) eqn:E.
    + apply Nat.eqb_eq in E. subst x.
      destruct (Nat.eq_dec h h') as [->|Hne].
      * now rewrite Nat.eqb_refl.
      * assert (Hb : Nat.eqb h' h = false)
          by (apply Nat.eqb_neq; congruence).
        now rewrite Hb.
    + simpl. rewrite IH. apply Nat.eqb_neq in E.
      destruct (Nat.eq_dec x h') as [->|Hne]; [|reflexivity].
      assert (Hb : Nat.eqb h' h = false) by (now apply Nat.eqb_neq).
      now rewrite Hb.
Qed.

(** X2.  [connect] is idempotent: a second call, made before any socket
    event, changes nothing and returns the promise the first call returned;
    however often it is called in a row, at most one socket is created. *)
Theorem connect_idempotent
        (hb : nat -> nat -> jsval -> list hcall * bool) (s : state) (n : nat) :
  connect (fst (connect s)) = (fst (connect s), snd (connect s))
  /\ run hb s (repeat CallConnect (S n)) = fst (connect s)
  /\ (next_id (run hb s (repeat CallConnect (S n))) <= S (next_id s))%nat.
Proof.
  assert (H1 : connect (fst (connect s)) = (fst (connect s), snd (connect s))).
  { unfold connect at 2 3 4.
    destruct (isConnected s) eqn:C;
      [cbn [fst snd]; unfold connect; now rewrite C|].
    destruct (connectionPromise s) as [k|] eqn:P;
      [cbn [fst snd]; unfold connect; now rewrite C, P|].
    cbn [url_accepted set_next_id].
    destruct (url_accepted s); cbn [fst snd].
    - unfold connect. cbn. now rewrite C.
    - unfold connect, settle, log. cbn.
      destruct (promise_state (settled s) (next_id s)); cbn; now rewrite C. }
  assert (H2 : run hb s (repeat CallConnect (S n)) = fst (connect s)).
  { assert (G : forall m st,
               fst (connect st) = st ->
               run hb st (repeat CallConnect m) = st).
    { induction m as [|m IHm]; intros st Hst; [reflexivity|].
      cbn [repeat]. unfold run. cbn [fold_left step]. rewrite Hst.
      now apply IHm. }
    cbn [repeat]. unfold run. cbn [fold_left step].
    apply G. now rewrite H1. }
  split; [exact H1|]. split; [exact H2|]. rewrite H2.
  - unfold connect.
    destruct (isConnected s); [cbn; lia|].
    destruct (connectionPromise s); [cbn; lia|].
    cbn [url_accepted set_next_id].
    destruct (url_accepted s); cbn; [lia|].
    unfold settle, log. cbn.
    destruct (promise_state (settled s) (next_id s)); cbn; lia.
Qed.

(** X5.  The function [onMessage] returns removes the first occurrence of
    its handler and nothing else: the handler is registered once less, every
    other handler as often as before.  Called when the handler is not
    registered (a second call, for one) it changes nothing; called right
    after the registration of a handler that was not registered before, it
    gives back the state before the registration. *)
Theorem remover_removes_one (h : nat) (s : state) :
  (forall h',
     count_occ Nat.eq_dec (messageHandlers (remove_handler h s)) h'
     = if Nat.eqb h' h
       then Nat.pred (count_occ Nat.eq_dec (messageHandlers s) h')
       else count_occ Nat.eq_dec (messageHandlers s) h')
  /\ (~ In h (messageHandlers s) -> remove_handler h s = s)
  /\ (~ In h (messageHandlers s) -> remove_handler h (onMessage h s) = s)
  /\ (count_occ Nat.eq_dec (messageHandlers s) h = 1%nat ->
      remove_handler h (remove_handler h s) = remove_handler h s).
Proof.
  split; [|split; [|split]].
  - intros h'. apply remove_first_count.
  - intros Hn. unfold remove_handler.
    rewrite remove_first_absent by exact Hn. apply state_eta.
  - intros Hn. unfold remove_handler, onMessage.
    cbn [messageHandlers set_messageHandlers].
    rewrite remove_first_snoc by exact Hn. now destruct s.
  - intros Hc.
    assert (Hn : ~ In h (messageHandlers (remove_handler h s))).
    { apply (count_occ_not_In Nat.eq_dec).
      unfold remove_handler. cbn [messageHandlers set_messageHandlers].
      rewrite remove_first_count, Nat.eqb_refl, Hc. reflexivity. }
    unfold remove_handler at 1.
    rewrite remove_first_absent by exact Hn. apply state_eta.
Qed.

(** ** Request ids and entry states *)

Lemma increasing_above (lo : Z) (l : list Z) :
  increasing lo l -> Forall (fun y => lo < y) l.
Proof.
  revert lo. induction l as [|x l IH]; intros lo H; [constructor|].
  destruct H as [H1 H2]. constructor; [exact H1|].
  apply Forall_impl with (P := fun y => x < y); [intros; lia|].
  now apply IH.
Qed.

Lemma increasing_snoc (lo x : Z) (l : list Z) :
  increasing lo l -> lo < x -> Forall (fun y => y < x) l ->
  increasing lo (l ++ [x]).
Proof.
  revert lo. induction l as [|y l IH]; intros lo H Hx Hl; simpl.
  - now split.
  - destruct H as [H1 H2]. inversion Hl; subst.
    split; [exact H1|]. now apply IH.
Qed.

Lemma increasing_nodup (lo : Z) (l : list Z) : increasing lo l -> NoDup l.
Proof.
  revert lo. induction l as [|x l IH]; intros lo H; [constructor|].
  destruct H as [H1 H2]. constructor; [|now apply IH with x].
  intros Hin. pose proof (increasing_above x l H2) as Ha.
  rewrite Forall_forall in Ha. specialize (Ha x Hin). lia.
Qed.

Lemma frame_id_request (id : Z) (method : string) (args : list jsval) :
  frame_id (request id method args) = id.
Proof. reflexivity. Qed.

Lemma sound_same (s s' : state) :
  sent s' = sent s -> lastMessageId s' = lastMessageId s ->
  subscriptions s' = subscriptions s -> sound s -> sound s'.
Proof.
  unfold sound, sent_ids. intros -> -> ->. tauto.
Qed.

Lemma sound_core (s s' : state) : core s = core s' -> sound s -> sound s'.
Proof.
  unfold core. intros E.
  injection E as _ _ _ _ Esub _ _ Elast _ _ _ _ _ _ Esent.
  apply sound_same; congruence.
Qed.

Lemma is_pending_later (last : Z) (e : sub) :
  is_pending last e -> is_pending (last + 1) e.
Proof.
  intros (n & Hn & H1 & H2). exists n. repeat split; try assumption; lia.
Qed.

Lemma sound_bump (s : state) (ids : list (nat * jsval)) (m : registry) :
  sound s ->
  (ids = [] \/ exists k f, ids = [(k, f)]
                           /\ frame_id f = lastMessageId s + 1) ->
  (forall a e, In (a, e) m ->
     In (a, e) (subscriptions s)
     \/ is_pending (lastMessageId s + 1) e \/ is_confirmed e) ->
  sound (set_subscriptions m
           (set_sent (sent s ++ ids)
              (set_lastMessageId (lastMessageId s + 1) s))).
Proof.
  intros (H0 & H1 & H2 & H3) Hids Hm. unfold sound, sent_ids. cbn.
  split; [lia|]. rewrite map_app.
  assert (Hlt : Forall (fun y => y < lastMessageId s + 1)
                       (map (fun f => frame_id (snd f)) (sent s))).
  { apply Forall_impl with (P := fun y => y <= lastMessageId s);
      [intros; lia | exact H2]. }
  assert (Hle : Forall (fun y => y <= lastMessageId s + 1)
                       (map (fun f => frame_id (snd f)) (sent s))).
  { apply Forall_impl with (P := fun y => y <= lastMessageId s);
      [intros; lia | exact H2]. }
  split; [|split].
  - destruct Hids as [->|(k & f & -> & Hf)]; simpl.
    + now rewrite app_nil_r.
    + rewrite Hf. apply increasing_snoc; [exact H1 | lia | exact Hlt].
  - apply Forall_app. split; [exact Hle|].
    destruct Hids as [->|(k & f & -> & Hf)]; simpl; [constructor|].
    rewrite Hf. repeat constructor. lia.
  - intros a e Hin. destruct (Hm a e Hin) as [Hold|Hnew]; [|exact Hnew].
    destruct (H3 a e Hold) as [Hp|Hc]; [left|now right].
    now apply is_pending_later.
Qed.

Lemma sound_subscribe_resume (a : string) (p : jsval) (s : state) :
  sound s -> sound (subscribe_resume a p s).
Proof.
  intros Hs.
  assert (Hm : forall x e,
             In (x, e) (map_set (subscriptions s) a
                          {| params := p;
                             pendingId := JNum (lastMessageId s + 1);
                             sub_id := JNull |}) ->
             In (x, e) (subscriptions s)
             \/ is_pending (lastMessageId s + 1) e \/ is_confirmed e).
  { intros x e Hin. apply in_map_set in Hin.
    destruct Hin as [[_ ->]|Hin]; [|now left].
    right. left. exists (lastMessageId s + 1).
    destruct Hs as (H0 & _). repeat split; try reflexivity; lia. }
  unfold subscribe_resume, ws_send.
  cbn [ws set_subscriptions set_lastMessageId].
  destruct (ws s) as [k|] eqn:W.
  - pose proof (sound_bump s
                  [(k, request (lastMessageId s + 1) "accountSubscribe"
                         [JStr a; p])] _ Hs
                  (or_intror (ex_intro _ k (ex_intro _ _
                     (conj eq_refl (frame_id_request _ _ _))))) Hm) as Hb.
    eapply sound_same; [| | |exact Hb]; reflexivity.
  - pose proof (sound_bump s [] _ Hs (or_introl eq_refl) Hm) as Hb.
    eapply sound_same; [| | |exact Hb]; cbn;
      rewrite ?app_nil_r; reflexivity.
Qed.

Lemma sound_resume_all (l : list (string * jsval)) (s : state) :
  sound s ->
  sound (fold_left (fun st ap => subscribe_resume (fst ap) (snd ap) st) l s).
Proof.
  revert s. induction l as [|[a p] l IH]; intros s Hs; simpl; [exact Hs|].
  apply IH. now apply sound_subscribe_resume.
Qed.

Lemma sound_unsubscribe (a : string) (s : state) :
  sound s -> sound (unsubscribe a s).
Proof.
  intros Hs. unfold unsubscribe.
  destruct (negb (isConnected s) || negb (map_has (subscriptions s) a));
    [exact Hs|].
  destruct (map_get (subscriptions s) a) as [e|]; [|exact Hs].
  destruct (negb (truthy (sub_id e))); [exact Hs|].
  unfold ws_send. cbn [ws set_lastMessageId].
  destruct (ws s) as [k|] eqn:W.
  - pose proof (sound_bump s
                  [(k, request (lastMessageId s + 1) "accountUnsubscribe"
                         [sub_id e])]
                  (map_delete (subscriptions s) a) Hs
                  (or_intror (ex_intro _ k (ex_intro _ _
                     (conj eq_refl (frame_id_request _ _ _)))))) as Hb.
    eapply sound_same; [| | |apply Hb]; try reflexivity.
    intros x e' Hin. left. now apply in_map_delete in Hin.
  - pose proof (sound_bump s [] (subscriptions s) Hs (or_introl eq_refl))
      as Hb.
    eapply sound_same; [| | |apply Hb]; cbn; rewrite ?app_nil_r;
      try reflexivity.
    intros x e' Hin. now left.
Qed.

Lemma sound_confirm (mid res : jsval) (s : state) :
  truthy res = true -> sound s ->
  sound (set_subscriptions (confirm_first mid res (subscriptions s)) s).
Proof.
  intros Hres (H0 & H1 & H2 & H3). unfold sound, sent_ids. cbn.
  repeat split; try assumption.
  intros a e Hin. apply in_confirm_first in Hin.
  destruct Hin as [Hin|(e0 & _ & ->)]; [now apply H3 with a|].
  right. now split.
Qed.

Lemma sound_new_manager (url_ok : bool) (gi gm : option Z) :
  sound (new_manager url_ok gi gm).
Proof.
  unfold sound, sent_ids. cbn.
  repeat split; try constructor; try lia; try (intros a e []).
Qed.

Lemma sound_step (hb : nat -> nat -> jsval -> list hcall * bool)
      (s : state) (e : event) :
  sound s -> sound (step hb s e).
Proof.
  intros Hs. destruct e; cbn [step].
  - destruct (connect_frame s) as (E1 & E2 & _ & _ & _ & _ & E7 & _).
    now apply (sound_same s).
  - unfold subscribe.
    destruct (connect_frame s) as (E1 & E2 & _ & _ & _ & _ & E7 & _).
    assert (Hc : sound (fst (connect s))) by now apply (sound_same s).
    destruct (connect s) as [s1 aw]. cbn [fst] in Hc.
    destruct aw as [|k]; [now apply sound_subscribe_resume|].
    destruct (promise_state (settled s1) k) as [[|]|];
      [now apply sound_subscribe_resume | exact Hc |].
    now apply (sound_same s1).
  - now apply sound_unsubscribe.
  - now apply (sound_same s).
  - now apply (sound_same s).
  - unfold disconnect. destruct (ws s); [|exact Hs].
    destruct Hs as (H0 & H1 & H2 & _). unfold sound, sent_ids. cbn.
    repeat split; try assumption. intros a e [].
  - unfold onopen.
    destruct (settle_frame k true
                (set_reconnectAttempts 0
                   (set_isConnected true
                      (log "WebSocket connection established" s))))
      as (F1 & F2 & _ & _ & _ & _ & _ & F8 & _).
    destruct (settle k true _) as [woken s3]. cbn [snd] in F1, F2, F8.
    apply sound_resume_all. now apply (sound_same s).
  - unfold onmessage, onmessage_try. destruct data as [message|];
      [|now apply (sound_same s)].
    destruct (correlate_cases message s)
      as [[E _]|[[E _]|(mid & res & _ & _ & _ & H4 & E)]];
      rewrite E; cbn [bind].
    + now apply (sound_same s).
    + eapply sound_core; [symmetry; apply dispatch_core | exact Hs].
    + eapply sound_core; [symmetry; apply dispatch_core|].
      now apply sound_confirm.
  - unfold onerror.
    destruct (negb (isConnected (log "WebSocket error" s)));
      [|now apply (sound_same s)].
    destruct (settle_frame k false (log "WebSocket error" s))
      as (F1 & F2 & _ & _ & _ & _ & _ & F8 & _).
    now apply (sound_same s).
  - unfold onclose. cbn.
    destruct (reconnectAttempts s <? maxReconnectAttempts (options_ s));
      now apply (sound_same s).
  - unfold timer_fires.
    destruct (fired s <? List.length (timers s))%nat; [|exact Hs].
    destruct (connect_frame (set_fired (S (fired s)) s))
      as (E1 & E2 & _ & _ & _ & _ & E7 & _).
    now apply (sound_same s).
Qed.

Lemma sound_run (hb : nat -> nat -> jsval -> list hcall * bool)
      (es : list event) (s : state) :
  sound s -> sound (run hb s es).
Proof.
  revert s. induction es as [|e es IH]; intros s Hs; [exact Hs|].
  apply IH. now apply sound_step.
Qed.

(** X3.  Whatever happens to a manager after its construction, the request
    ids of the frames it has handed to the socket go strictly up from 1 in
    the order of sending, none is above the counter [lastMessageId], and so
    no two frames carry the same id. *)
Theorem request_ids_increase
        (hb : nat -> nat -> jsval -> list hcall * bool)
        (url_ok : bool) (gi gm : option Z) (es : list event) :
  increasing 0 (sent_ids (run hb (new_manager url_ok gi gm) es))
  /\ Forall (fun y => y <= lastMessageId (run hb (new_manager url_ok gi gm) es))
            (sent_ids (run hb (new_manager url_ok gi gm) es))
  /\ NoDup (sent_ids (run hb (new_manager url_ok gi gm) es)).
Proof.
  destruct (sound_run hb es _ (sound_new_manager url_ok gi gm))
    as (_ & H1 & H2 & _).
  split; [exact H1|]. split; [exact H2|]. now apply increasing_nodup with 0.
Qed.

(** X4.  Whatever happens to a manager after its construction, an entry of
    the registry is in one of two states: pending, with a request id that
    was issued in [pendingId] and [null] in [id], and then the promise of
    [subscribe] does not resolve; or confirmed, with [null] in [pendingId]
    and a truthy [id], with which that promise resolves.  For an address
    without entry the promise does not resolve. *)
Theorem entry_is_pending_or_confirmed
        (hb : nat -> nat -> jsval -> list hcall * bool)
        (url_ok : bool) (gi gm : option Z) (es : list event)
        (address : string) :
  match map_get (subscriptions (run hb (new_manager url_ok gi gm) es))
                address with
  | Some e =>
      (is_pending (lastMessageId (run hb (new_manager url_ok gi gm) es)) e
       /\ checkSubscription address (run hb (new_manager url_ok gi gm) es)
          = None)
      \/ (is_confirmed e
          /\ checkSubscription address (run hb (new_manager url_ok gi gm) es)
             = Some (sub_id e))
  | None =>
      checkSubscription address (run hb (new_manager url_ok gi gm) es) = None
  end.
Proof.
  destruct (sound_run hb es _ (sound_new_manager url_ok gi gm))
    as (_ & _ & _ & H3).
  unfold checkSubscription.
  destruct (map_get (subscriptions (run hb (new_manager url_ok gi gm) es))
                    address) as [e|] eqn:G; [|reflexivity].
  destruct (H3 address e (map_get_in _ _ _ G)) as [Hp|Hc].
  - left. split; [exact Hp|]. destruct Hp as (n & _ & _ & ->). reflexivity.
  - right. split; [exact Hc|]. destruct Hc as [_ ->]. reflexivity.
Qed.

(** ** The retry budget *)

Lemma retries_exact (hb : nat -> nat -> jsval -> list hcall * bool)
      (es : list event) (s : state) :
  forallb (fun e => negb (is_open e)) es = true ->
  timers (run hb s es)
  = timers s
    ++ repeat (reconnectInterval (options_ s))
              (Z.to_nat (Z.min (closures es) (retry_budget s))).
Proof.
  revert s. induction es as [|e es IH]; intros s Hno.
  - unfold run. cbn [fold_left closures].
    rewrite Z.min_l by (unfold retry_budget; lia).
    change (Z.to_nat 0) with 0%nat. cbn [repeat]. now rewrite app_nil_r.
  - cbn [forallb] in Hno. apply andb_true_iff in Hno.
    destruct Hno as [He Hes].
    change (run hb s (e :: es)) with (run hb (step hb s e) es).
    rewrite (IH _ Hes).
    assert (Hc : 0 <= closures es).
    { clear. induction es as [|e es IH]; cbn [closures]; [lia|].
      destruct e; lia. }
    pose proof (policy_step hb s e) as P.
    destruct e; try discriminate;
      try (destruct (policy_fields _ _ P) as (P1 & P2 & P3);
           unfold retry_budget; cbn [closures];
           now rewrite P1, P2, P3).
    cbn [step closures].
    destruct (policy_onclose s) as (P1 & P2 & P3 & _).
    unfold retry_budget. rewrite P1, P2, P3.
    destruct (reconnectAttempts s <? maxReconnectAttempts (options_ s))
      eqn:L.
    + apply Z.ltb_lt in L. rewrite <- app_assoc. f_equal.
      replace (Z.to_nat
                 (Z.min (1 + closures es)
                    (Z.max 0 (maxReconnectAttempts (options_ s)
                              - reconnectAttempts s))))
        with (S (Z.to_nat
                   (Z.min (closures es)
                      (Z.max 0 (maxReconnectAttempts (options_ s)
                                - (reconnectAttempts s + 1))))))
        by lia.
      reflexivity.
    + apply Z.ltb_ge in L. do 2 f_equal. lia.
Qed.

(** X6.  Between two openings of a socket the close handler sets exactly as
    many reconnection timers as there are closures, up to the retry budget
    (the maximum minus the attempt counter, at least zero), whatever else
    happens in between; every one of them has the configured interval as its
    delay. *)
Theorem retries_within_budget
        (hb : nat -> nat -> jsval -> list hcall * bool)
        (es : list event) (s : state) :
  forallb (fun e => negb (is_open e)) es = true ->
  timers (run hb s es)
  = timers s
    ++ repeat (reconnectInterval (options_ s))
              (Z.to_nat (Z.min (closures es) (retry_budget s)))
  /\ Z.of_nat (List.length (timers (run hb s es)))
     <= Z.of_nat (List.length (timers s)) + retry_budget s.
Proof.
  intros Hno. rewrite (retries_exact hb es s Hno). split; [reflexivity|].
  rewrite length_app, repeat_length. unfold retry_budget. lia.
Qed.

(** ** A manager whose URL the [WebSocket] constructor rejects *)

Lemma promise_state_cons (l : list (nat * bool)) (k j : nat) (b : bool) :
  promise_state ((k, b) :: l) j
  = if Nat.eqb k j then Some b else promise_state l j.
Proof. reflexivity. Qed.

Lemma socketless_connect (s : state) :
  socketless s -> socketless (fst (connect s))
                  /\ exists k, snd (connect s) = Promised k
                        /\ promise_state (settled (fst (connect s))) k
                           = Some false.
Proof.
  intros (U & W & C & S & T & A & M & L & R & P). unfold connect.
  rewrite C. destruct (connectionPromise s) as [k|] eqn:CP.
  - split; [unfold socketless; cbn [fst]; repeat split; try assumption;
            now rewrite CP in *|].
    exists k. split; [reflexivity | now apply P].
  - cbn [url_accepted set_next_id]. rewrite U. unfold settle, log. cbn.
    destruct (promise_state (settled s) (next_id s)) as [b|] eqn:PS; cbn.
    + pose proof (R _ _ PS) as ->.
      split; [|exists (next_id s); split; [reflexivity | exact PS]].
      unfold socketless. cbn. repeat split; try assumption.
      intros k [= <-]. exact PS.
    + split; [|exists (next_id s); split; [reflexivity|];
               now rewrite Nat.eqb_refl].
      unfold socketless. cbn. rewrite A. repeat split; try assumption.
      * intros k b. destruct (Nat.eqb (next_id s) k); [congruence|].
        apply R.
      * intros k [= <-]. now rewrite Nat.eqb_refl.
Qed.

Lemma socketless_step (hb : nat -> nat -> jsval -> list hcall * bool)
      (s : state) (e : event) :
  possible s e = true -> socketless s -> socketless (step hb s e).
Proof.
  intros Hp Hs.
  assert (Hs' := Hs). destruct Hs' as (U & W & C & S & T & A & M & L & R & P).
  destruct e; cbn [step]; cbn [possible] in Hp;
    try (rewrite W in Hp; discriminate).
  - now apply socketless_connect.
  - unfold subscribe.
    destruct (socketless_connect s Hs) as (Hc & k & Hk & Hrej).
    destruct (connect s) as [s1 aw]. cbn [fst snd] in *. subst aw.
    now rewrite Hrej.
  - unfold unsubscribe. now rewrite C.
  - unfold socketless, onMessage. cbn. repeat split; assumption.
  - unfold socketless, remove_handler. cbn. repeat split; assumption.
  - unfold disconnect. now rewrite W.
  - rewrite M in Hp. discriminate.
Qed.

(** X7.  When the [WebSocket] constructor rejects the URL, the manager never
    gets anywhere: whatever is called on it, it has no socket, is never
    connected, registers no subscription, hands no frame to a socket, issues
    no request id and sets no reconnection timer; every [connect] returns
    the promise rejected by the first one. *)
Theorem rejected_url_never_connects
        (hb : nat -> nat -> jsval -> list hcall * bool)
        (gi gm : option Z) (es : list event) :
  all_possible hb (new_manager false gi gm) es = true ->
  ws (run hb (new_manager false gi gm) es) = None
  /\ isConnected (run hb (new_manager false gi gm) es) = false
  /\ subscriptions (run hb (new_manager false gi gm) es) = []
  /\ sent (run hb (new_manager false gi gm) es) = []
  /\ timers (run hb (new_manager false gi gm) es) = []
  /\ lastMessageId (run hb (new_manager false gi gm) es) = 0
  /\ (forall k,
        connectionPromise (run hb (new_manager false gi gm) es) = Some k ->
        promise_state (settled (run hb (new_manager false gi gm) es)) k
        = Some false).
Proof.
  intros Hp.
  assert (H : socketless (run hb (new_manager false gi gm) es)).
  { assert (H0 : socketless (new_manager false gi gm)).
    { unfold socketless. cbn. repeat split; discriminate. }
    revert Hp H0. generalize (new_manager false gi gm).
    induction es as [|e es IH]; intros s Hp Hs; [exact Hs|].
    cbn [all_possible] in Hp. apply andb_true_iff in Hp.
    destruct Hp as [Hp1 Hp2].
    change (run hb s (e :: es)) with (run hb (step hb s e) es).
    apply IH; [exact Hp2 | now apply socketless_step]. }
  destruct H as (U & W & C & S & T & A & M & L & R & P).
  repeat split; assumption.
Qed.

Lemma rejected_url_never_connects_witness :
  all_possible quiet_handlers (new_manager false None None)
    [CallSubscribe "A" JUndefined; CallConnect; CallUnsubscribe "A";
     CallDisconnect; CallSubscribe "B" JUndefined] = true
  /\ sent (run quiet_handlers (new_manager false None None)
               [CallSubscribe "A" JUndefined; CallConnect;
                CallUnsubscribe "A"; CallDisconnect;
                CallSubscribe "B" JUndefined]) = []
  /\ subscriptions (run quiet_handlers (new_manager false None None)
               [CallSubscribe "A" JUndefined; CallConnect;
                CallUnsubscribe "A"; CallDisconnect;
                CallSubscribe "B" JUndefined]) = [].
Proof.
  split; [reflexivity|].
  destruct (rejected_url_never_connects quiet_handlers None None
              [CallSubscribe "A" JUndefined; CallConnect;
               CallUnsubscribe "A"; CallDisconnect;
               CallSubscribe "B" JUndefined] eq_refl)
    as (_ & _ & H3 & H4 & _).
  split; [exact H4 | exact H3].
Defined.

Lemma retries_within_budget_witness :
  timers (run quiet_handlers
              (run quiet_handlers (new_manager true None (Some 3))
                   [CallConnect; SockOpen 0])
              [SockClose; TimerFires; SockError 1; SockClose; CallConnect;
               SockClose; TimerFires; SockClose; SockClose])
  = [2000; 2000; 2000].
Proof.
  exact (proj1 (retries_within_budget quiet_handlers
                  [SockClose; TimerFires; SockError 1; SockClose;
                   CallConnect; SockClose; TimerFires; SockClose; SockClose]
                  (run quiet_handlers (new_manager true None (Some 3))
                       [CallConnect; SockOpen 0])
                  eq_refl)).
Defined.

(** ** Subscribing while the connection is being made, and reconnection *)

Lemma resume_all_counter (l : list (string * jsval)) (s : state) :
  lastMessageId
    (fold_left (fun st ap => subscribe_resume (fst ap) (snd ap) st) l s)
  = lastMessageId s + Z.of_nat (List.length l)
  /\ isConnected
       (fold_left (fun st ap => subscribe_resume (fst ap) (snd ap) st) l s)
     = isConnected s.
Proof.
  revert s. induction l as [|[a p] l IH]; intros s.
  - cbn. split; [lia | reflexivity].
  - cbn [fold_left fst snd]. destruct (IH (subscribe_resume a p s)) as [I1 I2].
    destruct (subscribe_resume_frame a p s) as (E1 & _ & E3 & _).
    rewrite I1, I2, E1, E3. split; [|reflexivity].
    cbn [List.length]. lia.
Qed.

(** X8.  A [subscribe] called while the connection attempt is still pending
    registers nothing and sends nothing; it waits.  When the socket of that
    attempt opens, the waiting calls are carried out in the order in which
    they were made, each with the next request id, and the entries already
    in the registry are subscribed again after them. *)
Theorem subscribe_while_connecting (s : state) (k j : nat) (a : string)
        (p : jsval) :
  isConnected s = false ->
  connectionPromise s = Some k ->
  promise_state (settled s) k = None ->
  ws s = Some j ->
  subscriptions (subscribe a p s) = subscriptions s
  /\ sent (subscribe a p s) = sent s
  /\ lastMessageId (subscribe a p s) = lastMessageId s
  /\ sent (onopen k (subscribe a p s))
     = sent s
       ++ requests_from j (lastMessageId s + 1)
            (map snd (filter (waiting_on k) (awaiting s))
             ++ [(a, match p with JUndefined => default_params | _ => p end)]
             ++ map (fun ae => (fst ae, sub_object (snd ae)))
                    (subscriptions s)).
Proof.
  intros C CP PS W.
  assert (E : subscribe a p s
              = set_awaiting
                  (awaiting s
                   ++ [(k, (a, match p with
                               | JUndefined => default_params
                               | _ => p
                               end))]) s).
  { unfold subscribe, connect. rewrite C, CP. cbn [settled].
    now rewrite PS. }
  rewrite E. repeat split.
  unfold onopen, settle. cbn. rewrite PS. cbn.
  rewrite (resume_all_sent j) by exact W. cbn.
  rewrite filter_app, map_app. cbn [filter]. unfold waiting_on at 2.
  cbn [fst]. rewrite Nat.eqb_refl. cbn [map snd].
  now rewrite <- app_assoc.
Qed.

Lemma subscribe_while_connecting_witness :
  sent (run quiet_handlers (new_manager true None None)
            [CallConnect; CallSubscribe "A" JUndefined;
             CallSubscribe "B" (JStr "pb")])
  = []
  /\ sent (run quiet_handlers (new_manager true None None)
               [CallConnect; CallSubscribe "A" JUndefined;
                CallSubscribe "B" (JStr "pb"); SockOpen 0])
     = [(0%nat, request 1 "accountSubscribe" [JStr "A"; default_params]);
        (0%nat, request 2 "accountSubscribe" [JStr "B"; JStr "pb"])].
Proof.
  destruct (subscribe_while_connecting
              (run quiet_handlers (new_manager true None None)
                   [CallConnect; CallSubscribe "A" JUndefined])
              0 0 "B" (JStr "pb") eq_refl eq_refl eq_refl eq_refl)
    as (_ & H2 & _ & H4).
  split; [exact H2 | exact H4].
Defined.

Lemma map_set_middle (pre rest : registry) (a : string) (e v : sub) :
  ~ In a (map fst pre) ->
  map_set (pre ++ (a, e) :: rest) a v = pre ++ (a, v) :: rest.
Proof.
  induction pre as [|[k x] pre IH]; intros Hn; simpl.
  - now rewrite String.eqb_refl.
  - destruct (String.eqb k a) eqn:E.
    + apply String.eqb_eq in E. subst k. exfalso. apply Hn. now left.
    + rewrite IH; [reflexivity|]. intros Hin. apply Hn. now right.
Qed.

Lemma renumbered_keys (id : Z) (m : registry) :
  map fst (renumbered id m) = map fst m.
Proof.
  revert id. induction m as [|[a e] m IH]; intros id; simpl; [reflexivity|].
  now rewrite IH.
Qed.

Lemma resume_all_registry (m pre : registry) (s : state) :
  subscriptions s = pre ++ m ->
  NoDup (map fst (pre ++ m)) ->
  subscriptions
    (fold_left (fun st ap => subscribe_resume (fst ap) (snd ap) st)
               (map (fun ae => (fst ae, sub_object (snd ae))) m) s)
  = pre ++ renumbered (lastMessageId s + 1) m.
Proof.
  revert pre s. induction m as [|[a e] m IH]; intros pre s Hs Hnd.
  - cbn. exact Hs.
  - cbn [map fold_left fst snd renumbered].
    destruct (subscribe_resume_frame a (sub_object e) s) as (E1 & E2 & _).
    assert (Hn : ~ In a (map fst pre)).
    { rewrite map_app in Hnd. cbn [map fst] in Hnd.
      apply NoDup_remove_2 in Hnd. intros Hin. apply Hnd.
      apply in_or_app. now left. }
    rewrite (IH (pre ++ [(a, {| params := sub_object e;
                                pendingId := JNum (lastMessageId s + 1);
                                sub_id := JNull |})])).
    + rewrite E1, <- app_assoc. reflexivity.
    + rewrite E2, Hs, map_set_middle by exact Hn.
      now rewrite <- app_assoc.
    + rewrite <- app_assoc. cbn [app].
      rewrite map_app in *. exact Hnd.
Qed.

Lemma onopen_form (k : nat) (s : state) :
  (forall w, In w (awaiting s) -> fst w <> k) ->
  exists s3,
    onopen k s
    = fold_left (fun st ap => subscribe_resume (fst ap) (snd ap) st)
                (map (fun ae => (fst ae, sub_object (snd ae)))
                     (subscriptions s)) s3
    /\ subscriptions s3 = subscriptions s
    /\ lastMessageId s3 = lastMessageId s
    /\ isConnected s3 = true.
Proof.
  intros Hidle. unfold onopen, settle.
  cbn [settled awaiting set_reconnectAttempts set_isConnected log
       set_console].
  rewrite (nobody_waiting k _ Hidle).
  destruct (promise_state (settled s) k); cbn [map app];
    eexists; (split; [reflexivity|]); cbn; repeat split.
Qed.

(** X9.  When a socket opens, with nobody waiting on its promise, every
    address of the registry is subscribed again, once and in registry order,
    with request ids that follow the counter; afterwards the registry holds
    the same addresses in the same order, every entry is pending again (the
    confirmed id of the old connection is gone) and has the old entry as
    its [params], and the manager is connected. *)
Theorem reconnect_resubscribes
        (hb : nat -> nat -> jsval -> list hcall * bool)
        (s : state) (k j : nat) :
  reachable hb s ->
  ws s = Some j ->
  (forall w, In w (awaiting s) -> fst w <> k) ->
  sent (onopen k s)
  = sent s
    ++ requests_from j (lastMessageId s + 1)
         (map (fun ae => (fst ae, sub_object (snd ae))) (subscriptions s))
  /\ subscriptions (onopen k s)
     = renumbered (lastMessageId s + 1) (subscriptions s)
  /\ map fst (subscriptions (onopen k s)) = map fst (subscriptions s)
  /\ lastMessageId (onopen k s)
     = lastMessageId s + Z.of_nat (List.length (subscriptions s))
  /\ isConnected (onopen k s) = true.
Proof.
  intros Hr W Hidle. apply reachable_wf in Hr. destruct Hr as [Hreg _].
  destruct (onopen_form k s Hidle) as (s3 & E & F1 & F2 & F3).
  assert (S1 : subscriptions (onopen k s)
               = renumbered (lastMessageId s + 1) (subscriptions s)).
  { rewrite E, (resume_all_registry (subscriptions s) [] s3);
      [now rewrite F2 | exact F1 | apply Hreg]. }
  destruct (resume_all_counter
              (map (fun ae => (fst ae, sub_object (snd ae)))
                   (subscriptions s)) s3) as [C1 C2].
  split; [now apply ManagerTheorems.onopen_resubscribes|].
  split; [exact S1|]. split; [rewrite S1; apply renumbered_keys|].
  rewrite E, C1, C2, F2, F3, length_map. now split.
Qed.

Lemma reconnect_resubscribes_witness :
  sent_on 1 (onopen 1 (run quiet_handlers subscribed [SockClose; TimerFires]))
  = [request 4 "accountSubscribe"
       [JStr "A";
        JObj [("params"%string, default_params);
              ("pendingId"%string, JNull);
              ("id"%string, JNum 777)]]]
  /\ map fst (subscriptions
                (onopen 1 (run quiet_handlers subscribed
                               [SockClose; TimerFires])))
     = ["A"%string].
Proof.
  assert (Hr : reachable quiet_handlers
                 (run quiet_handlers subscribed [SockClose; TimerFires])).
  { exists true, None, None,
      [CallSubscribe "A" JUndefined; SockOpen 0; ack 1 777;
       CallSubscribe "B" (JStr "pb"); ack 2 888; CallUnsubscribe "B";
       SockClose; TimerFires].
    split; vm_compute; reflexivity. }
  assert (Hw : ws (run quiet_handlers subscribed [SockClose; TimerFires])
               = Some 1%nat) by (vm_compute; reflexivity).
  assert (Hi : forall w,
             In w (awaiting (run quiet_handlers subscribed
                                 [SockClose; TimerFires])) ->
             fst w <> 1%nat) by (vm_compute; intros w []).
  destruct (reconnect_resubscribes quiet_handlers _ 1 1 Hr Hw Hi)
    as (H1 & _ & H3 & _).
  split; [|exact H3]. unfold sent_on. rewrite H1. vm_compute. reflexivity.
Defined.

End ManagerLaws.

(* ================================================================== *)
(** * Further properties of the decoder *)
(* ================================================================== *)

Module ParserLaws.
Import PriceDataParser ParserFacts.

Lemma byte_at_range (buf : buffer) (i : nat) : 0 <= byte_at buf i < 256.
Proof.
  unfold byte_at. pose proof (Byte.to_N_bounded (nth i buf x00)). lia.
Qed.

Lemma byte_of_byte_at (buf : buffer) (i : nat) :
  byte_of_Z (byte_at buf i) = nth i buf x00.
Proof.
  unfold byte_of_Z. rewrite Z.mod_small by apply byte_at_range.
  unfold byte_at. rewrite N2Z.id, Byte.of_to_N. reflexivity.
Qed.

Lemma readUInt32LE_range (buf : buffer) (offset : nat) (u : Z) :
  readUInt32LE buf offset = Normal u -> 0 <= u < 2 ^ 32.
Proof.
  unfold readUInt32LE.
  destruct (offset + 4 <=? List.length buf)%nat; [|discriminate].
  change (2 ^ 8) with 256. change (2 ^ 16) with 65536.
  change (2 ^ 24) with 16777216. intros E.
  assert (U : u = byte_at buf offset
                  + 256 * byte_at buf (offset + 1)
                  + 65536 * byte_at buf (offset + 2)
                  + 16777216 * byte_at buf (offset + 3)) by congruence.
  pose proof (byte_at_range buf offset).
  pose proof (byte_at_range buf (offset + 1)).
  pose proof (byte_at_range buf (offset + 2)).
  pose proof (byte_at_range buf (offset + 3)).
  change (2 ^ 32) with 4294967296. lia.
Qed.

Lemma to_int32_range (u : Z) :
  0 <= u < 2 ^ 32 -> - 2 ^ 31 <= to_int32 u < 2 ^ 31.
Proof.
  unfold to_int32. change (2 ^ 31) with 2147483648.
  change (2 ^ 32) with 4294967296.
  destruct (u <? 2147483648) eqn:C; [apply Z.ltb_lt in C|apply Z.ltb_ge in C];
    lia.
Qed.

Lemma readInt32LE_range (buf : buffer) (offset : nat) (e : Z) :
  readInt32LE buf offset = Normal e -> - 2 ^ 31 <= e < 2 ^ 31.
Proof.
  unfold readInt32LE, buf_readInt32LE.
  destruct (readUInt32LE buf offset) as [u|] eqn:R; [|discriminate].
  cbn [bind]. intros [= <-]. apply to_int32_range.
  now apply readUInt32LE_range with buf offset.
Qed.

Lemma readBigInt64LE_range (buf : buffer) (offset : nat) (z : Z) :
  readBigInt64LE buf offset = Normal z -> - 2 ^ 63 <= z < 2 ^ 63.
Proof.
  unfold readBigInt64LE.
  destruct (readUInt32LE buf offset) as [low|] eqn:R1; [|discriminate].
  cbn [bind].
  destruct (buf_readInt32LE buf (offset + 4)) as [high|] eqn:R2;
    [|discriminate].
  cbn [bind]. intros [= <-].
  pose proof (readUInt32LE_range _ _ _ R1) as Hl.
  pose proof (readInt32LE_range _ _ _ R2) as Hh.
  change (2 ^ 63) with 9223372036854775808.
  change (2 ^ 32) with 4294967296 in Hl.
  change (2 ^ 31) with 2147483648 in Hh. lia.
Qed.

(** X16.  [readBigInt64LE] is the 64-bit little-endian two's complement
    read: when the eight bytes are there, its result is the signed reading of
    the unsigned number the eight bytes spell, least significant first; the
    product of the signed high half and [2^32] plus the unsigned low half
    loses nothing. *)
Theorem readBigInt64LE_twos_complement (buf : buffer) (offset : nat) :
  (offset + 8 <= List.length buf)%nat ->
  readBigInt64LE buf offset
  = Normal (ParserViews.to_int64 (ParserViews.le_uint64 buf offset))
  /\ 0 <= ParserViews.le_uint64 buf offset < 2 ^ 64.
Proof.
  intros Hl. unfold readBigInt64LE, buf_readInt32LE, readUInt32LE.
  repeat match goal with
         | |- context [(?a <=? ?b)%nat] =>
             destruct (Nat.leb_spec a b); [cbn [bind]|lia]
         end.
  unfold ParserViews.le_uint64, ParserViews.to_int64, to_int32.
  cbn [seq fold_right].
  rewrite Nat.add_0_r, <- !Nat.add_assoc. cbn [Nat.add].
  pose proof (byte_at_range buf offset).
  pose proof (byte_at_range buf (offset + 1)).
  pose proof (byte_at_range buf (offset + 2)).
  pose proof (byte_at_range buf (offset + 3)).
  pose proof (byte_at_range buf (offset + 4)).
  pose proof (byte_at_range buf (offset + 5)).
  pose proof (byte_at_range buf (offset + 6)).
  pose proof (byte_at_range buf (offset + 7)).
  generalize dependent (byte_at buf offset).
  generalize dependent (byte_at buf (offset + 1)).
  generalize dependent (byte_at buf (offset + 2)).
  generalize dependent (byte_at buf (offset + 3)).
  generalize dependent (byte_at buf (offset + 4)).
  generalize dependent (byte_at buf (offset + 5)).
  generalize dependent (byte_at buf (offset + 6)).
  generalize dependent (byte_at buf (offset + 7)).
  intros b7 R7 b6 R6 b5 R5 b4 R4 b3 R3 b2 R2 b1 R1 b0 R0.
  change (2 ^ 8) with 256. change (2 ^ 16) with 65536.
  change (2 ^ 24) with 16777216. change (2 ^ 31) with 2147483648.
  change (2 ^ 32) with 4294967296.
  change (2 ^ 63) with 9223372036854775808.
  change (2 ^ 64) with 18446744073709551616.
  split; [|lia].
  f_equal.
  destruct (Z.ltb_spec (b4 + 256 * b5 + 65536 * b6 + 16777216 * b7)
                       2147483648);
    destruct (Z.ltb_spec
                (b0 + 256 * (b1 + 256 * (b2 + 256 * (b3 + 256 * (b4 + 256 *
                   (b5 + 256 * (b6 + 256 * (b7 + 256 * 0))))))))
                9223372036854775808); lia.
Qed.

(** ** The error of [Number] on a 64-bit integer *)

Lemma round_to_53_close (m : Z) :
  0 <= m <= 2 ^ 63 -> Z.abs (round_to_53 m - m) <= 512.
Proof.
  intros Hm.
  destruct (Z.eq_dec m (2 ^ 63)) as [->|Hne]; [vm_compute; discriminate|].
  destruct (Z.eq_dec m 0) as [->|Hnz]; [vm_compute; discriminate|].
  assert (Hlog : Z.log2 m < 63) by (apply Z.log2_lt_pow2; lia).
  pose proof (Z.log2_nonneg m) as Hlog0.
  unfold round_to_53.
  destruct (Z.log2 m + 1 <=? 53) eqn:C.
  - rewrite Z.sub_diag. simpl. lia.
  - apply Z.leb_gt in C.
    set (sh := Z.log2 m + 1 - 53).
    assert (Hsh : 1 <= sh <= 10) by (unfold sh; lia).
    set (P := 2 ^ sh). set (H := 2 ^ (sh - 1)).
    assert (HP : P = 2 * H).
    { unfold P, H. replace sh with (Z.succ (sh - 1)) at 1 by lia.
      apply Z.pow_succ_r. lia. }
    assert (HH : 0 < H <= 512).
    { unfold H. split; [apply Z.pow_pos_nonneg; lia|].
      change 512 with (2 ^ 9). apply Z.pow_le_mono_r; lia. }
    pose proof (Z.div_mod m P ltac:(lia)) as Hdm.
    pose proof (Z.mod_pos_bound m P ltac:(lia)) as Hr.
    rewrite (Z.mul_comm P) in Hdm.
    destruct ((H <? m mod P) || ((m mod P =? H) && Z.odd (m / P))) eqn:U.
    + assert (Hge : H <= m mod P).
      { apply orb_true_iff in U. destruct U as [U|U].
        - apply Z.ltb_lt in U. lia.
        - apply andb_true_iff in U. destruct U as [U _].
          apply Z.eqb_eq in U. lia. }
      rewrite Z.mul_add_distr_r, Z.mul_1_l. lia.
    + assert (Hle : m mod P <= H).
      { apply orb_false_iff in U. destruct U as [U _].
        apply Z.ltb_ge in U. exact U. }
      lia.
Qed.

Lemma Number_of_BigInt_close (z : Z) :
  - 2 ^ 63 <= z < 2 ^ 63 -> Z.abs (Number_of_BigInt z - z) <= 512.
Proof.
  intros Hz. unfold Number_of_BigInt.
  pose proof (round_to_53_close (Z.abs z) ltac:(lia)) as Hc.
  destruct z as [|p|p]; cbn [Z.sgn Z.abs] in *; lia.
Qed.

Section Decoder.

Variable Buffer_from_base64 : jsval -> completion buffer.
Variable float : Type.
Variable float_of_Z : Z -> float.
Variable Math_pow10 : Z -> float.
Variable float_mul : float -> float -> float.

Local Abbreviation parse :=
  (parseData Buffer_from_base64 float float_of_Z Math_pow10 float_mul).

(** X10.  Whatever bytes the payload decodes to, as long as there are 28 of
    them, [parseData] returns a reading: its [exponent] is the signed 32-bit
    integer at offset 24, and its [rawPrice] and [rawConfidence] are within
    512 of the signed 64-bit integers at offsets 8 and 16, and equal to them
    up to [2^53] in magnitude. *)
Theorem parseData_values (data payload : jsval) (buf : buffer) (now : Z) :
  truthy data = true ->
  get_prop data "0" = Some payload ->
  truthy payload = true ->
  Buffer_from_base64 payload = Normal buf ->
  (28 <= List.length buf)%nat ->
  exists r zp zc,
    parse data now = Some r
    /\ readBigInt64LE buf 8 = Normal zp
    /\ readBigInt64LE buf 16 = Normal zc
    /\ readInt32LE buf 24 = Normal (exponent r)
    /\ - 2 ^ 31 <= exponent r < 2 ^ 31
    /\ - 2 ^ 63 <= zp < 2 ^ 63
    /\ - 2 ^ 63 <= zc < 2 ^ 63
    /\ Z.abs (rawPrice r - zp) <= 512
    /\ Z.abs (rawConfidence r - zc) <= 512
    /\ (Z.abs zp <= 2 ^ 53 -> rawPrice r = zp)
    /\ (Z.abs zc <= 2 ^ 53 -> rawConfidence r = zc)
    /\ raw r = payload
    /\ timestamp r = now.
Proof.
  intros Hd H0 Hp Hb Hl.
  destruct (ParserTheorems.long_buffer_reads buf Hl)
    as (zp & zc & e & Rp & Rc & Re).
  pose proof (readBigInt64LE_range _ _ _ Rp) as Bp.
  pose proof (readBigInt64LE_range _ _ _ Rc) as Bc.
  pose proof (readInt32LE_range _ _ _ Re) as Be.
  eexists. exists zp, zc. split.
  - unfold parseData.
    rewrite (ParserTheorems.parse_of_bytes Buffer_from_base64 float
               float_of_Z Math_pow10 float_mul data payload buf now
               Hd H0 Hp Hb).
    rewrite Rp, Rc, Re. cbn [bind]. reflexivity.
  - cbn [exponent rawPrice rawConfidence raw timestamp].
    repeat split; try assumption; try lia.
    + now apply Number_of_BigInt_close.
    + now apply Number_of_BigInt_close.
    + apply Number_of_BigInt_exact.
    + apply Number_of_BigInt_exact.
Qed.

End Decoder.

Lemma readBigInt64LE_twos_complement_witness :
  readBigInt64LE (le_bytes 8 (- 2) ++ le_bytes 8 (2 ^ 63 - 1)) 0
  = Normal (- 2)
  /\ readBigInt64LE (le_bytes 8 (- 2) ++ le_bytes 8 (2 ^ 63 - 1)) 8
     = Normal 9223372036854775807.
Proof.
  assert (L0 : (0 + 8 <= List.length
                          (le_bytes 8 (- 2) ++ le_bytes 8 (2 ^ 63 - 1)))%nat)
    by (apply Nat.leb_le; reflexivity).
  assert (L8 : (8 + 8 <= List.length
                          (le_bytes 8 (- 2) ++ le_bytes 8 (2 ^ 63 - 1)))%nat)
    by (apply Nat.leb_le; reflexivity).
  destruct (readBigInt64LE_twos_complement _ 0 L0) as [E0 _].
  destruct (readBigInt64LE_twos_complement _ 8 L8) as [E8 _].
  rewrite E0, E8. split; vm_compute; reflexivity.
Defined.

Lemma parseData_values_witness :
  exists r,
    sample_parseData
      (JArr [JStr "UFlUSEhEUiEAAAAAAAAAgP////////9/AAAAgAEC"]) 7 = Some r
    /\ exponent r = - 2147483648
    /\ Z.abs (rawPrice r - - 9223372036854775808) <= 512
    /\ Z.abs (rawConfidence r - 9223372036854775807) <= 512.
Proof.
  destruct (sample_Buffer_from
              (JStr "UFlUSEhEUiEAAAAAAAAAgP////////9/AAAAgAEC"))
    as [buf|] eqn:B; [|vm_compute in B; discriminate B].
  pose proof B as B'. vm_compute in B'. injection B' as <-.
  assert (L : (28 <= 30)%nat) by lia.
  destruct (parseData_values sample_Buffer_from decimal decimal_of_Z
              decimal_pow10 decimal_mul
              (JArr [JStr "UFlUSEhEUiEAAAAAAAAAgP////////9/AAAAgAEC"])
              (JStr "UFlUSEhEUiEAAAAAAAAAgP////////9/AAAAgAEC")
              _ 7 eq_refl eq_refl eq_refl B L)
    as (r & zp & zc & H1 & H2 & H3 & H4 & _ & _ & _ & H8 & H9 & _).
  vm_compute in H2. injection H2 as <-.
  vm_compute in H3. injection H3 as <-.
  vm_compute in H4. injection H4 as H4.
  exists r. split; [exact H1|]. split; [symmetry; exact H4|].
  split; [exact H8|exact H9].
Defined.

End ParserLaws.

(* ================================================================== *)
(** * Further properties of the update throttle *)
(* ================================================================== *)

Module ThrottleLaws.
Import App AppHandler AppViews.

Lemma subseq_refl {A : Type} (l : list A) : subseq l l.
Proof. induction l; constructor; assumption. Qed.

Lemma subseq_app {A : Type} (a b c d : list A) :
  subseq a b -> subseq c d -> subseq (a ++ c) (b ++ d).
Proof.
  intros H1 H2. induction H1; cbn [app]; [exact H2| |]; now constructor.
Qed.

Section Laws.

Variable reading : Type.

Lemma slice_last_short (n : nat) (l : list reading) :
  (List.length l <= n)%nat -> slice_last reading n l = l.
Proof.
  intros H. unfold slice_last.
  replace (List.length l - n)%nat with 0%nat by lia. reflexivity.
Qed.

Lemma slice_last_length (n : nat) (l : list reading) :
  (List.length (slice_last reading n l) <= n)%nat.
Proof. unfold slice_last. rewrite length_skipn. lia. Qed.

Lemma slice_last_snoc (n : nat) (l : list reading) (x : reading) :
  slice_last reading n (slice_last reading n l ++ [x])
  = slice_last reading n (l ++ [x]).
Proof.
  unfold slice_last. rewrite !length_app, length_skipn. cbn [List.length].
  destruct (Nat.le_gt_cases (List.length l) n) as [H|H].
  - replace (List.length l - n)%nat with 0%nat by lia. cbn [skipn].
    f_equal. lia.
  - replace (List.length l - (List.length l - n) + 1 - n)%nat with 1%nat
      by lia.
    replace (List.length l + 1 - n)%nat
      with (1 + (List.length l - n))%nat by lia.
    rewrite <- skipn_skipn. f_equal. rewrite skipn_app.
    replace (List.length l - n - List.length l)%nat with 0%nat by lia.
    reflexivity.
Qed.

Lemma updatePrice_history (now : Z) (r : reading) (s : throttle reading) :
  priceHistory reading (updatePrice reading now r s)
  = slice_last reading MAX_HISTORY_POINTS (priceHistory reading s ++ [r]).
Proof.
  unfold updatePrice. cbn [priceHistory].
  destruct (MAX_HISTORY_POINTS <? List.length (priceHistory reading s ++ [r]))%nat
    eqn:C; [reflexivity|].
  apply Nat.ltb_ge in C. symmetry. now apply slice_last_short.
Qed.

Lemma grown_refl (s : throttle reading) :
  (List.length (priceHistory reading s) <= MAX_HISTORY_POINTS)%nat ->
  grown reading s s [].
Proof.
  intros H. unfold grown. cbn [map rev List.length].
  rewrite !app_nil_r, slice_last_short by exact H.
  repeat split. cbn. lia.
Qed.

Lemma grown_update (s s' : throttle reading) (new : list (Z * reading))
      (now : Z) (r : reading) :
  grown reading s s' new ->
  grown reading s (updatePrice reading now r s') (new ++ [(now, r)]).
Proof.
  intros (D & H & C & P). unfold grown.
  rewrite updatePrice_history, H, slice_last_snoc.
  cbn [deliveries updateCount priceData updatePrice].
  rewrite D, C, map_app, rev_unit, length_app, !app_assoc.
  cbn [map snd List.length]. repeat split. lia.
Qed.

Lemma grown_pending (s s' : throttle reading) (new : list (Z * reading))
      (p : option (Z * reading)) :
  grown reading s s' new ->
  grown reading s (set_pendingUpdate reading p s') new.
Proof. intros G. exact G. Qed.

Lemma grown_timeout (s s' : throttle reading) (new : list (Z * reading)) :
  grown reading s s' new ->
  exists new', grown reading s (timeout_runs reading s') new'.
Proof.
  intros G. unfold timeout_runs.
  destruct (pendingUpdate reading s') as [[due r]|]; [|now exists new].
  eexists. apply grown_update. apply grown_pending. exact G.
Qed.

Lemma grown_advance (t : Z) (s s' : throttle reading)
      (new : list (Z * reading)) :
  grown reading s s' new ->
  exists new', grown reading s (advance reading t s') new'.
Proof.
  intros G. unfold advance.
  destruct (pendingUpdate reading s') as [[due r]|] eqn:P; [|now exists new].
  destruct (due <=? t); [|now exists new]. now apply grown_timeout with new.
Qed.

Lemma grown_handle (t : Z) (r : reading) (s s' : throttle reading)
      (new : list (Z * reading)) :
  grown reading s s' new ->
  exists new', grown reading s (handlePriceUpdate reading t r s') new'.
Proof.
  intros G. unfold handlePriceUpdate.
  destruct (t - lastUpdateTime reading s' <? UPDATE_LIMIT_MS).
  - exists new. now repeat apply grown_pending.
  - eexists. apply grown_update. apply grown_pending. exact G.
Qed.

Lemma grown_arrive (arrivals : list (Z * reading)) (s s' : throttle reading)
      (new : list (Z * reading)) :
  grown reading s s' new ->
  exists new', grown reading s (arrive reading arrivals s') new'.
Proof.
  revert s' new. induction arrivals as [|[t r] rest IH]; intros s' new G;
    [now exists new|].
  cbn [arrive].
  destruct (grown_advance t s s' new G) as [n1 G1].
  destruct (grown_handle t r s _ n1 G1) as [n2 G2].
  now apply IH with n2.
Qed.

(** X11.  From a state whose history holds at most [MAX_HISTORY_POINTS]
    (100) readings, after any arrivals (and after the last timeout has run
    as well): the history is the last 100 readings of the old history
    followed by the readings delivered since, in the order of their
    delivery, so it never holds more than 100; the update count went up by
    one for each delivery; the displayed reading is the one delivered
    last. *)
Theorem history_is_a_window (arrivals : list (Z * reading))
        (s s' : throttle reading) :
  (List.length (priceHistory reading s) <= MAX_HISTORY_POINTS)%nat ->
  s' = arrive reading arrivals s
  \/ s' = timeout_runs reading (arrive reading arrivals s) ->
  exists new,
    deliveries reading s' = deliveries reading s ++ new
    /\ priceHistory reading s'
       = slice_last reading MAX_HISTORY_POINTS
           (priceHistory reading s ++ map snd new)
    /\ (List.length (priceHistory reading s') <= MAX_HISTORY_POINTS)%nat
    /\ updateCount reading s'
       = updateCount reading s + Z.of_nat (List.length new)
    /\ priceData reading s'
       = match rev new with
         | [] => priceData reading s
         | x :: _ => Some (snd x)
         end.
Proof.
  intros H Hs'.
  destruct (grown_arrive arrivals s s [] (grown_refl s H)) as [n1 G1].
  assert (G : exists new, grown reading s s' new).
  { destruct Hs' as [->| ->]; [now exists n1|].
    now apply grown_timeout with n1. }
  destruct G as (new & D & Hh & C & P). exists new.
  repeat split; try assumption. rewrite Hh. apply slice_last_length.
Qed.

(** ** The newest reading *)

Lemma arrive_app (l1 l2 : list (Z * reading)) (s : throttle reading) :
  arrive reading (l1 ++ l2) s = arrive reading l2 (arrive reading l1 s).
Proof.
  revert s. induction l1 as [|[t r] l1 IH]; intros s; [reflexivity|].
  cbn [app arrive]. apply IH.
Qed.

Lemma timeout_runs_readings (s : throttle reading) :
  map snd (deliveries reading (timeout_runs reading s))
  = map snd (deliveries reading s) ++ pending_list reading s.
Proof.
  unfold timeout_runs, pending_list.
  destruct (pendingUpdate reading s) as [[due r]|];
    [|now rewrite app_nil_r].
  cbn [deliveries updatePrice set_pendingUpdate]. now rewrite map_app.
Qed.

Lemma step_readings (t : Z) (r : reading) (s : throttle reading) :
  exists X Y,
    map snd (deliveries reading
               (handlePriceUpdate reading t r (advance reading t s)))
    = map snd (deliveries reading s) ++ X ++ Y
    /\ subseq X (pending_list reading s)
    /\ ((Y = [] /\ pending_list reading
                     (handlePriceUpdate reading t r (advance reading t s))
                   = [r])
        \/ (Y = [r] /\ pending_list reading
                         (handlePriceUpdate reading t r (advance reading t s))
                       = [])).
Proof.
  assert (A : exists X,
             map snd (deliveries reading (advance reading t s))
             = map snd (deliveries reading s) ++ X
             /\ subseq X (pending_list reading s)).
  { unfold advance, pending_list.
    destruct (pendingUpdate reading s) as [[due r0]|] eqn:P.
    - destruct (due <=? t).
      + exists [r0]. rewrite timeout_runs_readings. unfold pending_list.
        rewrite P. split; [reflexivity | apply subseq_refl].
      + exists []. rewrite app_nil_r. split; [reflexivity|].
        repeat constructor.
    - exists []. rewrite app_nil_r. split; [reflexivity | constructor]. }
  destruct A as (X & A1 & A2). exists X.
  unfold handlePriceUpdate, pending_list.
  destruct (t - lastUpdateTime reading (advance reading t s)
            <? UPDATE_LIMIT_MS).
  - exists []. cbn [deliveries pendingUpdate set_pendingUpdate].
    rewrite A1, app_nil_r. repeat split; try assumption. now left.
  - exists [r]. cbn [deliveries pendingUpdate updatePrice set_pendingUpdate].
    rewrite map_app, A1, <- app_assoc. repeat split; try assumption.
    now right.
Qed.

Lemma arrive_readings (arrivals : list (Z * reading)) (s : throttle reading) :
  exists mid,
    map snd (deliveries reading (timeout_runs reading
                                   (arrive reading arrivals s)))
    = map snd (deliveries reading s) ++ mid
    /\ subseq mid (pending_list reading s ++ map snd arrivals).
Proof.
  revert s. induction arrivals as [|[t r] rest IH]; intros s.
  - exists (pending_list reading s). cbn [arrive map].
    rewrite timeout_runs_readings, app_nil_r.
    split; [reflexivity | apply subseq_refl].
  - cbn [arrive map snd].
    destruct (step_readings t r s) as (X & Y & E & SX & HY).
    destruct (IH (handlePriceUpdate reading t r (advance reading t s)))
      as (mid & E' & S').
    exists (X ++ Y ++ mid). rewrite E', E, <- !app_assoc.
    split; [reflexivity|].
    apply subseq_app; [exact SX|].
    destruct HY as [[-> HP]|[-> HP]]; rewrite HP in S'.
    + exact S'.
    + cbn [app] in *. now constructor.
Qed.

Lemma last_update_bound (T : Z) (arrivals : list (Z * reading))
      (s : throttle reading) :
  lastUpdateTime reading s <= T ->
  Forall (fun a => fst a <= T) arrivals ->
  lastUpdateTime reading (arrive reading arrivals s) <= T.
Proof.
  revert s. induction arrivals as [|[t r] rest IH]; intros s Hs Ha;
    [exact Hs|].
  inversion Ha as [|? ? Ht Hrest]; subst. cbn [fst] in Ht.
  cbn [arrive]. apply IH; [|exact Hrest].
  unfold handlePriceUpdate, advance, timeout_runs.
  destruct (pendingUpdate reading s) as [[due r0]|].
  - destruct (due <=? t) eqn:D.
    + apply Z.leb_le in D.
      cbn [lastUpdateTime pendingUpdate updatePrice set_pendingUpdate].
      destruct (t - due <? UPDATE_LIMIT_MS);
        cbn [lastUpdateTime updatePrice set_pendingUpdate]; lia.
    + destruct (t - lastUpdateTime reading s <? UPDATE_LIMIT_MS);
        cbn [lastUpdateTime updatePrice set_pendingUpdate]; lia.
  - destruct (t - lastUpdateTime reading s <? UPDATE_LIMIT_MS);
      cbn [lastUpdateTime updatePrice set_pendingUpdate]; lia.
Qed.

Lemma advance_bound (t : Z) (s : throttle reading) :
  lastUpdateTime reading s <= t ->
  lastUpdateTime reading (advance reading t s) <= t.
Proof.
  intros H. unfold advance, timeout_runs.
  destruct (pendingUpdate reading s) as [[due r0]|]; [|exact H].
  destruct (due <=? t) eqn:D; [|exact H]. apply Z.leb_le in D.
  cbn [lastUpdateTime updatePrice set_pendingUpdate]. exact D.
Qed.

(** X12.  The throttle drops readings but never the newest one, and it
    invents none: the readings delivered are a subsequence of the readings
    that arrived (order kept, none twice), and the reading that arrived last
    is the one delivered last, not before its arrival, and at most
    [UPDATE_LIMIT_MS] after it when the clock never ran backwards. *)
Theorem newest_reading_is_delivered (start t0 : Z) (r : reading)
        (l : list (Z * reading)) :
  subseq (map snd (deliveries_of reading start (l ++ [(t0, r)])))
         (map snd (l ++ [(t0, r)]))
  /\ exists init t,
       deliveries_of reading start (l ++ [(t0, r)]) = init ++ [(t, r)]
       /\ t0 <= t
       /\ (start <= t0 -> Forall (fun a => fst a <= t0) l ->
           t <= t0 + UPDATE_LIMIT_MS).
Proof.
  split.
  - unfold deliveries_of.
    destruct (arrive_readings (l ++ [(t0, r)]) (mount reading start))
      as (mid & E & S).
    rewrite E. exact S.
  - unfold deliveries_of. rewrite arrive_app. cbn [arrive].
    set (s := advance reading t0 (arrive reading l (mount reading start))).
    assert (B : start <= t0 -> Forall (fun a => fst a <= t0) l ->
                lastUpdateTime reading s <= t0).
    { intros H1 H2. apply advance_bound.
      now apply last_update_bound. }
    unfold handlePriceUpdate, timeout_runs.
    destruct (t0 - lastUpdateTime reading s <? UPDATE_LIMIT_MS) eqn:L.
    + apply Z.ltb_lt in L.
      cbn [pendingUpdate deliveries updatePrice set_pendingUpdate].
      eexists. eexists. split; [reflexivity|].
      unfold UPDATE_LIMIT_MS in *. split; [lia|].
      intros H1 H2. specialize (B H1 H2). lia.
    + cbn [pendingUpdate deliveries updatePrice set_pendingUpdate].
      eexists. eexists. split; [reflexivity|].
      unfold UPDATE_LIMIT_MS. split; [lia|]. intros _ _. lia.
Qed.

(** ** The rate of deliveries *)

Lemma spaced_window (start last : Z) (l : list (Z * reading)) (a w : Z) :
  spaced reading start last l ->
  filter (in_window reading a w) l = []
  \/ exists m,
       a + UPDATE_LIMIT_MS
           * (Z.of_nat (List.length (filter (in_window reading a w) l)) - 1)
       <= m
       /\ m < a + w /\ m <= last.
Proof.
  unfold UPDATE_LIMIT_MS.
  induction 1 as [|last t r l Hs IH Ht]; [now left|].
  unfold UPDATE_LIMIT_MS in Ht.
  rewrite filter_app. cbn [filter].
  destruct (in_window reading a w (t, r)) eqn:W.
  - right. exists t. unfold in_window in W. cbn [fst] in W.
    apply andb_true_iff in W. destruct W as [W1 W2].
    apply Z.leb_le in W1. apply Z.ltb_lt in W2.
    rewrite length_app. cbn [List.length].
    destruct IH as [->|(m & M1 & M2 & M3)]; cbn [List.length]; lia.
  - rewrite app_nil_r.
    destruct IH as [IH|(m & M1 & M2 & M3)]; [now left|].
    right. exists m. repeat split; try assumption. lia.
Qed.

(** X18.  The throttle keeps what the comment at [UPDATE_LIMIT_MS]
    promises, 20 updates per second at most: whatever the arrivals, any
    window of 1000 ms holds at most 20 deliveries, and in general [n]
    deliveries need a window longer than [50 * (n - 1)]. *)
Theorem at_most_twenty_per_second (start a : Z)
        (arrivals : list (Z * reading)) :
  (List.length (filter (in_window reading a 1000)
                       (deliveries_of reading start arrivals)) <= 20)%nat
  /\ (forall w,
        0 < w ->
        UPDATE_LIMIT_MS
        * (Z.of_nat (List.length
                       (filter (in_window reading a w)
                               (deliveries_of reading start arrivals))) - 1)
        < w).
Proof.
  assert (S : exists last,
             spaced reading start last
                    (deliveries_of reading start arrivals)).
  { unfold deliveries_of.
    destruct (ThrottleTheorems.throttle_invariant reading start arrivals
                (mount reading start)) as [Hs Hp];
      [apply spaced_none | discriminate |].
    unfold timeout_runs.
    destruct (pendingUpdate reading
                (arrive reading arrivals (mount reading start)))
      as [[due r]|] eqn:P; [|eexists; exact Hs].
    exists due. cbn [deliveries updatePrice set_pendingUpdate].
    specialize (Hp due r eq_refl).
    eapply spaced_more; [exact Hs | lia]. }
  destruct S as [last S].
  assert (G : forall w,
             0 < w ->
             UPDATE_LIMIT_MS
             * (Z.of_nat (List.length
                            (filter (in_window reading a w)
                                    (deliveries_of reading start arrivals)))
                - 1)
             < w).
  { intros w Hw. unfold UPDATE_LIMIT_MS.
    destruct (spaced_window start last _ a w S) as [->|(m & M1 & M2 & _)].
    - cbn [List.length]. lia.
    - unfold UPDATE_LIMIT_MS in M1. lia. }
  split; [|exact G].
  specialize (G 1000 ltac:(lia)). unfold UPDATE_LIMIT_MS in G. lia.
Qed.

End Laws.

Lemma history_is_a_window_witness :
  priceHistory string
    (arrive string [(60, "b"%string)]
       {| lastUpdateTime := 0; pendingUpdate := None; priceData := None;
          priceHistory := repeat "x"%string 100; updateCounter := 0;
          updateCount := 100; deliveries := [] |})
  = repeat "x"%string 99 ++ ["b"%string].
Proof.
  assert (L : (List.length (repeat "x"%string 100) <= MAX_HISTORY_POINTS)%nat)
    by (apply Nat.leb_le; reflexivity).
  destruct (history_is_a_window string [(60, "b"%string)]
              {| lastUpdateTime := 0; pendingUpdate := None;
                 priceData := None; priceHistory := repeat "x"%string 100;
                 updateCounter := 0; updateCount := 100; deliveries := [] |}
              _ L (or_introl eq_refl))
    as (new & D & H & _).
  vm_compute in D. subst new. rewrite H. vm_compute. reflexivity.
Defined.

End ThrottleLaws.

(* ================================================================== *)
(** * The message handler of the application *)
(* ================================================================== *)

Module HandlerLaws.
Import WebSocketManager PriceDataParser App AppHandler.

Lemma strict_eq_str (v : jsval) (x : string) :
  strict_eq v (JStr x) = true -> v = JStr x.
Proof.
  destruct v; cbn; try discriminate.
  intros H. apply String.eqb_eq in H. now subst.
Qed.

Lemma prop_throws (v : jsval) (k err : string) :
  prop v k = Throw err -> err = "TypeError"%string.
Proof. unfold prop. destruct (get_prop v k); [discriminate|]. now intros [= <-]. Qed.

Lemma notification_data_throws (message : jsval) (err : string) :
  notification_data message = Throw err -> err = "TypeError"%string.
Proof.
  unfold notification_data.
  destruct (prop message "params") as [a|e1] eqn:P1; cbn [bind];
    [|intros [= <-]; now apply prop_throws in P1].
  destruct (prop a "result") as [b|e2] eqn:P2; cbn [bind];
    [|intros [= <-]; now apply prop_throws in P2].
  destruct (prop b "value") as [c|e3] eqn:P3; cbn [bind];
    [|intros [= <-]; now apply prop_throws in P3].
  apply prop_throws.
Qed.

Section Handler.

Variable Buffer_from_base64 : jsval -> completion buffer.
Variable float : Type.
Variable float_of_Z : Z -> float.
Variable Math_pow10 : Z -> float.
Variable float_mul : float -> float -> float.

Local Abbreviation parse :=
  (parseData Buffer_from_base64 float float_of_Z Math_pow10 float_mul).
Local Abbreviation handle :=
  (handlePriceUpdate_message Buffer_from_base64 float float_of_Z Math_pow10
                             float_mul).

(** X13.  What the message handler of the application does with a message,
    whatever the message is.  It throws only a [TypeError], and only when
    the message itself is [null] or [undefined], or when it is an
    [accountNotification] on which the path [params.result.value.data] runs
    into [null] or [undefined].  When it returns, either nothing has changed,
    or the message is an [accountNotification] whose [data[0]] decodes to at
    least 28 bytes and the reading parsed from it went through the throttle.
    Conversely every such notification is handed to the throttle. *)
Theorem handler_reacts_to_readings_only
        (parsed_at now : Z) (message : jsval)
        (s : throttle (reading float)) :
  match handle parsed_at now message s with
  | Throw err =>
      err = "TypeError"%string
      /\ (get_prop message "method" = None
          \/ (get_prop message "method" = Some (JStr "accountNotification")
              /\ notification_data message = Throw "TypeError"))
  | Normal s' =>
      s' = s
      \/ exists data payload buf r,
           get_prop message "method" = Some (JStr "accountNotification")
           /\ notification_data message = Normal data
           /\ get_prop data "0" = Some payload
           /\ Buffer_from_base64 payload = Normal buf
           /\ (28 <= List.length buf)%nat
           /\ parse data parsed_at = Some r
           /\ s' = handlePriceUpdate (reading float) now r s
  end
  /\ (forall data payload buf,
        get_prop message "method" = Some (JStr "accountNotification") ->
        notification_data message = Normal data ->
        truthy data = true ->
        get_prop data "0" = Some payload ->
        truthy payload = true ->
        Buffer_from_base64 payload = Normal buf ->
        (28 <= List.length buf)%nat ->
        exists r,
          parse data parsed_at = Some r
          /\ raw r = payload
          /\ handle parsed_at now message s
             = Normal (handlePriceUpdate (reading float) now r s)).
Proof.
  split.
  - unfold handlePriceUpdate_message, prop.
    destruct (get_prop message "method") as [m|] eqn:M; cbn [bind];
      [|split; [reflexivity | now left]].
    destruct (strict_eq m (JStr "accountNotification")) eqn:E;
      [|now left].
    apply strict_eq_str in E. subst m.
    destruct (notification_data message) as [data|err] eqn:D; cbn [bind].
    + destruct (parse data parsed_at) as [r|] eqn:P; [|now left].
      right.
      destruct (proj1 (ParserTheorems.parseData_reading_iff
                         Buffer_from_base64 float float_of_Z Math_pow10
                         float_mul data parsed_at))
        as (_ & d0 & buf & H0 & _ & Hb & Hl); [now exists r|].
      exists data, d0, buf, r. repeat split; assumption.
    + pose proof (notification_data_throws _ _ D) as ->.
      split; [reflexivity | right; now split].
  - intros data payload buf M D Td H0 Tp Hb Hl.
    assert (H : exists r, parse data parsed_at = Some r /\ raw r = payload).
    { unfold parseData.
      rewrite (ParserTheorems.parse_of_bytes Buffer_from_base64 float
                 float_of_Z Math_pow10 float_mul data payload buf parsed_at
                 Td H0 Tp Hb).
      destruct (ParserTheorems.long_buffer_reads buf Hl)
        as (a & b & c & Ra & Rb & Rc).
      rewrite Ra, Rb, Rc. cbn [bind]. eexists. split; reflexivity. }
    destruct H as (r & P & R).
    exists r. split; [exact P|]. split; [exact R|].
    unfold handlePriceUpdate_message, prop. rewrite M. cbn [bind strict_eq].
    rewrite String.eqb_refl, D. cbn [bind]. now rewrite P.
Qed.

End Handler.

End HandlerLaws.

(* ================================================================== *)
(** * Switching feeds *)
(* ================================================================== *)

Module FeedLaws.
Import WebSocketManager RegistryFacts ManagerFacts AppFeeds AppViews.

Lemma map_get_delete_other (m : registry) (a b : string) :
  a <> b -> map_get (map_delete m a) b = map_get m b.
Proof.
  intros Hne.
  assert (Hb : String.eqb a b = false) by now apply String.eqb_neq.
  induction m as [|[k v] m IH]; cbn [map_delete map_get]; [reflexivity|].
  destruct (String.eqb k a) eqn:E.
  - apply String.eqb_eq in E. subst k. now rewrite Hb.
  - cbn [map_get]. destruct (String.eqb k b); [reflexivity | exact IH].
Qed.

Lemma unsubscribe_requests_app (j : nat) (id : Z) (l1 l2 : list jsval) :
  unsubscribe_requests j id (l1 ++ l2)
  = unsubscribe_requests j id l1
    ++ unsubscribe_requests j (id + Z.of_nat (List.length l1)) l2.
Proof.
  revert id. induction l1 as [|x l1 IH]; intros id.
  - cbn [app unsubscribe_requests List.length]. f_equal. cbn. lia.
  - cbn [app unsubscribe_requests List.length]. rewrite IH.
    do 3 f_equal. lia.
Qed.

Lemma ids_to_drop_ext (sel : string) (feeds : list feed) (m1 m2 : registry) :
  (forall g, In g feeds -> map_get m1 (address g) = map_get m2 (address g)) ->
  ids_to_drop sel feeds m1 = ids_to_drop sel feeds m2.
Proof.
  induction feeds as [|f rest IH]; intros H; [reflexivity|].
  unfold ids_to_drop in *. cbn [flat_map].
  rewrite IH by (intros g Hg; apply H; now right).
  unfold confirmed_id. rewrite (H f) by now left. reflexivity.
Qed.

Lemma unsubscribe_connected (a : string) (s : state) (j : nat) :
  isConnected s = true ->
  ws s = Some j ->
  NoDup (map fst (subscriptions s)) ->
  isConnected (unsubscribe a s) = true
  /\ ws (unsubscribe a s) = Some j
  /\ NoDup (map fst (subscriptions (unsubscribe a s)))
  /\ lastMessageId (unsubscribe a s)
     = lastMessageId s
       + Z.of_nat (List.length (confirmed_id (subscriptions s) a))
  /\ sent (unsubscribe a s)
     = sent s ++ unsubscribe_requests j (lastMessageId s + 1)
                   (confirmed_id (subscriptions s) a)
  /\ (forall b,
        map_get (subscriptions (unsubscribe a s)) b
        = if String.eqb a b
          then match confirmed_id (subscriptions s) a with
               | [] => map_get (subscriptions s) b
               | _ => None
               end
          else map_get (subscriptions s) b).
Proof.
  intros C W Hnd. unfold unsubscribe, confirmed_id.
  rewrite C, map_has_get. cbn [negb orb].
  assert (Same :
    isConnected s = true /\ ws s = Some j
    /\ NoDup (map fst (subscriptions s))
    /\ lastMessageId s = lastMessageId s + Z.of_nat (@List.length jsval [])
    /\ sent s = sent s ++ unsubscribe_requests j (lastMessageId s + 1) []
    /\ (forall b, map_get (subscriptions s) b
                  = if String.eqb a b then map_get (subscriptions s) b
                    else map_get (subscriptions s) b)).
  { repeat split; try assumption.
    - cbn. lia.
    - cbn. now rewrite app_nil_r.
    - intros b. now destruct (String.eqb a b). }
  destruct (map_get (subscriptions s) a) as [e|] eqn:G; cbn [negb];
    [|exact Same].
  destruct (truthy (sub_id e)) eqn:T; cbn [negb]; [|exact Same].
  unfold ws_send. cbn [ws set_lastMessageId]. rewrite W.
  cbn [isConnected ws subscriptions lastMessageId sent set_subscriptions
       set_sent set_lastMessageId unsubscribe_requests List.length].
  repeat split; try assumption.
  - now apply map_delete_nodup.
  - intros b. destruct (String.eqb a b) eqn:E.
    + apply String.eqb_eq in E. subst b. now apply map_delete_nodup.
    + apply map_get_delete_other. now apply String.eqb_neq.
Qed.

Lemma unsubscribe_others_spec (sel : string) (feeds : list feed) (s : state)
      (j : nat) :
  isConnected s = true ->
  ws s = Some j ->
  NoDup (map fst (subscriptions s)) ->
  NoDup (map address feeds) ->
  isConnected (unsubscribe_others sel feeds s) = true
  /\ ws (unsubscribe_others sel feeds s) = Some j
  /\ NoDup (map fst (subscriptions (unsubscribe_others sel feeds s)))
  /\ lastMessageId (unsubscribe_others sel feeds s)
     = lastMessageId s
       + Z.of_nat (List.length (ids_to_drop sel feeds (subscriptions s)))
  /\ sent (unsubscribe_others sel feeds s)
     = sent s ++ unsubscribe_requests j (lastMessageId s + 1)
                   (ids_to_drop sel feeds (subscriptions s))
  /\ (forall b,
        map_get (subscriptions (unsubscribe_others sel feeds s)) b
        = if dropped sel feeds (subscriptions s) b then None
          else map_get (subscriptions s) b).
Proof.
  revert s. induction feeds as [|f rest IH]; intros s C W Hnd Hf.
  - unfold unsubscribe_others, ids_to_drop, dropped.
    cbn [fold_left flat_map existsb andb unsubscribe_requests List.length].
    rewrite app_nil_r. repeat split; try assumption. cbn. lia.
  - inversion Hf as [|? ? Hnotin Hrest]; subst.
    change (unsubscribe_others sel (f :: rest) s)
      with (unsubscribe_others sel rest
              (if negb (String.eqb (address f) sel)
               then unsubscribe (address f) s else s)).
    set (s1 := if negb (String.eqb (address f) sel)
               then unsubscribe (address f) s else s).
    set (first := if String.eqb (address f) sel then []
                  else confirmed_id (subscriptions s) (address f)).
    assert (A : isConnected s1 = true /\ ws s1 = Some j
                /\ NoDup (map fst (subscriptions s1))
                /\ lastMessageId s1
                   = lastMessageId s + Z.of_nat (List.length first)
                /\ sent s1
                   = sent s ++ unsubscribe_requests j (lastMessageId s + 1)
                                 first
                /\ (forall b,
                      map_get (subscriptions s1) b
                      = if String.eqb (address f) b
                        then match first with
                             | [] => map_get (subscriptions s) b
                             | _ => None
                             end
                        else map_get (subscriptions s) b)).
    { unfold s1, first.
      destruct (String.eqb (address f) sel); cbn [negb].
      - repeat split; try assumption.
        + cbn. lia.
        + cbn. now rewrite app_nil_r.
        + intros b. now destruct (String.eqb (address f) b).
      - now apply unsubscribe_connected. }
    destruct A as (C1 & W1 & N1 & L1 & S1 & G1).
    destruct (IH s1 C1 W1 N1 Hrest) as (C2 & W2 & N2 & L2 & S2 & G2).
    assert (I : ids_to_drop sel rest (subscriptions s1)
                = ids_to_drop sel rest (subscriptions s)).
    { apply ids_to_drop_ext. intros g Hg. rewrite G1.
      destruct (String.eqb (address f) (address g)) eqn:E; [|reflexivity].
      apply String.eqb_eq in E. exfalso. apply Hnotin. rewrite E.
      now apply in_map. }
    assert (D : ids_to_drop sel (f :: rest) (subscriptions s)
                = first ++ ids_to_drop sel rest (subscriptions s))
      by reflexivity.
    split; [exact C2|]. split; [exact W2|]. split; [exact N2|].
    split; [|split].
    + rewrite L2, L1, I, D, length_app. lia.
    + rewrite S2, S1, L1, I, D, unsubscribe_requests_app, <- app_assoc.
      do 3 f_equal. lia.
    + intros b. rewrite G2. unfold dropped, confirmed_id.
      cbn [existsb]. rewrite (G1 b). unfold first.
      destruct (String.eqb (address f) b) eqn:E1.
      * apply String.eqb_eq in E1. subst b. cbn [orb].
        destruct (String.eqb (address f) sel) eqn:E2; cbn [negb];
          [now rewrite !andb_false_r|].
        rewrite !andb_true_r. unfold confirmed_id.
        destruct (map_get (subscriptions s) (address f)) as [e|] eqn:G;
          [|now rewrite !andb_false_r].
        destruct (truthy (sub_id e)) eqn:T.
        -- now rewrite andb_false_r.
        -- rewrite T, andb_false_r. reflexivity.
      * cbn [orb]. reflexivity.
Qed.

Lemma PRICE_FEEDS_distinct : NoDup (map address PRICE_FEEDS).
Proof.
  repeat constructor; cbn; intros H;
    repeat (destruct H as [H|H]; [discriminate H|]); exact H.
Qed.

(** X14.  What a feed switch does on a connected manager.  Every other feed
    of [PRICE_FEEDS] whose subscription is confirmed is unsubscribed, one
    [accountUnsubscribe] request each, in the order of [PRICE_FEEDS] and
    with consecutive request ids, and its entry is gone; one
    [accountSubscribe] request for the selected feed follows, with the
    default parameters, and the selected feed is pending under that request
    id.  Every other entry is what it was: in particular the entry of a feed
    whose subscription is still pending stays in the registry, and no
    request is sent for it. *)
Theorem feed_switch (hb : nat -> nat -> jsval -> list hcall * bool)
        (f : feed) (s : state) :
  reachable hb s ->
  isConnected s = true ->
  exists j,
    ws s = Some j
    /\ lastMessageId (connectAndSubscribe f s)
       = lastMessageId s
         + Z.of_nat (List.length
                       (ids_to_drop (address f) PRICE_FEEDS (subscriptions s)))
         + 1
    /\ sent (connectAndSubscribe f s)
       = sent s
         ++ unsubscribe_requests j (lastMessageId s + 1)
              (ids_to_drop (address f) PRICE_FEEDS (subscriptions s))
         ++ [(j, request (lastMessageId (connectAndSubscribe f s))
                   "accountSubscribe" [JStr (address f); default_params])]
    /\ map_get (subscriptions (connectAndSubscribe f s)) (address f)
       = Some {| params := default_params;
                 pendingId := JNum (lastMessageId (connectAndSubscribe f s));
                 sub_id := JNull |}
    /\ (forall b,
          b <> address f ->
          map_get (subscriptions (connectAndSubscribe f s)) b
          = if dropped (address f) PRICE_FEEDS (subscriptions s) b then None
            else map_get (subscriptions s) b).
Proof.
  intros Hr C. apply reachable_wf in Hr. destruct Hr as [Hreg Hws].
  destruct (Hws C) as [j W]. exists j. split; [exact W|].
  destruct (unsubscribe_others_spec (address f) PRICE_FEEDS s j C W
              (ok_keys _ _ Hreg) PRICE_FEEDS_distinct)
    as (C1 & W1 & N1 & L1 & S1 & G1).
  unfold connectAndSubscribe, subscribe, connect. rewrite C1.
  unfold subscribe_resume, ws_send.
  cbn [ws set_subscriptions set_lastMessageId]. rewrite W1.
  cbn [lastMessageId sent subscriptions set_sent set_subscriptions
       set_lastMessageId].
  rewrite L1, S1, <- app_assoc.
  split; [reflexivity|]. split; [reflexivity|].
  split; [apply map_get_set_same|].
  intros b Hb. rewrite map_get_set_other by exact Hb. apply G1.
Qed.

Lemma feed_switch_witness :
  map fst (subscriptions
             (connectAndSubscribe
                {| name := "Custom Feed";
                   address := "7AxV2515SwLFVxWSpCngQ3TNqY17JERwcCfULc464u7D";
                   category := "Custom" |}
                (run quiet_handlers (new_manager true None None)
                   [CallSubscribe
                      "ENYwebBThHzmzwPLAQvCucUTsjyfBSZdD9ViXksS4jPu"
                      JUndefined;
                    SockOpen 0; ack 1 111;
                    CallSubscribe
                      "71wtTRDY8Gxgw56bXFt2oc6qeAbTxzStdNiC425Z51sr"
                      JUndefined])))
  = ["71wtTRDY8Gxgw56bXFt2oc6qeAbTxzStdNiC425Z51sr";
     "7AxV2515SwLFVxWSpCngQ3TNqY17JERwcCfULc464u7D"]%string
  /\ lastMessageId
       (connectAndSubscribe
          {| name := "Custom Feed";
             address := "7AxV2515SwLFVxWSpCngQ3TNqY17JERwcCfULc464u7D";
             category := "Custom" |}
          (run quiet_handlers (new_manager true None None)
             [CallSubscribe
                "ENYwebBThHzmzwPLAQvCucUTsjyfBSZdD9ViXksS4jPu" JUndefined;
              SockOpen 0; ack 1 111;
              CallSubscribe
                "71wtTRDY8Gxgw56bXFt2oc6qeAbTxzStdNiC425Z51sr" JUndefined]))
     = 4.
Proof.
  assert (Hr : reachable quiet_handlers
                 (run quiet_handlers (new_manager true None None)
                    [CallSubscribe
                       "ENYwebBThHzmzwPLAQvCucUTsjyfBSZdD9ViXksS4jPu"
                       JUndefined;
                     SockOpen 0; ack 1 111;
                     CallSubscribe
                       "71wtTRDY8Gxgw56bXFt2oc6qeAbTxzStdNiC425Z51sr"
                       JUndefined])).
  { eexists true, None, None, _. split; [|reflexivity].
    vm_compute. reflexivity. }
  destruct (feed_switch quiet_handlers
              {| name := "Custom Feed";
                 address := "7AxV2515SwLFVxWSpCngQ3TNqY17JERwcCfULc464u7D";
                 category := "Custom" |} _ Hr)
    as (j & _ & L & _).
  - vm_compute. reflexivity.
  - split; [vm_compute; reflexivity|]. rewrite L. vm_compute. reflexivity.
Defined.

End FeedLaws.

(* ================================================================== *)
(** * A connection attempt that fails *)
(* ================================================================== *)

Module ConnectionLaws.
Import WebSocketManager.

(** X15.  A [subscribe] called while a connection attempt is pending waits
    for it; when the socket then reports an error, the call is rejected and
    leaves no trace: the address is not in the registry (so it is not
    subscribed by a later reconnection either), no frame was sent and no
    request id was used.  The rejected promise stays in place: until the
    close handler clears it, every further [subscribe] is rejected at once
    and changes nothing. *)
Theorem subscribe_lost_on_error (s : state) (k : nat) (a : string)
        (p : jsval) :
  isConnected s = false ->
  connectionPromise s = Some k ->
  promise_state (settled s) k = None ->
  awaiting (subscribe a p s)
  = awaiting s
    ++ [(k, (a, match p with JUndefined => default_params | _ => p end))]
  /\ subscriptions (onerror k (subscribe a p s)) = subscriptions s
  /\ sent (onerror k (subscribe a p s)) = sent s
  /\ lastMessageId (onerror k (subscribe a p s)) = lastMessageId s
  /\ (forall w, In w (awaiting (onerror k (subscribe a p s))) -> fst w <> k)
  /\ promise_state (settled (onerror k (subscribe a p s))) k = Some false
  /\ (forall a' p',
        subscribe a' p' (onerror k (subscribe a p s))
        = onerror k (subscribe a p s)).
Proof.
  intros C P S.
  assert (E1 : subscribe a p s
               = set_awaiting
                   (awaiting s
                    ++ [(k, (a, match p with
                                | JUndefined => default_params
                                | _ => p
                                end))]) s).
  { unfold subscribe, connect. rewrite C, P, S. reflexivity. }
  rewrite E1. unfold onerror, log, settle.
  cbn [isConnected settled awaiting set_awaiting set_console set_settled].
  rewrite C, S. cbn [negb snd].
  cbn [awaiting subscriptions sent lastMessageId settled set_awaiting
       set_settled promise_state].
  rewrite Nat.eqb_refl.
  split; [reflexivity|]. split; [reflexivity|]. split; [reflexivity|].
  split; [reflexivity|]. split; [|split; [reflexivity|]].
  - intros w Hw. apply filter_In in Hw. destruct Hw as [_ Hw].
    unfold waiting_on in Hw. intros E. rewrite E, Nat.eqb_refl in Hw.
    discriminate Hw.
  - intros a' p'. unfold subscribe, connect.
    cbn [isConnected connectionPromise settled set_awaiting set_settled
         set_console promise_state].
    rewrite C, P.
    cbn [settled set_awaiting set_settled set_console promise_state].
    now rewrite Nat.eqb_refl.
Qed.

Lemma subscribe_lost_on_error_witness :
  subscriptions
    (run quiet_handlers (new_manager true None None)
         [CallConnect; CallSubscribe "A" JUndefined; SockError 0;
          CallSubscribe "B" JUndefined])
  = []
  /\ sent
       (run quiet_handlers (new_manager true None None)
            [CallConnect; CallSubscribe "A" JUndefined; SockError 0;
             CallSubscribe "B" JUndefined])
     = [].
Proof.
  destruct (subscribe_lost_on_error
              (run quiet_handlers (new_manager true None None) [CallConnect])
              0 "A" JUndefined eq_refl eq_refl eq_refl)
    as (_ & H2 & H3 & _ & _ & _ & H7).
  change (run quiet_handlers (new_manager true None None)
            [CallConnect; CallSubscribe "A" JUndefined; SockError 0;
             CallSubscribe "B" JUndefined])
    with (subscribe "B" JUndefined
            (onerror 0
               (subscribe "A" JUndefined
                  (run quiet_handlers (new_manager true None None)
                       [CallConnect])))).
  rewrite H7, H2, H3. split; reflexivity.
Defined.

End ConnectionLaws.

(* ================================================================== *)
(** * The manual reconnection of the application *)
(* ================================================================== *)

Module ReconnectLaws.
Import WebSocketManager RegistryFacts ManagerFacts ManagerViews AppFeeds.

Lemma fresh_same (s s' : state) :
  awaiting s' = awaiting s ->
  connectionPromise s' = connectionPromise s ->
  ws s' = ws s ->
  next_id s' = next_id s ->
  url_accepted s' = url_accepted s ->
  fresh s -> fresh s'.
Proof. unfold fresh. intros -> -> -> -> ->. tauto. Qed.

Lemma fresh_settle (k : nat) (ok : bool) (s : state) :
  fresh s -> fresh (snd (settle k ok s)).
Proof.
  intros (A & P & U). unfold settle.
  destruct (promise_state (settled s) k); [now repeat split|].
  unfold fresh. cbn. repeat split; try assumption.
  intros w Hw. apply filter_In in Hw. now apply A.
Qed.

Lemma fresh_connect (s : state) :
  fresh s ->
  fresh (fst (connect s))
  /\ forall k, snd (connect s) = Promised k ->
                (k < next_id (fst (connect s)))%nat.
Proof.
  intros F. assert (F' := F). destruct F' as (A & P & U). unfold connect.
  destruct (isConnected s); [split; [exact F | discriminate]|].
  destruct (connectionPromise s) as [k|] eqn:CP.
  - split; [exact F|]. cbn [fst snd]. intros k' [= <-]. now apply P.
  - cbn [url_accepted set_next_id].
    destruct (url_accepted s) eqn:UA; cbn [fst snd].
    + split; [|intros k' [= <-]; cbn; lia].
      unfold fresh. cbn. repeat split.
      * intros w Hw. specialize (A w Hw). lia.
      * intros k [= <-]. lia.
      * intros; exact UA.
    + split; [|intros k' [= <-]].
      * unfold settle, log. cbn.
        destruct (promise_state (settled s) (next_id s)); unfold fresh; cbn;
          repeat split.
        -- intros w Hw. specialize (A w Hw). lia.
        -- intros k [= <-]. lia.
        -- intros k Hk. specialize (U k Hk). congruence.
        -- intros w Hw. apply filter_In in Hw. destruct Hw as [Hw _].
           specialize (A w Hw). lia.
        -- intros k [= <-]. lia.
        -- intros k Hk. specialize (U k Hk). congruence.
      * unfold settle, log. cbn.
        destruct (promise_state (settled s) (next_id s)); cbn; lia.
Qed.

Lemma fresh_subscribe_resume (a : string) (p : jsval) (s : state) :
  fresh s -> fresh (subscribe_resume a p s).
Proof.
  apply fresh_same; unfold subscribe_resume, ws_send;
    cbn [ws set_subscriptions set_lastMessageId];
    destruct (ws s) eqn:W; cbn; rewrite ?W; reflexivity.
Qed.

Lemma fresh_resume_all (l : list (string * jsval)) (s : state) :
  fresh s ->
  fresh (fold_left (fun st ap => subscribe_resume (fst ap) (snd ap) st) l s).
Proof.
  revert s. induction l as [|[a p] l IH]; intros s F; [exact F|].
  cbn [fold_left fst snd]. apply IH. now apply fresh_subscribe_resume.
Qed.

Lemma fresh_core (s s' : state) : core s = core s' -> fresh s -> fresh s'.
Proof.
  unfold core. intros E. apply fresh_same; congruence.
Qed.

Lemma fresh_step (hb : nat -> nat -> jsval -> list hcall * bool)
      (s : state) (e : event) :
  fresh s -> fresh (step hb s e).
Proof.
  intros F. destruct e as [|a p|a|h|h| |k|data|k| |]; cbn [step].
  - now apply fresh_connect.
  - unfold subscribe.
    destruct (fresh_connect s F) as [Fc Hk].
    destruct (connect s) as [s1 aw]. cbn [fst snd] in Fc, Hk.
    destruct aw as [|k]; [now apply fresh_subscribe_resume|].
    destruct (promise_state (settled s1) k) as [[|]|];
      [now apply fresh_subscribe_resume | exact Fc |].
    destruct Fc as (A & P & U). unfold fresh. cbn. repeat split;
      try assumption.
    intros w Hw. apply in_app_or in Hw. destruct Hw as [Hw|[<-|[]]];
      [now apply A | now apply Hk].
  - revert F. apply fresh_same; unfold unsubscribe;
      destruct (negb (isConnected s) || negb (map_has (subscriptions s) a));
      try reflexivity;
      destruct (map_get (subscriptions s) a) as [e|]; try reflexivity;
      destruct (negb (truthy (sub_id e))); try reflexivity;
      unfold ws_send; cbn [ws set_lastMessageId];
      destruct (ws s) eqn:W; cbn; rewrite ?W; reflexivity.
  - revert F. now apply fresh_same.
  - revert F. now apply fresh_same.
  - unfold disconnect. destruct (ws s) as [k|] eqn:W; [|exact F].
    destruct F as (A & P & U). unfold fresh. cbn. repeat split.
    + exact A.
    + discriminate.
    + intros k' _. now apply U with k.
  - unfold onopen.
    assert (F1 : fresh (set_reconnectAttempts 0
                          (set_isConnected true
                             (log "WebSocket connection established" s))))
      by (revert F; now apply fresh_same).
    apply (fresh_settle k true) in F1.
    destruct (settle k true _) as [woken s3]. cbn [snd] in F1.
    now apply fresh_resume_all.
  - unfold onmessage, onmessage_try. destruct data as [message|];
      [|revert F; now apply fresh_same].
    destruct (correlate_cases message s)
      as [[E _]|[[E _]|(mid & res & _ & _ & _ & _ & E)]];
      rewrite E; cbn [bind].
    + revert F. now apply fresh_same.
    + eapply fresh_core; [symmetry; apply dispatch_core | exact F].
    + eapply fresh_core; [symmetry; apply dispatch_core|].
      revert F. now apply fresh_same.
  - unfold onerror.
    destruct (negb (isConnected (log "WebSocket error" s)));
      [|revert F; now apply fresh_same].
    apply fresh_settle. revert F. now apply fresh_same.
  - unfold onclose. cbn.
    destruct (reconnectAttempts s <? maxReconnectAttempts (options_ s));
      destruct F as (A & P & U); unfold fresh; cbn; repeat split;
      try assumption; discriminate.
  - unfold timer_fires.
    destruct (fired s <? List.length (timers s))%nat; [|exact F].
    apply fresh_connect. revert F. now apply fresh_same.
Qed.

Lemma reachable_fresh (hb : nat -> nat -> jsval -> list hcall * bool)
      (s : state) :
  reachable hb s -> fresh s.
Proof.
  intros (u & gi & gm & es & _ & ->).
  assert (F0 : fresh (new_manager u gi gm)).
  { unfold fresh. cbn. repeat split; try discriminate. intros w []. }
  revert F0. generalize (new_manager u gi gm).
  induction es as [|e es IH]; intros s F; [exact F|].
  change (run hb s (e :: es)) with (run hb (step hb s e) es).
  apply IH. now apply fresh_step.
Qed.

Lemma timers_when_connected (hb : nat -> nat -> jsval -> list hcall * bool)
      (n : nat) (s : state) :
  isConnected s = true ->
  next_id (run hb s (repeat TimerFires n)) = next_id s
  /\ ws (run hb s (repeat TimerFires n)) = ws s
  /\ sent (run hb s (repeat TimerFires n)) = sent s.
Proof.
  revert s. induction n as [|n IH]; intros s C; [now repeat split|].
  cbn [repeat].
  change (run hb s (TimerFires :: repeat TimerFires n))
    with (run hb (timer_fires s) (repeat TimerFires n)).
  unfold timer_fires.
  destruct (fired s <? List.length (timers s))%nat; [|now apply IH].
  unfold connect. cbn [isConnected set_fired]. rewrite C. cbn [fst].
  destruct (IH (set_fired (S (fired s)) s) C) as (I1 & I2 & I3).
  now rewrite I1, I2, I3.
Qed.

Lemma disconnect_fields (s : state) (j : nat) :
  ws s = Some j ->
  ws (disconnect s) = Some j
  /\ next_id (disconnect s) = next_id s
  /\ url_accepted (disconnect s) = url_accepted s
  /\ closing (disconnect s) = closing s ++ [j]
  /\ subscriptions (disconnect s) = []
  /\ sent (disconnect s) = sent s
  /\ lastMessageId (disconnect s) = lastMessageId s
  /\ awaiting (disconnect s) = awaiting s
  /\ timers (disconnect s) = timers s
  /\ reconnectAttempts (disconnect s) = reconnectAttempts s
  /\ options_ (disconnect s) = options_ s.
Proof. intros W. unfold disconnect. rewrite W. cbn. now rewrite W. Qed.

Lemma onclose_fields (s : state) :
  ws (onclose s) = ws s
  /\ next_id (onclose s) = next_id s
  /\ url_accepted (onclose s) = url_accepted s
  /\ closing (onclose s) = closing s
  /\ subscriptions (onclose s) = subscriptions s
  /\ sent (onclose s) = sent s
  /\ lastMessageId (onclose s) = lastMessageId s
  /\ awaiting (onclose s) = awaiting s
  /\ isConnected (onclose s) = false
  /\ connectionPromise (onclose s) = None
  /\ timers (onclose s)
     = (if reconnectAttempts s <? maxReconnectAttempts (options_ s)
        then timers s ++ [reconnectInterval (options_ s)]
        else timers s).
Proof.
  unfold onclose, log.
  cbn [reconnectAttempts options_ set_connectionPromise set_isConnected
       set_console].
  destruct (reconnectAttempts s <? maxReconnectAttempts (options_ s));
    cbn; repeat split.
Qed.

Lemma connect_new (s : state) :
  isConnected s = false ->
  connectionPromise s = None ->
  url_accepted s = true ->
  ws (fst (connect s)) = Some (next_id s)
  /\ next_id (fst (connect s)) = S (next_id s)
  /\ closing (fst (connect s)) = closing s
  /\ subscriptions (fst (connect s)) = subscriptions s
  /\ sent (fst (connect s)) = sent s
  /\ lastMessageId (fst (connect s)) = lastMessageId s
  /\ awaiting (fst (connect s)) = awaiting s
  /\ timers (fst (connect s)) = timers s.
Proof.
  intros C P U. unfold connect. rewrite C, P.
  cbn [url_accepted set_next_id]. rewrite U. cbn. repeat split.
Qed.

Lemma onopen_quiet (k : nat) (s : state) :
  filter (waiting_on k) (awaiting s) = [] ->
  subscriptions s = [] ->
  ws (onopen k s) = ws s
  /\ next_id (onopen k s) = next_id s
  /\ closing (onopen k s) = closing s
  /\ subscriptions (onopen k s) = []
  /\ sent (onopen k s) = sent s
  /\ lastMessageId (onopen k s) = lastMessageId s
  /\ timers (onopen k s) = timers s
  /\ isConnected (onopen k s) = true
  /\ reconnectAttempts (onopen k s) = 0.
Proof.
  intros Hn Hs. unfold onopen, settle, log.
  cbn [settled awaiting set_reconnectAttempts set_isConnected set_console].
  destruct (promise_state (settled s) k);
    cbn [subscriptions set_reconnectAttempts set_isConnected set_console
         set_awaiting set_settled];
    rewrite ?Hn, Hs; cbn; rewrite ?Hs; repeat split.
Qed.

Lemma subscribe_resume_fields (a : string) (p : jsval) (s : state) (k : nat) :
  ws s = Some k ->
  ws (subscribe_resume a p s) = Some k
  /\ next_id (subscribe_resume a p s) = next_id s
  /\ closing (subscribe_resume a p s) = closing s
  /\ subscriptions (subscribe_resume a p s)
     = map_set (subscriptions s) a
         {| params := p; pendingId := JNum (lastMessageId s + 1);
            sub_id := JNull |}
  /\ sent (subscribe_resume a p s)
     = sent s ++ [(k, request (lastMessageId s + 1) "accountSubscribe"
                        [JStr a; p])]
  /\ timers (subscribe_resume a p s) = timers s
  /\ isConnected (subscribe_resume a p s) = isConnected s
  /\ reconnectAttempts (subscribe_resume a p s) = reconnectAttempts s.
Proof.
  intros W. unfold subscribe_resume, ws_send.
  cbn [ws set_subscriptions set_lastMessageId]. rewrite W. cbn.
  now rewrite W.
Qed.

(** X17.  The manual reconnection on a manager that has a socket, when the
    old socket's close event comes before the 500 ms timer and the new
    socket opens.  The old socket is closed, a new one is made and becomes
    the manager's socket; the registry holds the selected feed and nothing
    else, pending under the next request id; on the new socket exactly one
    frame is sent, the [accountSubscribe] request of the selected feed with
    the default parameters: the subscriptions held before are forgotten
    without an [accountUnsubscribe].  The attempt counter is back at zero.
    The close handler has meanwhile set its own retry timer when the
    counter allowed it; when such timers run they find the manager connected
    and make no further socket and send nothing. *)
Theorem manual_reconnect (hb : nat -> nat -> jsval -> list hcall * bool)
        (f : feed) (s : state) (j n : nat) :
  reachable hb s ->
  ws s = Some j ->
  ws (handleReconnect (Some f) s) = Some (next_id s)
  /\ next_id (handleReconnect (Some f) s) = S (next_id s)
  /\ isConnected (handleReconnect (Some f) s) = true
  /\ reconnectAttempts (handleReconnect (Some f) s) = 0
  /\ closing (handleReconnect (Some f) s) = closing s ++ [j]
  /\ subscriptions (handleReconnect (Some f) s)
     = [(address f, {| params := default_params;
                       pendingId := JNum (lastMessageId s + 1);
                       sub_id := JNull |})]
  /\ sent (handleReconnect (Some f) s)
     = sent s ++ [(next_id s,
                   request (lastMessageId s + 1) "accountSubscribe"
                           [JStr (address f); default_params])]
  /\ timers (handleReconnect (Some f) s)
     = (if reconnectAttempts s <? maxReconnectAttempts (options_ s)
        then timers s ++ [reconnectInterval (options_ s)]
        else timers s)
  /\ next_id (run hb (handleReconnect (Some f) s) (repeat TimerFires n))
     = S (next_id s)
  /\ sent (run hb (handleReconnect (Some f) s) (repeat TimerFires n))
     = sent (handleReconnect (Some f) s).
Proof.
  intros Hr W. apply reachable_fresh in Hr. destruct Hr as (A & _ & U).
  specialize (U j W).
  assert (Hnone : filter (waiting_on (next_id s)) (awaiting s) = []).
  { apply nobody_waiting. intros w Hw. specialize (A w Hw). lia. }
  destruct (disconnect_fields s j W)
    as (D1 & D2 & D3 & D4 & D5 & D6 & D7 & D8 & D9 & D10 & D11).
  destruct (onclose_fields (disconnect s))
    as (C1 & C2 & C3 & C4 & C5 & C6 & C7 & C8 & C9 & C10 & C11).
  rewrite D10, D11, D9 in C11.
  assert (U2 : url_accepted (onclose (disconnect s)) = true)
    by now rewrite C3, D3.
  destruct (connect_new (onclose (disconnect s)) C9 C10 U2)
    as (N1 & N2 & N3 & N4 & N5 & N6 & N7 & N8).
  rewrite C2, D2 in N1, N2.
  assert (Q : filter (waiting_on (next_id s))
                     (awaiting (fst (connect (onclose (disconnect s)))))
              = []) by now rewrite N7, C8, D8.
  assert (Q' : subscriptions (fst (connect (onclose (disconnect s)))) = [])
    by now rewrite N4, C5.
  destruct (onopen_quiet (next_id s) _ Q Q')
    as (O1 & O2 & O3 & O4 & O5 & O6 & O7 & O8 & O9).
  rewrite N1 in O1.
  set (s4 := onopen (next_id s) (fst (connect (onclose (disconnect s)))))
    in *.
  assert (E : handleReconnect (Some f) s
              = subscribe_resume (address f) default_params s4).
  { unfold handleReconnect. cbv zeta. rewrite C2, D2. fold s4.
    unfold subscribe. now rewrite (connect_connected s4 O8). }
  destruct (subscribe_resume_fields (address f) default_params s4 _ O1)
    as (R1 & R2 & R3 & R4 & R5 & R6 & R7 & R8).
  rewrite <- E in R1, R2, R3, R4, R5, R6, R7, R8.
  rewrite O4, O6, N6, C7, D7 in R4. rewrite O6, N6, C7, D7 in R5.
  assert (I : isConnected (handleReconnect (Some f) s) = true)
    by now rewrite R7.
  destruct (timers_when_connected hb n _ I) as (T1 & _ & T3).
  rewrite T1, T3, R2, O2, N2.
  split; [exact R1|]. split; [reflexivity|]. split; [exact I|].
  split; [now rewrite R8|]. split; [now rewrite R3, O3, N3, C4|].
  split; [exact R4|]. split; [now rewrite R5, O5, N5, C6, D6|].
  split; [now rewrite R6, O7, N8|]. now split.
Qed.

Lemma manual_reconnect_witness :
  sent_on 1 (handleReconnect
               (Some {| name := "BTC/USD";
                        address :=
                          "71wtTRDY8Gxgw56bXFt2oc6qeAbTxzStdNiC425Z51sr";
                        category := "Pyth Lazer" |})
               subscribed)
  = [request 4 "accountSubscribe"
       [JStr "71wtTRDY8Gxgw56bXFt2oc6qeAbTxzStdNiC425Z51sr";
        default_params]]
  /\ map fst (subscriptions
                (handleReconnect
                   (Some {| name := "BTC/USD";
                            address :=
                              "71wtTRDY8Gxgw56bXFt2oc6qeAbTxzStdNiC425Z51sr";
                            category := "Pyth Lazer" |})
                   subscribed))
     = ["71wtTRDY8Gxgw56bXFt2oc6qeAbTxzStdNiC425Z51sr"%string].
Proof.
  assert (Hr : reachable quiet_handlers subscribed).
  { eexists true, None, None, _. split; [|reflexivity].
    vm_compute. reflexivity. }
  destruct (manual_reconnect quiet_handlers
              {| name := "BTC/USD";
                 address := "71wtTRDY8Gxgw56bXFt2oc6qeAbTxzStdNiC425Z51sr";
                 category := "Pyth Lazer" |}
              subscribed 0 0 Hr eq_refl)
    as (_ & _ & _ & _ & _ & H6 & H7 & _).
  split; [unfold sent_on; rewrite H7 | rewrite H6]; vm_compute; reflexivity.
Defined.

End ReconnectLaws.
